(** * GSC performance analyzer: a shallow embedding of [gsc_analyzer.py]
      and of the page script of [app.py]

    The development follows [GSCAnalyzer] method by method:
    [prepare_data] (column mapping, required-column check, numeric
    coercion, CTR derivation, de-duplication), the aggregations behind
    [query_analysis] / [url_analysis] / [url_performance_analysis], and
    the rule set of [generate_insights].

    Modelling conventions.
    - A pandas [DataFrame] is a list of column labels plus a list of rows;
      labels may repeat, exactly as after [DataFrame.rename].
    - A cell is a string, a finite number or NaN.  Numbers are exact
      rationals ([Q]): binary rounding and infinite input cells are outside
      the model.  A column whose cells are all integers of the 64-bit
      range is an int64 column, as [read_csv] and [to_numeric] make it,
      and its group sums wrap around modulo 2^64 as pandas' do; any other
      numeric column is float64 and is summed exactly.  A float64 column
      of integral values is not told apart from an int64 column: the two
      differ only once a total reaches 2^63, which the theorems about
      sums exclude.  The only place where the source can create an infinity,
      the element-wise division, is modelled with an extended value that is
      sanitised by [replace] / [fillna] as in the source.
    - [str.lower] is modelled on ASCII letters.
    - [pd.to_numeric] on a text cell and the [.1f] float formatting are
      Python/pandas built-ins; they are Section variables.
    - Python exceptions are values of [error]; a method that can raise
      returns a [result]. *)

From Stdlib Require Import Ascii String DecimalString QArith Qminmax Qround Qabs Lia Lqa Sorted.
From stdpp Require Import gmap strings list fin_maps.

Local Open Scope string_scope.
Local Open Scope list_scope.

(** ** Exceptions and the error monad *)

Inductive error : Type :=
| MissingColumns (missing : list string)
    (* ValueError("Missing required columns: ...") , line 50 *)
| KeyError (label : string)
    (* df[label] on an absent label *)
| TypeError_frame
    (* a DataFrame where a Series or a number is needed (duplicated
       label), as in pd.to_numeric(df[label]) *)
| ValueError_ambiguous
    (* truth value of a Series with several entries *)
| ValueError_grouper (label : string)
    (* groupby on a duplicated label: "Grouper ... not 1-dimensional" *)
| ZeroDivisionError.
    (* int / int with a zero divisor *)

Inductive result (A : Type) : Type :=
| Ok (a : A)
| Err (e : error).
Arguments Ok {A} a.
Arguments Err {A} e.

Definition bind {A B} (r : result A) (k : A -> result B) : result B :=
  match r with
  | Ok a => k a
  | Err e => Err e
  end.

#[global] Instance result_ret : MRet result := fun _ a => Ok a.
#[global] Instance result_bind : MBind result := fun _ _ k r => bind r k.

(** ** Strings: lower-casing and substring test *)

Definition lower_ascii (c : ascii) : ascii :=
  let n := nat_of_ascii c in
  if (65 <=? n)%nat && (n <=? 90)%nat then ascii_of_nat (n + 32) else c.

Fixpoint lower (s : string) : string :=
  match s with
  | EmptyString => EmptyString
  | String c t => String (lower_ascii c) (lower t)
  end.

(** [contains sub s] is Python's [sub in s]. *)
Fixpoint contains (sub s : string) : bool :=
  String.prefix sub s
  || match s with
     | EmptyString => false
     | String _ t => contains sub t
     end.

(** [s.startswith(p)] *)
Definition startswith (p s : string) : bool := String.prefix p s.

(** ** Column mapping (lines 17-44) *)

(** The dict literal, in insertion order (the iteration order of
    [column_mapping.items()]). *)
Definition column_mapping : list (string * string) :=
  [ ("query", "query");
    ("keyword", "query");
    ("page", "page");
    ("landing page", "page");
    ("url", "page");
    ("address", "page");
    ("clicks", "clicks");
    ("impressions", "impressions");
    ("ctr", "ctr");
    ("url ctr", "ctr");
    ("position", "position");
    ("avg. pos", "position") ].

(** The inner loop of lines 39-42: first key contained in [col]. *)
Definition first_match (col : string) : option (string * string) :=
  find (fun kv => contains (lower (fst kv)) col) column_mapping.

Definition map_column (col : string) : option string :=
  snd <$> first_match col.

(** Lines 37-42: the dict [rename_dict], filled column by column. *)
Definition rename_dict (cols : list string) : gmap string string :=
  foldl (fun d col =>
           match map_column col with
           | Some value => <[col := value]> d
           | None => d
           end) ∅ cols.

(** Lines 34 and 44: lower-case the labels, then [rename(columns=rename_dict)]. *)
Definition renamed_columns (cols : list string) : list string :=
  let lowered := map lower cols in
  let d := rename_dict lowered in
  map (fun col => default col (d !! col)) lowered.

(** The synonym table as the specification words it: one entry per
    canonical field, in the documented order. *)
Definition spec_synonyms : list (string * list string) :=
  [ ("query", ["query"; "keyword"]);
    ("page", ["page"; "landing page"; "url"; "address"]);
    ("clicks", ["clicks"]);
    ("impressions", ["impressions"]);
    ("ctr", ["ctr"; "url ctr"]);
    ("position", ["position"; "avg. pos"]) ].

(** Specification-side mapper: the first field one of whose synonyms
    occurs in the name. *)
Definition spec_map_column (col : string) : option string :=
  fst <$> find (fun fs => existsb (fun syn => contains syn col) (snd fs))
               spec_synonyms.

(** ** Data frames *)

Inductive cell : Type :=
| CStr (s : string)
| CNum (x : Q)
| CNaN.

Record DataFrame : Type := mkFrame {
  columns : list string;
  rows : list (list cell)
}.

Fixpoint positions_from (i : nat) (label : string) (cols : list string)
  : list nat :=
  match cols with
  | [] => []
  | c :: cs =>
      if String.eqb c label
      then i :: positions_from (S i) label cs
      else positions_from (S i) label cs
  end.

(** Positions of the columns carrying [label]. *)
Definition positions (label : string) (cols : list string) : list nat :=
  positions_from 0 label cols.

(** [label in df.columns] *)
Definition has_column (label : string) (cols : list string) : bool :=
  existsb (String.eqb label) cols.

Definition column (i : nat) (rs : list (list cell)) : list cell :=
  map (fun r => nth i r CNaN) rs.

(** What [df[label]] evaluates to: a Series for a unique label, a
    DataFrame when the label is carried by several columns. *)
Inductive selected : Type :=
| Series (s : list cell)
| Frame (cs : list (list cell)).

Definition getitem (df : DataFrame) (label : string) : result selected :=
  match positions label (columns df) with
  | [] => Err (KeyError label)
  | [i] => Ok (Series (column i (rows df)))
  | ps => Ok (Frame (map (fun i => column i (rows df)) ps))
  end.

Fixpoint set_nth (i : nat) (v : cell) (r : list cell) : list cell :=
  match i, r with
  | O, [] => [v]
  | O, _ :: t => v :: t
  | S j, [] => CNaN :: set_nth j v []
  | S j, x :: t => x :: set_nth j v t
  end.

Definition set_column (i : nat) (vals : list cell) (rs : list (list cell))
  : list (list cell) :=
  zip_with (fun r v => set_nth i v r) rs vals.

(** [df[label] = vals]: overwrite the column(s) carrying the label, or
    append a new column when the label is absent. *)
Definition setitem (df : DataFrame) (label : string) (vals : list cell)
  : DataFrame :=
  match positions label (columns df) with
  | [] => {| columns := columns df ++ [label];
             rows := set_column (length (columns df)) vals (rows df) |}
  | ps => {| columns := columns df;
             rows := foldr (fun i rs => set_column i vals rs) (rows df) ps |}
  end.

(** ** Numeric helpers *)

(** Result of a float division: finite, infinite or NaN. *)
Inductive xfloat : Type :=
| Fin (x : Q)
| PInf
| NInf
| XNaN.

(** Element-wise [a / b] on floats. *)
Definition fdiv (a b : Q) : xfloat :=
  if Qeq_bool b 0%Q then
    match (a ?= 0)%Q with
    | Eq => XNaN
    | Gt => PInf
    | Lt => NInf
    end
  else Fin (a / b)%Q.

(** [.replace([np.inf, -np.inf], 0)] *)
Definition replace_inf (x : xfloat) : xfloat :=
  match x with
  | PInf | NInf => Fin 0%Q
  | _ => x
  end.

(** [.fillna(0)] on a division result *)
Definition fillna0_x (x : xfloat) : Q :=
  match x with
  | Fin q => q
  | _ => 0%Q
  end.

(** [(a / b).replace([np.inf, -np.inf], 0).fillna(0)] for one element. *)
Definition guarded_div (a b : Q) : Q := fillna0_x (replace_inf (fdiv a b)).

(** Maximum of a numeric column; [None] is the NaN pandas returns for an
    empty column. *)
Definition series_max (xs : list Q) : option Q :=
  match xs with
  | [] => None
  | x :: t => Some (fold_left Qmax t x)
  end.

(** [m > 1] where [m] may be NaN. *)
Definition exceeds_one (m : option Q) : bool :=
  match m with
  | Some x => negb (Qle_bool x 1%Q)
  | None => false
  end.

Definition isna (c : cell) : bool :=
  match c with
  | CNaN => true
  | _ => false
  end.

(** Numeric reading of a cell of a column that has been coerced. *)
Definition cell_num (c : cell) : Q :=
  match c with
  | CNum x => x
  | _ => 0%Q
  end.

(** Equality of cells as [drop_duplicates] / [groupby] see it: NaN is
    one value of its own. *)
Definition cell_eqb (a b : cell) : bool :=
  match a, b with
  | CStr s, CStr t => String.eqb s t
  | CNum x, CNum y => Qeq_bool x y
  | CNaN, CNaN => true
  | _, _ => false
  end.

Fixpoint key_eqb (k1 k2 : list cell) : bool :=
  match k1, k2 with
  | [], [] => true
  | a :: t1, b :: t2 => cell_eqb a b && key_eqb t1 t2
  | _, _ => false
  end.

(** ** De-duplication (lines 68-69) *)

(** Positions of all columns whose label is in [subset], in column order. *)
Fixpoint subset_positions_from (i : nat) (subset cols : list string)
  : list nat :=
  match cols with
  | [] => []
  | c :: cs =>
      if existsb (String.eqb c) subset
      then i :: subset_positions_from (S i) subset cs
      else subset_positions_from (S i) subset cs
  end.

Definition row_key (ps : list nat) (r : list cell) : list cell :=
  map (fun i => nth i r CNaN) ps.

(** [df[~df.duplicated(subset)]], row by row: a row is a duplicate when
    some earlier row, kept or not, carries an equal key. *)
Fixpoint keep_first (ps : list nat) (earlier : list (list cell))
  (rs : list (list cell)) : list (list cell) :=
  match rs with
  | [] => []
  | r :: t =>
      if existsb (key_eqb (row_key ps r)) earlier
      then keep_first ps (row_key ps r :: earlier) t
      else r :: keep_first ps (row_key ps r :: earlier) t
  end.

Definition drop_duplicates (subset : list string) (df : DataFrame)
  : result DataFrame :=
  match filter (fun l => negb (has_column l (columns df))) subset with
  | [] =>
      Ok {| columns := columns df;
            rows := keep_first
                      (subset_positions_from 0 subset (columns df)) []
                      (rows df) |}
  | l :: _ => Err (KeyError l)
  end.

(** ** [prepare_data] *)

Definition required_cols : list string :=
  ["query"; "page"; "clicks"; "impressions"; "ctr"; "position"].

Section Analyzer.

(** [pd.to_numeric] on one text cell: the parsed number, or [None] when
    the text does not parse. *)
Variable parse_float : string -> option Q.

(** [format(x, '.1f')] *)
Variable format_1f : Q -> string.

(** [pd.to_numeric(c, errors='coerce')] on a cell; [None] is NaN. *)
Definition coerce (c : cell) : option Q :=
  match c with
  | CNum x => Some x
  | CStr s => parse_float s
  | CNaN => None
  end.

Definition to_numeric (sel : selected) : result (list (option Q)) :=
  match sel with
  | Series s => Ok (map coerce s)
  | Frame _ => Err TypeError_frame
  end.

Definition fillna0 (xs : list (option Q)) : list Q := map (default 0%Q) xs.

(** Lines 53-55, one column:
    [df[label] = pd.to_numeric(df[label], errors='coerce').fillna(0)]. *)
Definition convert (label : string) (df : DataFrame) : result DataFrame :=
  sel ← getitem df label;
  xs ← to_numeric sel;
  Ok (setitem df label (map CNum (fillna0 xs))).

(** The test of line 58. *)
Definition ctr_not_provided (df : DataFrame) : result bool :=
  if negb (has_column "ctr" (columns df)) then Ok true
  else
    sel ← getitem df "ctr";
    match sel with
    | Series s => Ok (forallb isna s)
    | Frame _ => Err ValueError_ambiguous
    end.

Definition numeric_column (df : DataFrame) (label : string)
  : result (list Q) :=
  sel ← getitem df label;
  match sel with
  | Series s => Ok (map cell_num s)
  | Frame _ => Err TypeError_frame
  end.

(** Lines 59-61. *)
Definition derived_ctr (df : DataFrame) : result (list Q) :=
  cs ← numeric_column df "clicks";
  ims ← numeric_column df "impressions";
  Ok (zip_with guarded_div cs ims).

(** Lines 65-66: one decision for the whole column. *)
Definition rescale_pct (xs : list Q) : list Q :=
  if exceeds_one (series_max xs) then map (fun x => (x / 100)%Q) xs else xs.

(** Lines 63-66. *)
Definition supplied_ctr (df : DataFrame) : result (list Q) :=
  sel ← getitem df "ctr";
  xs ← to_numeric sel;
  Ok (rescale_pct (fillna0 xs)).

(** Lines 58-66. *)
Definition fill_ctr (df : DataFrame) : result DataFrame :=
  absent ← ctr_not_provided df;
  ctr ← (if absent : bool then derived_ctr df else supplied_ctr df);
  Ok (setitem df "ctr" (map CNum ctr)).

(** Line 48. *)
Definition missing_cols (cols : list string) : list string :=
  filter (fun c => negb (has_column c cols)) required_cols.

(** Lines 52-66: the frame just before de-duplication. *)
Definition typed_frame (df : DataFrame) : result DataFrame :=
  df1 ← convert "clicks" df;
  df2 ← convert "impressions" df1;
  df3 ← convert "position" df2;
  fill_ctr df3.

Definition renamed (df : DataFrame) : DataFrame :=
  {| columns := renamed_columns (columns df); rows := rows df |}.

Definition prepare_data (df : DataFrame) : result DataFrame :=
  let df0 := renamed df in
  match missing_cols (columns df0) with
  | [] =>
      df4 ← typed_frame df0;
      drop_duplicates ["query"; "page"] df4
  | missing => Err (MissingColumns missing)
  end.

(** ** Aggregation: [groupby(label).agg(sum, sum, mean).reset_index()] *)

Record Group : Type := mkGroup {
  g_key : cell;
  g_clicks : Q;
  g_impressions : Q;
  g_position : Q
}.

(** The grouping column; a duplicated label is not one-dimensional. *)
Definition key_column (df : DataFrame) (label : string)
  : result (list cell) :=
  match positions label (columns df) with
  | [] => Err (KeyError label)
  | [i] => Ok (column i (rows df))
  | _ => Err (ValueError_grouper label)
  end.

(** Group keys: NaN keys are dropped ([dropna=True]); each key is listed
    once. *)
Fixpoint distinct_keys (seen ks : list cell) : list cell :=
  match ks with
  | [] => []
  | k :: t =>
      if isna k || existsb (cell_eqb k) seen
      then distinct_keys seen t
      else k :: distinct_keys (k :: seen) t
  end.

(** Order of the group keys in the result ([sort=True]): numbers before
    text, numbers by value, text by code point. *)
Definition cell_leb (a b : cell) : bool :=
  match a, b with
  | CNum x, CNum y => Qle_bool x y
  | CNum _, _ => true
  | CStr s, CStr t => String.leb s t
  | CStr _, CNum _ => false
  | CStr _, CNaN => true
  | CNaN, CNaN => true
  | CNaN, _ => false
  end.

Fixpoint insert_key (k : cell) (ks : list cell) : list cell :=
  match ks with
  | [] => [k]
  | h :: t => if cell_leb k h then k :: ks else h :: insert_key k t
  end.

Definition sort_keys (ks : list cell) : list cell := foldr insert_key [] ks.

Definition entry : Type := cell * (Q * (Q * Q)).
Definition e_key (e : entry) : cell := fst e.
Definition e_clicks (e : entry) : Q := fst (snd e).
Definition e_impressions (e : entry) : Q := fst (snd (snd e)).
Definition e_position (e : entry) : Q := snd (snd (snd e)).

Definition members (k : cell) (es : list entry) : list entry :=
  filter (fun e => cell_eqb k (e_key e)) es.

Definition Qsum (xs : list Q) : Q := foldr Qplus 0%Q xs.

Definition Qmean (xs : list Q) : Q :=
  (Qsum xs / inject_Z (Z.of_nat (length xs)))%Q.

(** pandas adds an int64 column in 64-bit two's complement: the sum
    wraps around. *)
Definition wrap_int64 (z : Z) : Z :=
  ((z + 2 ^ 63) mod 2 ^ 64 - 2 ^ 63)%Z.

(** A cell of an int64 column: an integer of the 64-bit range. *)
Definition int64_cell (c : cell) : bool :=
  match c with
  | CNum x =>
      Qeq_bool x (inject_Z (Qfloor x))
      && (- 2 ^ 63 <=? Qfloor x)%Z && (Qfloor x <? 2 ^ 63)%Z
  | _ => false
  end.

(** [df[label].dtype == int64] *)
Definition int64_dtype (df : DataFrame) (label : string) : bool :=
  match getitem df label with
  | Ok (Series s) => forallb int64_cell s
  | _ => false
  end.

(** The [sum] of one group: wrapped for an int64 column, plain for a
    float64 column. *)
Definition agg_sum (int64 : bool) (xs : list Q) : Q :=
  if int64 then inject_Z (wrap_int64 (Qfloor (Qsum xs))) else Qsum xs.

Definition aggregate (int_clicks int_impressions : bool) (k : cell)
  (es : list entry) : Group :=
  {| g_key := k;
     g_clicks := agg_sum int_clicks (map e_clicks es);
     g_impressions := agg_sum int_impressions (map e_impressions es);
     g_position := Qmean (map e_position es) |}.

Definition entries (df : DataFrame) (label : string) : result (list entry) :=
  ks ← key_column df label;
  cs ← numeric_column df "clicks";
  ims ← numeric_column df "impressions";
  ps ← numeric_column df "position";
  Ok (zip ks (zip cs (zip ims ps))).

Definition groupby (label : string) (df : DataFrame) : result (list Group) :=
  es ← entries df label;
  let int_clicks := int64_dtype df "clicks" in
  let int_impressions := int64_dtype df "impressions" in
  Ok (map (fun k => aggregate int_clicks int_impressions k (members k es))
          (sort_keys (distinct_keys [] (map e_key es)))).

(** Lines 79-81 / 211-213: the recomputed [ctr] column, kept next to
    each group. *)
Definition stat : Type := Group * Q.
Definition s_clicks (s : stat) : Q := g_clicks (fst s).
Definition s_impressions (s : stat) : Q := g_impressions (fst s).
Definition s_position (s : stat) : Q := g_position (fst s).
Definition s_ctr (s : stat) : Q := snd s.

Definition with_ctr (gs : list Group) : list stat :=
  map (fun g => (g, guarded_div (g_clicks g) (g_impressions g))) gs.


Definition url_stats (df : DataFrame) : result (list stat) :=
  gs ← groupby "page" df; Ok (with_ctr gs).

(** ** Result dictionaries *)

(** Python numbers stored in a result dict. *)
Inductive num : Type :=
| NInt (n : Z)
| NFloat (x : Q).

Definition num_Q (v : num) : Q :=
  match v with
  | NInt n => inject_Z n
  | NFloat x => x
  end.

Inductive value : Type :=
| VNum (v : num)
| VFrame (gs : list Group).

(** [a / b] with an integer divisor. *)
Definition py_truediv (a : num) (b : Z) : result Q :=
  if (b =? 0)%Z then Err ZeroDivisionError
  else Ok (num_Q a / inject_Z b)%Q.

(** [(a / total) * 100] *)
Definition pct (a : num) (total : Z) : result num :=
  q ← py_truediv a total; Ok (NFloat (q * 100)%Q).

Definition Qltb (x y : Q) : bool := negb (Qle_bool y x).

(** [len(stats[mask])] *)
Definition count {A} (mask : A -> bool) (xs : list A) : num :=
  NInt (Z.of_nat (length (filter mask xs))).

(** Successive assignments [d[k] = v]. *)
Definition assign_all {V} (d : gmap string V) (kvs : list (string * V))
  : gmap string V :=
  foldl (fun d kv => <[fst kv := snd kv]> d) d kvs.

Fixpoint map_result {A B} (f : A -> result B) (xs : list A)
  : result (list B) :=
  match xs with
  | [] => Ok []
  | x :: t => y ← f x; ys ← map_result f t; Ok (y :: ys)
  end.

Definition metric : Type := stat -> Q.

(** [(stats[m] >= threshold) & (stats['ctr'] < 0.01)] *)
Definition low_ctr (m : metric) (threshold : Q) (s : stat) : bool :=
  Qle_bool threshold (m s) && Qltb (s_ctr s) (1 # 100).

(** [(stats[m] >= threshold) & (position >= lo) & (position <= hi)] *)
Definition in_band (m : metric) (threshold lo hi : Q) (s : stat) : bool :=
  Qle_bool threshold (m s) && Qle_bool lo (s_position s)
  && Qle_bool (s_position s) hi.

(** [(stats[m] >= threshold) & (position >= lo)] *)
Definition from_band (m : metric) (threshold lo : Q) (s : stat) : bool :=
  Qle_bool threshold (m s) && Qle_bool lo (s_position s).

(** The sixteen counts of lines 107-193 (and 239-325), in source order. *)
Definition threshold_counts (plural : string) (stats : list stat)
  : list (string * num) :=
  [ (plural +:+ "_100clicks_1pct_ctr", count (low_ctr s_clicks 100) stats);
    (plural +:+ "_1000clicks_1pct_ctr", count (low_ctr s_clicks 1000) stats);
    (plural +:+ "_100impr_1pct_ctr", count (low_ctr s_impressions 100) stats);
    (plural +:+ "_1000impr_1pct_ctr", count (low_ctr s_impressions 1000) stats);
    (plural +:+ "_100clicks_pos_4_10", count (in_band s_clicks 100 4 10) stats);
    (plural +:+ "_100clicks_pos_11_20", count (in_band s_clicks 100 11 20) stats);
    (plural +:+ "_100clicks_pos_21_plus", count (from_band s_clicks 100 21) stats);
    (plural +:+ "_1000clicks_pos_4_10", count (in_band s_clicks 1000 4 10) stats);
    (plural +:+ "_1000clicks_pos_11_20", count (in_band s_clicks 1000 11 20) stats);
    (plural +:+ "_1000clicks_pos_21_plus", count (from_band s_clicks 1000 21) stats);
    (plural +:+ "_100impr_pos_4_10", count (in_band s_impressions 100 4 10) stats);
    (plural +:+ "_100impr_pos_11_20", count (in_band s_impressions 100 11 20) stats);
    (plural +:+ "_100impr_pos_21_plus", count (from_band s_impressions 100 21) stats);
    (plural +:+ "_1000impr_pos_4_10", count (in_band s_impressions 1000 4 10) stats);
    (plural +:+ "_1000impr_pos_11_20", count (in_band s_impressions 1000 11 20) stats);
    (plural +:+ "_1000impr_pos_21_plus", count (from_band s_impressions 1000 21) stats) ].

(** The four presence counts of lines 87-90 (and 219-222). *)
Definition presence_counts (plural : string) (stats : list stat)
  : list (string * num) :=
  [ (plural +:+ "_with_clicks", count (fun s => Qltb 0 (s_clicks s)) stats);
    (plural +:+ "_with_impressions",
       count (fun s => Qltb 0 (s_impressions s)) stats);
    (plural +:+ "_without_clicks",
       count (fun s => Qeq_bool (s_clicks s) 0) stats);
    (plural +:+ "_without_impressions",
       count (fun s => Qeq_bool (s_impressions s) 0) stats) ].

(** [results['pct_' + key] = (results[key] / total) * 100] *)
Definition pct_entry (total : Z) (kv : string * num)
  : result (string * num) :=
  p ← pct (snd kv) total; Ok ("pct_" +:+ fst kv, p).

(** Lines 195-199 (and 327-331): the closing loop over
    [list(results.keys())]. *)
Definition pct_loop (plural total_key : string) (total : Z)
  (results : gmap string num) : result (gmap string num) :=
  let selected_keys :=
    filter (fun kv => startswith (plural +:+ "_") (fst kv)
                      && negb (String.eqb (fst kv) total_key))
           (map_to_list results) in
  pcts ← map_result (pct_entry total) selected_keys;
  Ok (assign_all results pcts).

(** The common body of [query_analysis] and [url_analysis]. *)
Definition dimension_analysis (label plural : string) (df : DataFrame)
  : result (gmap string num) :=
  gs ← groupby label df;
  let stats := with_ctr gs in
  let total := Z.of_nat (length stats) in
  let total_key := "total_" +:+ plural in
  let results :=
    assign_all ∅ ((total_key, NInt total) :: presence_counts plural stats) in
  pcts ← map_result (pct_entry total) (presence_counts plural stats);
  let results := assign_all results pcts in
  let results := assign_all results (threshold_counts plural stats) in
  pct_loop plural total_key total results.

Definition query_analysis (df : DataFrame) : result (gmap string num) :=
  dimension_analysis "query" "queries" df.

Definition url_analysis (df : DataFrame) : result (gmap string num) :=
  dimension_analysis "page" "urls" df.

(** ** [url_performance_analysis] *)

Record Thresholds : Type := mkThresholds {
  top : Q;
  good : Q;
  weak : Q
}.

Definition default_thresholds : Thresholds :=
  {| top := 1000; good := 100; weak := 10 |}.

Definition is_top (th : Thresholds) (g : Group) : bool :=
  Qle_bool (top th) (g_clicks g).
Definition is_good (th : Thresholds) (g : Group) : bool :=
  Qle_bool (good th) (g_clicks g) && Qltb (g_clicks g) (top th).
Definition is_weak (th : Thresholds) (g : Group) : bool :=
  Qle_bool (weak th) (g_clicks g) && Qltb (g_clicks g) (good th).
Definition is_dead (g : Group) : bool :=
  Qeq_bool (g_clicks g) 0.
Definition is_opportunity (g : Group) : bool :=
  Qeq_bool (g_clicks g) 0 && Qltb 0 (g_impressions g).

Definition categories : list string :=
  ["top"; "good"; "weak"; "dead"; "opportunity"].

(** The five filtered frames of lines 353-365, by category name. *)
Definition buckets (th : Thresholds) (stats : list Group)
  : list (string * list Group) :=
  [ ("top", filter (is_top th) stats);
    ("good", filter (is_good th) stats);
    ("weak", filter (is_weak th) stats);
    ("dead", filter is_dead stats);
    ("opportunity", filter is_opportunity stats) ].

Definition url_performance_analysis (df : DataFrame)
  (thresholds : option Thresholds) : result (gmap string value) :=
  let th := default default_thresholds thresholds in
  stats ← groupby "page" df;
  let total_urls := Z.of_nat (length stats) in
  let bs := buckets th stats in
  let results :=
    assign_all ∅
      (("total_urls", VNum (NInt total_urls))
       :: map (fun b => (fst b +:+ "_urls_count",
                         VNum (NInt (Z.of_nat (length (snd b)))))) bs
       ++ map (fun b => (fst b +:+ "_urls", VFrame (snd b))) bs) in
  pcts ← map_result
           (fun b =>
              p ← pct (NInt (Z.of_nat (length (snd b)))) total_urls;
              Ok ("pct_" +:+ fst b +:+ "_urls", VNum p)) bs;
  Ok (assign_all results pcts).

(** ** [generate_insights] *)

Record Insights : Type := mkInsights {
  high_potential_queries : num;
  low_ctr_high_click_queries : num;
  position_opportunities : num * num * num;
  performance_distribution : list (string * value);
  low_ctr_high_click_urls : num;
  recommendations : list string
}.

(** [d.get(key, 0)] *)
Definition get_num (d : gmap string num) (key : string) : num :=
  default (NInt 0) (d !! key).

Definition get_value (d : gmap string value) (key : string) : value :=
  default (VNum (NInt 0)) (d !! key).

(** [if v > c:] -- comparing a DataFrame has no truth value. *)
Definition value_gt (v : value) (c : Q) : result bool :=
  match v with
  | VNum n => Ok (Qltb c (num_Q n))
  | VFrame _ => Err ValueError_ambiguous
  end.

(** [str(n)] for an int. *)
Definition str_int (n : Z) : string :=
  DecimalString.NilZero.string_of_int (Z.to_int n).

(** Default formatting of a float, [str(x)]. *)
Variable str_float : Q -> string.

Definition str_num (v : num) : string :=
  match v with
  | NInt n => str_int n
  | NFloat x => str_float x
  end.

(** [f"{v:.1f}"]; a DataFrame does not accept the format. *)
Definition fmt_1f (v : value) : result string :=
  match v with
  | VNum n => Ok (format_1f (num_Q n))
  | VFrame _ => Err TypeError_frame
  end.

Definition opportunity_message (p : string) : string :=
  "High opportunity: " +:+ p +:+ "% "
  +:+ "of URLs have impressions but no clicks. Focus on improving CTR.".

Definition low_ctr_message (n : string) : string :=
  "Found " +:+ n +:+ " queries with "
  +:+ "100+ clicks but <1% CTR. Review meta titles and descriptions.".

Definition dead_message (p : string) : string :=
  p +:+ "% of URLs are dead. "
  +:+ "Consider content pruning or technical SEO improvements.".

Definition generate_insights (df : DataFrame) : result Insights :=
  query_results ← query_analysis df;
  url_results ← url_analysis df;
  performance_results ← url_performance_analysis df None;
  let recs0 : list string := [] in
  let opp := get_value performance_results "pct_opportunity_urls" in
  c1 ← value_gt opp 10;
  recs1 ← (if c1 : bool
           then s ← fmt_1f opp; Ok (recs0 ++ [opportunity_message s])
           else Ok recs0);
  let low := get_num query_results "queries_100clicks_1pct_ctr" in
  let recs2 :=
    if Qltb 0 (num_Q low)
    then recs1 ++ [low_ctr_message (str_num low)]
    else recs1 in
  let dead := get_value performance_results "pct_dead_urls" in
  c3 ← value_gt dead 20;
  recs3 ← (if c3 : bool
           then s ← fmt_1f dead; Ok (recs2 ++ [dead_message s])
           else Ok recs2);
  Ok {| high_potential_queries :=
          get_num query_results "queries_100impr_1pct_ctr";
        low_ctr_high_click_queries :=
          get_num query_results "queries_100clicks_1pct_ctr";
        position_opportunities :=
          (get_num query_results "queries_100clicks_pos_4_10",
           get_num query_results "queries_100clicks_pos_11_20",
           get_num query_results "queries_100clicks_pos_21_plus");
        performance_distribution :=
          map (fun c => (c +:+ "_urls",
                         get_value performance_results ("pct_" +:+ c +:+ "_urls")))
              categories;
        low_ctr_high_click_urls :=
          get_num url_results "urls_100clicks_1pct_ctr";
        recommendations := recs3 |}.

End Analyzer.

(** ** The page script of [app.py] (lines 62-87)

    The upload is handed to [GSCAnalyzer], which works on a copy; the
    four analyses run; the overview then reads two entries of the result
    dictionaries and sums two columns of the uploaded frame itself.  The
    [,] number format and [Series.sum] are built-ins and are Section
    variables. *)

Section App.

Variable parse_float : string -> option Q.
Variable format_1f : Q -> string.
Variable str_float : Q -> string.
(** [f"{n:,}"] on a dictionary entry *)
Variable format_count : num -> string.
(** [f"{sel.sum():,}"] on what [df[label]] selected *)
Variable format_sum : selected -> result string.

Record Overview : Type := mkOverview {
  total_queries_metric : string;
  total_urls_metric : string;
  total_clicks_metric : string;
  total_impressions_metric : string
}.

(** [d[key]] on a result dictionary *)
Definition dict_getitem (d : gmap string num) (key : string) : result num :=
  match d !! key with
  | Some v => Ok v
  | None => Err (KeyError key)
  end.

Definition overview (thresholds : Thresholds) (df : DataFrame)
  : result Overview :=
  analyzer ← prepare_data parse_float df;
  query_results ← query_analysis analyzer;
  url_results ← url_analysis analyzer;
  performance_results ← url_performance_analysis analyzer (Some thresholds);
  insights ← generate_insights format_1f str_float analyzer;
  total_queries ← dict_getitem query_results "total_queries";
  total_urls ← dict_getitem url_results "total_urls";
  clicks ← getitem df "clicks";
  total_clicks ← format_sum clicks;
  impressions ← getitem df "impressions";
  total_impressions ← format_sum impressions;
  Ok {| total_queries_metric := format_count total_queries;
        total_urls_metric := format_count total_urls;
        total_clicks_metric := total_clicks;
        total_impressions_metric := total_impressions |}.

End App.

(** ** Sample tables and statement helpers *)

(** A text parser that recognises nothing: every text cell is NaN. *)
Definition no_parse (s : string) : option Q := None.

(** A raw export with synonym headers and one duplicated row. *)
Definition ex_frame : DataFrame :=
  {| columns := ["Query"; "Landing Page"; "Clicks"; "Impressions"; "CTR"; "Avg. Pos"];
     rows := [ [CStr "shoe"; CStr "p1"; CNum 150; CNum 12500; CNum (12#1000); CNum (32#10)];
               [CStr "shoe"; CStr "p2"; CNum 0; CNum 500; CNum 0; CNum 15];
               [CStr "boot"; CStr "p3"; CNum 0; CNum 0; CNum 0; CNum 0];
               [CStr "shoe"; CStr "p1"; CNum 150; CNum 12500; CNum (12#1000); CNum (32#10)] ] |}.

(** [True] exactly on the exception of line 50. *)
Definition raises_missing {A} (r : result A) : bool :=
  match r with
  | Err (MissingColumns _) => true
  | _ => false
  end.

(** The synonyms that precede ["ctr"] in [column_mapping]. *)
Definition before_ctr : list string :=
  ["query"; "keyword"; "page"; "landing page"; "url"; "address";
   "clicks"; "impressions"].

(** The canonical columns other than [ctr]. *)
Definition needed_cols : list string :=
  ["query"; "page"; "clicks"; "impressions"; "position"].

(** A raw table lacking only a position column. *)
Definition no_position_frame : DataFrame :=
  {| columns := ["Query"; "Page"; "Clicks"; "Impressions"; "CTR"];
     rows := [[CStr "shoe"; CStr "p1"; CNum 150; CNum 12500; CNum (12 # 1000)]] |}.

(** The cells of the column carrying [label], when there is exactly one. *)
Definition cells_of (df : DataFrame) (label : string) : list cell :=
  match getitem df label with
  | Ok (Series s) => s
  | _ => []
  end.

(** A column after [pd.to_numeric(..., errors='coerce').fillna(0)]. *)
Definition coerced (parse : string -> option Q) (s : list cell) : list Q :=
  fillna0 (map (coerce parse) s).

(** The key positions used by [drop_duplicates(subset=['query', 'page'])]. *)
Definition key_positions (cols : list string) : list nat :=
  subset_positions_from 0 ["query"; "page"] cols.

(** Scenario A: an exact duplicate row. *)
Definition scenario_a : DataFrame :=
  {| columns := ["query"; "page"; "clicks"; "impressions"; "ctr"; "position"];
     rows := [ [CStr "shoe"; CStr "p1"; CNum 150; CNum 12500;
                CNum (12 # 1000); CNum (32 # 10)];
               [CStr "shoe"; CStr "p1"; CNum 150; CNum 12500;
                CNum (12 # 1000); CNum (32 # 10)] ] |}.

(** The normal form of [ex_frame]. *)
Definition ex_norm : DataFrame :=
  {| columns := ["query"; "page"; "clicks"; "impressions"; "ctr"; "position"];
     rows := [ [CStr "shoe"; CStr "p1"; CNum 150; CNum 12500;
                CNum (12 # 1000); CNum (32 # 10)];
               [CStr "shoe"; CStr "p2"; CNum 0; CNum 500; CNum 0; CNum 15];
               [CStr "boot"; CStr "p3"; CNum 0; CNum 0; CNum 0; CNum 0] ] |}.

(** A clicks / impressions value: a non-negative integer. *)
Definition is_count (x : Q) : bool :=
  Qle_bool 0 x && Qeq_bool x (inject_Z (Qfloor x)).

(** Scenario C: a CTR column given in percent. *)
Definition scenario_c : DataFrame :=
  {| columns := ["query"; "page"; "clicks"; "impressions"; "ctr"; "position"];
     rows := [ [CStr "a"; CStr "p1"; CNum 12; CNum 1000; CNum (12 # 10); CNum 1];
               [CStr "b"; CStr "p2"; CNum 34; CNum 1000; CNum (34 # 10); CNum 2] ] |}.

Definition scenario_c_norm : DataFrame :=
  {| columns := ["query"; "page"; "clicks"; "impressions"; "ctr"; "position"];
     rows := [ [CStr "a"; CStr "p1"; CNum 12; CNum 1000; CNum (12 # 1000); CNum 1];
               [CStr "b"; CStr "p2"; CNum 34; CNum 1000; CNum (34 # 1000); CNum 2] ] |}.

(** A well-formed table with a negative click count, a CTR above 100
    and a negative position. *)
Definition out_of_range_frame : DataFrame :=
  {| columns := ["query"; "page"; "clicks"; "impressions"; "ctr"; "position"];
     rows := [ [CStr "shoe"; CStr "p1"; CNum (-5); CNum 10; CNum 250; CNum (-1)] ] |}.

Definition out_of_range_norm : DataFrame :=
  {| columns := ["query"; "page"; "clicks"; "impressions"; "ctr"; "position"];
     rows := [ [CStr "shoe"; CStr "p1"; CNum (-5); CNum 10; CNum (250 # 100);
                CNum (-1)] ] |}.

(** The number a raw cell is coerced to (NaN filled with 0). *)
Definition cell_value (parse : string -> option Q) (c : cell) : Q :=
  default 0%Q (coerce parse c).


(** A normalised table with one page of 5 clicks. *)
Definition low_traffic_table : DataFrame :=
  {| columns := ["query"; "page"; "clicks"; "impressions"; "ctr"; "position"];
     rows := [ [CStr "shoe"; CStr "p1"; CNum 5; CNum 100; CNum (5 # 100); CNum 1] ] |}.

(** [results[name]] when it is a frame. *)
Definition frame_at (results : gmap string value) (name : string)
  : option (list Group) :=
  match results !! name with
  | Some (VFrame gs) => Some gs
  | _ => None
  end.

(** The page aggregation of [ex_norm]. *)
Definition ex_pages : list Group :=
  [ {| g_key := CStr "p1"; g_clicks := 150; g_impressions := 12500;
       g_position := 32 # 10 |};
    {| g_key := CStr "p2"; g_clicks := 0; g_impressions := 500;
       g_position := 15 |};
    {| g_key := CStr "p3"; g_clicks := 0; g_impressions := 0;
       g_position := 0 |} ].

(** The header-only table: the six canonical columns and no row. *)
Definition empty_table : DataFrame :=
  {| columns := ["query"; "page"; "clicks"; "impressions"; "ctr"; "position"];
     rows := [] |}.

(** [("pct_" + key, (value / total) * 100)] *)
Definition pct_of (total : Z) (kv : string * num) : string * num :=
  ("pct_" +:+ fst kv, NFloat (num_Q (snd kv) / inject_Z total * 100)%Q).

(** The percentage of [part] among [total] groups. *)
Definition share (part total : nat) : Q :=
  (inject_Z (Z.of_nat part) / inject_Z (Z.of_nat total) * 100)%Q.

(** Number of columns carrying [label]. *)
Definition label_count (label : string) (cols : list string) : nat :=
  length (positions label cols).

(** A raw export whose CTR column is text such as "1.2%". *)
Definition text_ctr_frame : DataFrame :=
  {| columns := ["Query"; "Page"; "Clicks"; "Impressions"; "CTR"; "Position"];
     rows := [ [CStr "shoe"; CStr "p1"; CNum 12; CNum 1000; CStr "1.2%"; CNum 3];
               [CStr "boot"; CStr "p2"; CNum 34; CNum 1000; CStr "3.4%"; CNum 5] ] |}.

(** A raw export whose CTR column is empty. *)
Definition blank_ctr_frame : DataFrame :=
  {| columns := ["Query"; "Page"; "Clicks"; "Impressions"; "CTR"; "Position"];
     rows := [ [CStr "shoe"; CStr "p1"; CNum 12; CNum 1000; CNaN; CNum 3];
               [CStr "boot"; CStr "p2"; CNum 5; CNum 0; CNaN; CNum 5] ] |}.

(** The labels of the four columns that [prepare_data] rewrites. *)
Definition numeric_labels : list string :=
  ["clicks"; "impressions"; "position"; "ctr"].

(** A row seen by [groupby]: its key and its three aggregated fields. *)
Definition row_entry (ik ic ii ip : nat) (r : list cell) : entry :=
  (nth ik r CNaN,
   (cell_num (nth ic r CNaN),
    (cell_num (nth ii r CNaN), cell_num (nth ip r CNaN)))).

(** The twenty count entries of a classification, in source order. *)
Definition count_entries (plural : string) (stats : list stat)
  : list (string * num) :=
  presence_counts plural stats ++ threshold_counts plural stats.

(** The query aggregation of [ex_norm]. *)
Definition ex_queries : list Group :=
  [ {| g_key := CStr "boot"; g_clicks := 0; g_impressions := 0;
       g_position := 0 |};
    {| g_key := CStr "shoe"; g_clicks := 150; g_impressions := 13000;
       g_position := 182 # 20 |} ].

(** A raw export with two page-like columns. *)
Definition two_page_frame : DataFrame :=
  {| columns := ["Query"; "Landing Page"; "URL"; "Clicks"; "Impressions";
                 "CTR"; "Position"];
     rows := [ [CStr "shoe"; CStr "p1"; CStr "https://x/p1"; CNum 12;
                CNum 1000; CNum (12 # 1000); CNum 3] ] |}.

(** [results[name]] when it is an integer count. *)
Definition count_at (results : gmap string value) (name : string)
  : option Z :=
  match results !! name with
  | Some (VNum (NInt n)) => Some n
  | _ => None
  end.

(** [results[name]] when it is a float. *)
Definition float_at (results : gmap string value) (name : string)
  : option Q :=
  match results !! name with
  | Some (VNum (NFloat q)) => Some q
  | _ => None
  end.

(** The 64-bit bound of an int64 sum. *)
Definition int64_bound : Q := inject_Z (2 ^ 63).

(** The total of the absolute values of the column carrying [label]. *)
Definition magnitude (df : DataFrame) (label : string) : Q :=
  Qsum (map (fun c => Qabs (cell_num c)) (cells_of df label)).

(** Two records of 2^62 clicks on one page. *)
Definition overflow_table : DataFrame :=
  {| columns := ["query"; "page"; "clicks"; "impressions"; "ctr"; "position"];
     rows := [ [CStr "a"; CStr "p1"; CNum (inject_Z (2 ^ 62)); CNum 1;
                CNum 1; CNum 1];
               [CStr "b"; CStr "p1"; CNum (inject_Z (2 ^ 62)); CNum 1;
                CNum 1; CNum 1] ] |}.

(** * Properties *)

(** ** The column mapper *)

Lemma map_column_spec (col : string) : map_column col = spec_map_column col.
Proof.
  unfold map_column, first_match, spec_map_column.
  cbv -[contains].
  repeat (match goal with
          | |- context [contains ?k col] => destruct (contains k col)
          end; try reflexivity).
Qed.

Lemma rename_dict_fold (cols : list string) (d : gmap string string)
  (c : string) :
  foldl (fun d col =>
           match map_column col with
           | Some value => <[col := value]> d
           | None => d
           end) d cols !! c
  = match (if decide (c ∈ cols) then map_column c else None) with
    | Some v => Some v
    | None => d !! c
    end.
Proof.
  revert d; induction cols as [|a cols IH]; intros d; cbn [foldl].
  - rewrite decide_False by set_solver. reflexivity.
  - rewrite IH.
    destruct (decide (c ∈ cols)) as [Hin|Hout].
    + rewrite decide_True by (apply elem_of_cons; auto).
      destruct (map_column c) eqn:Hc; [reflexivity|].
      destruct (decide (a = c)) as [->|Hne]; [by rewrite Hc|].
      destruct (map_column a); [by rewrite lookup_insert_ne|reflexivity].
    + destruct (decide (a = c)) as [->|Hne].
      * rewrite decide_True by (apply elem_of_cons; auto).
        destruct (map_column c); [by rewrite lookup_insert_eq|reflexivity].
      * rewrite decide_False
          by (intros [?|?]%elem_of_cons; congruence).
        destruct (map_column a); [by rewrite lookup_insert_ne|reflexivity].
Qed.

Lemma renamed_columns_map (cols : list string) :
  renamed_columns cols
  = map (fun name => default (lower name) (map_column (lower name))) cols.
Proof.
  unfold renamed_columns, rename_dict.
  rewrite map_map. apply map_ext_in. intros name Hin.
  rewrite rename_dict_fold, lookup_empty.
  rewrite decide_True.
  - by destruct (map_column (lower name)).
  - apply list_elem_of_In, in_map, Hin.
Qed.

(** C8: every column label is lower-cased and given the first canonical
    field, in the documented order, one of whose synonyms occurs in it; a
    label matching no synonym keeps its lower-cased name, which is none
    of the six names the later steps look up.  "Landing Page" becomes
    [page] and "Avg. Pos" becomes [position]. *)
Theorem column_mapper_first_field (cols : list string) (name : string) :
  renamed_columns cols
  = map (fun n => default (lower n) (spec_map_column (lower n))) cols
  /\ map_column (lower name) = spec_map_column (lower name)
  /\ match spec_map_column (lower name) with
     | Some field => has_column field required_cols = true
     | None => has_column (lower name) required_cols = false
     end
  /\ renamed_columns ["Landing Page"] = ["page"]
  /\ renamed_columns ["Avg. Pos"] = ["position"].
Proof.
  split; [|split; [|split; [|split; reflexivity]]].
  - rewrite renamed_columns_map. apply map_ext. intros n.
    by rewrite map_column_spec.
  - apply map_column_spec.
  - generalize (lower name) as col. intros col.
    destruct (spec_map_column col) as [f|] eqn:Hf.
    + revert Hf. unfold spec_map_column. cbv -[contains].
      repeat (match goal with
              | |- context [contains ?k col] => destruct (contains k col)
              end; try (intros [= <-]; reflexivity)).
    + unfold has_column, required_cols. simpl.
      repeat match goal with
             | |- context [String.eqb col ?k] =>
                 destruct (String.eqb_spec col k) as [->|_];
                 [exfalso; revert Hf; vm_compute; discriminate|]; simpl
             end.
      reflexivity.
Qed.

Lemma prefix_app_l (a b s : string) :
  String.prefix (a +:+ b) s = true -> String.prefix a s = true.
Proof.
  revert s; induction a as [|c a IH]; intros s.
  - by destruct s.
  - destruct s as [|c' s]; simpl; [discriminate|].
    destruct (ascii_dec c c'); [apply IH|discriminate].
Qed.

Lemma contains_app_l (a b s : string) :
  contains (a +:+ b) s = true -> contains a s = true.
Proof.
  induction s as [|c s IH].
  - cbn [contains]. rewrite !orb_false_r. apply prefix_app_l.
  - cbn [contains]. rewrite !orb_true_iff. intros [H|H].
    + left. by apply prefix_app_l in H.
    + right. by apply IH.
Qed.

(** C10, as stated, fails: a label containing "url" is not always mapped
    to [page]. *)
Lemma url_label_mapped_to_query :
  contains "url" (lower "Query URL") = true
  /\ map_column (lower "Query URL") = Some "query"
  /\ map_column (lower "Query URL") <> Some "page".
Proof. vm_compute. repeat split; discriminate. Qed.

(** C10 (amended): a label whose lower-cased name contains "url" is mapped
    to [page], unless it also contains "query" or "keyword", in which case
    it is mapped to [query]; it is never mapped to [ctr].  The synonym
    "url ctr" is never the first match for any label, and a label is
    mapped to [ctr] exactly when it contains "ctr" and none of the eight
    synonyms listed before it. *)
Theorem url_labels_never_ctr (name col : string) :
  contains "url" (lower name) = true ->
  map_column (lower name)
  = Some (if contains "query" (lower name) || contains "keyword" (lower name)
          then "query" else "page")
  /\ map_column (lower name) <> Some "ctr"
  /\ first_match col <> Some ("url ctr", "ctr")
  /\ (map_column col = Some "ctr"
      <-> contains "ctr" col = true
          /\ forallb (fun k => negb (contains k col)) before_ctr = true).
Proof.
  generalize (lower name) as c. intros c Hurl. split; [|split; [|split]].
  - unfold map_column, first_match. cbv -[contains orb].
    rewrite Hurl.
    repeat (match goal with
            | |- context [contains ?k c] => destruct (contains k c)
            end; try reflexivity).
  - unfold map_column, first_match. cbv -[contains].
    rewrite Hurl.
    repeat (match goal with
            | |- context [contains ?k c] => destruct (contains k c)
            end; try discriminate).
  - assert (Hsub : contains "url ctr" col = true -> contains "url" col = true)
      by apply (contains_app_l "url" " ctr").
    unfold first_match. cbv -[contains].
    destruct (contains "url ctr" col) eqn:Huc.
    + rewrite (Hsub eq_refl).
      repeat (match goal with
              | |- context [if contains ?k col then _ else _] =>
                  destruct (contains k col)
              end; try discriminate).
    + repeat (match goal with
              | |- context [if contains ?k col then _ else _] =>
                  destruct (contains k col)
              end; try discriminate).
  - assert (Hsub : contains "url ctr" col = true -> contains "url" col = true)
      by apply (contains_app_l "url" " ctr").
    unfold map_column, first_match, before_ctr. cbv -[contains].
    destruct (contains "url ctr" col); [rewrite (Hsub eq_refl)|];
    repeat match goal with
           | |- context [contains ?k col] => destruct (contains k col)
           end;
      simpl; (split; [intros H; (discriminate H || (split; reflexivity))
                     | intros [? ?]; (discriminate || reflexivity)]).
Qed.

Lemma url_labels_never_ctr_witness :
  contains "url" (lower "URL CTR") = true
  /\ map_column (lower "URL CTR") = Some "page"
  /\ map_column (lower "URL CTR") <> Some "ctr".
Proof.
  split; [reflexivity|].
  destruct (url_labels_never_ctr "URL CTR" "ctr" eq_refl) as (H1 & H2 & _).
  split; [exact H1 | exact H2].
Defined.

(** ** The required-column check *)

Lemma raises_missing_bind {A B} (r : result A) (k : A -> result B) :
  raises_missing r = false ->
  (forall a, raises_missing (k a) = false) ->
  raises_missing (r ≫= k) = false.
Proof. destruct r as [a|e]; simpl; auto. Qed.

Lemma getitem_not_missing df label : raises_missing (getitem df label) = false.
Proof. unfold getitem. by repeat case_match. Qed.

Lemma to_numeric_not_missing parse sel :
  raises_missing (to_numeric parse sel) = false.
Proof. by destruct sel. Qed.

Lemma numeric_column_not_missing df label :
  raises_missing (numeric_column df label) = false.
Proof.
  unfold numeric_column. apply raises_missing_bind.
  - apply getitem_not_missing.
  - by intros [].
Qed.

Lemma convert_not_missing parse label df :
  raises_missing (convert parse label df) = false.
Proof.
  unfold convert.
  apply raises_missing_bind; [apply getitem_not_missing|intros sel].
  apply raises_missing_bind; [apply to_numeric_not_missing|done].
Qed.

Lemma fill_ctr_not_missing parse df :
  raises_missing (fill_ctr parse df) = false.
Proof.
  unfold fill_ctr. apply raises_missing_bind.
  - unfold ctr_not_provided. case_match; [done|].
    apply raises_missing_bind; [apply getitem_not_missing|by intros []].
  - intros absent. apply raises_missing_bind; [|done].
    destruct absent.
    + unfold derived_ctr.
      apply raises_missing_bind; [apply numeric_column_not_missing|intros ?].
      apply raises_missing_bind; [apply numeric_column_not_missing|done].
    + unfold supplied_ctr.
      apply raises_missing_bind; [apply getitem_not_missing|intros ?].
      apply raises_missing_bind; [apply to_numeric_not_missing|done].
Qed.

Lemma typed_frame_not_missing parse df :
  raises_missing (typed_frame parse df) = false.
Proof.
  unfold typed_frame.
  repeat (apply raises_missing_bind; [apply convert_not_missing|intros ?]).
  apply fill_ctr_not_missing.
Qed.

Lemma drop_duplicates_not_missing subset df :
  raises_missing (drop_duplicates subset df) = false.
Proof. unfold drop_duplicates. by case_match. Qed.

Lemma missing_cols_nil (cols : list string) :
  missing_cols cols = []
  <-> forall c, In c required_cols -> has_column c cols = true.
Proof.
  unfold missing_cols. split.
  - intros Hnil c Hc.
    destruct (has_column c cols) eqn:Hhas; [reflexivity|].
    assert (Hin : In c (filter (fun c => negb (has_column c cols)) required_cols)).
    { apply list_elem_of_In, list_elem_of_filter. split.
      - by rewrite Hhas.
      - by apply list_elem_of_In. }
    rewrite Hnil in Hin. destruct Hin.
  - intros Hall.
    induction required_cols as [|c l IH]; [reflexivity|].
    rewrite filter_cons. rewrite (Hall c) by (left; reflexivity). simpl.
    apply IH. intros c' Hc'. apply Hall. by right.
Qed.

(** [prepare_data] raises the missing-columns error exactly when some
    canonical column is absent after renaming. *)
Lemma prepare_data_missing_iff parse (df : DataFrame) :
  raises_missing (prepare_data parse df) = true
  <-> missing_cols (renamed_columns (columns df)) <> [].
Proof.
  unfold prepare_data. cbn [renamed columns].
  destruct (missing_cols (renamed_columns (columns df))) as [|c l] eqn:Hm.
  - split; [|congruence].
    rewrite raises_missing_bind; [discriminate|apply typed_frame_not_missing|].
    intros ?. apply drop_duplicates_not_missing.
  - split; [discriminate|reflexivity].
Qed.

(** C1, as stated, fails: a table with query, page, clicks, impressions
    and ctr, lacking only position, is rejected. *)
Lemma missing_position_rejected :
  forallb (fun c => has_column c (renamed_columns (columns no_position_frame)))
          ["query"; "page"; "clicks"; "impressions"] = true
  /\ prepare_data no_parse no_position_frame
     = Err (MissingColumns ["position"]).
Proof. split; reflexivity. Qed.

(** C1 (amended): normalisation fails with the missing-columns error
    whenever, after column mapping, one of query, page, clicks,
    impressions or position is absent, and it does not fail with that
    error when all six canonical columns are present. *)
Theorem schema_check (parse : string -> option Q) (df : DataFrame) :
  let cols := renamed_columns (columns df) in
  ((exists c, In c needed_cols /\ has_column c cols = false) ->
   exists m, prepare_data parse df = Err (MissingColumns m)
             /\ m = missing_cols cols /\ m <> [])
  /\ ((forall c, In c required_cols -> has_column c cols = true) ->
      raises_missing (prepare_data parse df) = false).
Proof.
  intros cols. split.
  - intros (c & Hc & Hhas).
    assert (Hne : missing_cols cols <> []).
    { intros Hnil. rewrite missing_cols_nil in Hnil.
      rewrite Hnil in Hhas; [discriminate|].
      unfold needed_cols, required_cols in *. simpl in *. tauto. }
    exists (missing_cols cols). split; [|by split].
    unfold prepare_data. cbn [renamed columns]. fold cols.
    by destruct (missing_cols cols).
  - intros Hall. apply missing_cols_nil in Hall.
    destruct (raises_missing (prepare_data parse df)) eqn:Hr; [|reflexivity].
    apply prepare_data_missing_iff in Hr. by destruct Hr.
Qed.

Lemma schema_check_witness :
  (exists m, prepare_data no_parse no_position_frame = Err (MissingColumns m))
  /\ raises_missing (prepare_data no_parse ex_frame) = false.
Proof.
  split.
  - destruct (proj1 (schema_check no_parse no_position_frame)) as (m & Hm & _).
    + exists "position". split; [simpl; tauto | reflexivity].
    + by exists m.
  - apply (proj2 (schema_check no_parse ex_frame)).
    intros c Hc. simpl in Hc.
    repeat (destruct Hc as [<-|Hc]; [reflexivity|]). destruct Hc.
Defined.

(** ** Column access and assignment *)

Lemma nth_set_nth_same (i : nat) (v : cell) (r : list cell) :
  nth i (set_nth i v r) CNaN = v.
Proof.
  revert r; induction i as [|i IH]; intros [|x r]; simpl; auto.
Qed.

Lemma nth_set_nth_other (i j : nat) (v : cell) (r : list cell) :
  i <> j -> nth j (set_nth i v r) CNaN = nth j r CNaN.
Proof.
  revert j r; induction i as [|i IH]; intros [|j] [|x r] Hne; simpl;
    try congruence; try reflexivity.
  - by destruct j.
  - rewrite IH by congruence. by destruct j.
  - apply IH. congruence.
Qed.

Lemma length_set_column (i : nat) (vals : list cell) (rs : list (list cell)) :
  length vals = length rs -> length (set_column i vals rs) = length rs.
Proof.
  unfold set_column. intros H. rewrite length_zip_with. lia.
Qed.

Lemma column_set_column_same i vals rs :
  length vals = length rs -> column i (set_column i vals rs) = vals.
Proof.
  unfold column, set_column.
  revert rs; induction vals as [|v vals IH]; intros [|r rs] Hlen;
    simpl in *; try discriminate; [reflexivity|].
  rewrite nth_set_nth_same. f_equal. apply IH. lia.
Qed.

Lemma column_set_column_other i j vals rs :
  length vals = length rs -> i <> j ->
  column j (set_column i vals rs) = column j rs.
Proof.
  unfold column, set_column.
  revert rs; induction vals as [|v vals IH]; intros [|r rs] Hlen Hne;
    simpl in *; try discriminate; [reflexivity|].
  rewrite nth_set_nth_other by done. f_equal. apply IH; [lia|done].
Qed.

Lemma length_column i rs : length (column i rs) = length rs.
Proof. apply length_map. Qed.

Lemma positions_from_spec (i j : nat) (label : string) (cols : list string) :
  In j (positions_from i label cols)
  <-> (i <= j)%nat /\ cols !! (j - i)%nat = Some label.
Proof.
  revert i; induction cols as [|c cols IH]; intros i; simpl.
  - split; [tauto|]. intros [_ H]. discriminate.
  - destruct (String.eqb_spec c label) as [->|Hne]; simpl; rewrite IH.
    + split.
      * intros [<-|[Hle Hl]].
        -- split; [lia|]. by replace (i - i)%nat with 0%nat by lia.
        -- split; [lia|].
           destruct (j - i)%nat as [|k] eqn:Hk; [lia|].
           simpl. by replace k with (j - S i)%nat by lia.
      * intros [Hle Hl].
        destruct (j - i)%nat as [|k] eqn:Hk; [left; lia|right].
        split; [lia|]. simpl in Hl. by replace (j - S i)%nat with k by lia.
    + split.
      * intros [Hle Hl]. split; [lia|].
        destruct (j - i)%nat as [|k] eqn:Hk; [lia|].
        simpl. by replace k with (j - S i)%nat by lia.
      * intros [Hle Hl].
        destruct (j - i)%nat as [|k] eqn:Hk.
        -- simpl in Hl. congruence.
        -- split; [lia|]. simpl in Hl. by replace (j - S i)%nat with k by lia.
Qed.

Lemma positions_spec (j : nat) (label : string) (cols : list string) :
  In j (positions label cols) <-> cols !! j = Some label.
Proof.
  unfold positions. rewrite positions_from_spec.
  replace (j - 0)%nat with j by lia. split; [tauto|]. split; [lia|done].
Qed.

Lemma positions_disjoint (l1 l2 : string) (cols : list string) (i j : nat) :
  l1 <> l2 -> In i (positions l1 cols) -> In j (positions l2 cols) -> i <> j.
Proof.
  rewrite !positions_spec. intros Hne H1 H2 ->. congruence.
Qed.

Lemma has_column_positions (label : string) (cols : list string) :
  has_column label cols = false <-> positions label cols = [].
Proof.
  unfold has_column, positions. generalize 0%nat.
  induction cols as [|c cols IH]; intros n; simpl; [tauto|].
  rewrite (String.eqb_sym label c).
  destruct (String.eqb c label); simpl; [split; discriminate|apply IH].
Qed.

Lemma setitem_unique df label vals i :
  positions label (columns df) = [i] ->
  setitem df label vals
  = {| columns := columns df; rows := set_column i vals (rows df) |}.
Proof. unfold setitem. by intros ->. Qed.

Lemma map_cell_num_CNum (xs : list Q) : map cell_num (map CNum xs) = xs.
Proof. rewrite map_map. simpl. apply map_id. Qed.

Lemma length_coerced parse s : length (map CNum (coerced parse s)) = length s.
Proof. unfold coerced, fillna0. by rewrite !length_map. Qed.

(** ** The stages of [prepare_data] *)

Lemma convert_inv parse label df df' :
  convert parse label df = Ok df' ->
  exists i,
    positions label (columns df) = [i]
    /\ df' = {| columns := columns df;
                rows := set_column i
                          (map CNum (coerced parse (column i (rows df))))
                          (rows df) |}.
Proof.
  unfold convert, getitem.
  destruct (positions label (columns df)) as [|i [|j ps]] eqn:Hp;
    simpl; try discriminate.
  intros [= <-]. exists i. split; [reflexivity|].
  by rewrite (setitem_unique _ _ _ i).
Qed.

Lemma typed_frame_inv parse df pre :
  has_column "ctr" (columns df) = true ->
  typed_frame parse df = Ok pre ->
  exists ic ii ip it,
    positions "clicks" (columns df) = [ic]
    /\ positions "impressions" (columns df) = [ii]
    /\ positions "position" (columns df) = [ip]
    /\ positions "ctr" (columns df) = [it]
    /\ columns pre = columns df
    /\ rows pre
       = let C := coerced parse (column ic (rows df)) in
         let I := coerced parse (column ii (rows df)) in
         let P := coerced parse (column ip (rows df)) in
         let T := if forallb isna (column it (rows df))
                  then zip_with guarded_div C I
                  else rescale_pct (coerced parse (column it (rows df))) in
         set_column it (map CNum T)
           (set_column ip (map CNum P)
              (set_column ii (map CNum I)
                 (set_column ic (map CNum C) (rows df)))).
Proof.
  intros Hctr. unfold typed_frame.
  destruct (convert parse "clicks" df) as [df1|] eqn:H1; [|discriminate].
  apply convert_inv in H1 as (ic & Hic & ->). cbn [mbind result_bind bind].
  destruct (convert parse "impressions" _) as [df2|] eqn:H2; [|discriminate].
  apply convert_inv in H2 as (ii & Hii & ->). cbn [mbind result_bind bind].
  destruct (convert parse "position" _) as [df3|] eqn:H3; [|discriminate].
  apply convert_inv in H3 as (ip & Hip & ->). cbn [mbind result_bind bind].
  cbn [columns rows] in *.
  set (rs := rows df) in *.
  set (C := coerced parse (column ic rs)) in *.
  assert (HlC : length (map CNum C) = length rs)
    by (unfold C; by rewrite length_coerced, length_column).
  assert (Hl1 : length (set_column ic (map CNum C) rs) = length rs)
    by by apply length_set_column.
  assert (Hci : ic <> ii).
  { apply (positions_disjoint "clicks" "impressions" (columns df));
      [done | rewrite Hic | rewrite Hii]; by left. }
  assert (Hcp : ic <> ip).
  { apply (positions_disjoint "clicks" "position" (columns df));
      [done | rewrite Hic | rewrite Hip]; by left. }
  assert (Hip' : ii <> ip).
  { apply (positions_disjoint "impressions" "position" (columns df));
      [done | rewrite Hii | rewrite Hip]; by left. }
  rewrite (column_set_column_other ic ii) by done.
  set (I := coerced parse (column ii rs)) in *.
  assert (HlI : length (map CNum I) = length rs)
    by (unfold I; by rewrite length_coerced, length_column).
  assert (Hl2 : length (set_column ii (map CNum I)
                          (set_column ic (map CNum C) rs)) = length rs)
    by (rewrite length_set_column; congruence).
  rewrite (column_set_column_other ii ip), (column_set_column_other ic ip)
    by (done || congruence).
  set (P := coerced parse (column ip rs)) in *.
  assert (HlP : length (map CNum P) = length rs)
    by (unfold P; by rewrite length_coerced, length_column).
  unfold fill_ctr, ctr_not_provided. cbn [columns rows].
  rewrite Hctr. cbn [negb].
  unfold getitem at 1. cbn [columns rows].
  destruct (positions "ctr" (columns df)) as [|it [|j ps]] eqn:Hit.
  - apply has_column_positions in Hit. congruence.
  - assert (Hct : ic <> it).
    { apply (positions_disjoint "clicks" "ctr" (columns df));
        [done | rewrite Hic | rewrite Hit]; by left. }
    assert (Hit' : ii <> it).
    { apply (positions_disjoint "impressions" "ctr" (columns df));
        [done | rewrite Hii | rewrite Hit]; by left. }
    assert (Hpt : ip <> it).
    { apply (positions_disjoint "position" "ctr" (columns df));
        [done | rewrite Hip | rewrite Hit]; by left. }
    rewrite (column_set_column_other ip it), (column_set_column_other ii it),
      (column_set_column_other ic it) by (done || congruence).
    cbn [mbind result_bind bind].
    intros Hpre. exists ic, ii, ip, it.
    repeat (split; [reflexivity|]).
    destruct (forallb isna (column it rs)) eqn:Hna.
    + unfold derived_ctr, numeric_column, getitem in Hpre.
      cbn [columns rows] in Hpre. rewrite Hic, Hii in Hpre.
      cbn [mbind result_bind bind] in Hpre.
      rewrite (column_set_column_other ip ic), (column_set_column_other ii ic),
        (column_set_column_same ic), (column_set_column_other ip ii),
        (column_set_column_same ii), !map_cell_num_CNum in Hpre
        by (done || congruence).
      rewrite (setitem_unique _ _ _ it) in Hpre by done.
      by injection Hpre as <-.
    + unfold supplied_ctr, getitem in Hpre.
      cbn [columns rows] in Hpre. rewrite Hit in Hpre.
      cbn [mbind result_bind bind to_numeric] in Hpre.
      rewrite (column_set_column_other ip it), (column_set_column_other ii it),
        (column_set_column_other ic it) in Hpre by (done || congruence).
      rewrite (setitem_unique _ _ _ it) in Hpre by done.
      by injection Hpre as <-.
  - cbn [mbind result_bind bind]. discriminate.
Qed.

Lemma prepare_data_inv parse df out :
  prepare_data parse df = Ok out ->
  exists pre,
    has_column "ctr" (renamed_columns (columns df)) = true
    /\ typed_frame parse (renamed df) = Ok pre
    /\ drop_duplicates ["query"; "page"] pre = Ok out
    /\ columns out = columns pre
    /\ rows out = keep_first (key_positions (columns pre)) [] (rows pre).
Proof.
  unfold prepare_data. cbn [renamed columns].
  destruct (missing_cols (renamed_columns (columns df))) eqn:Hm; [|discriminate].
  pose proof (proj1 (missing_cols_nil _) Hm "ctr") as Hctr.
  destruct (typed_frame parse (renamed df)) as [pre|] eqn:Hpre; [|discriminate].
  cbn [mbind result_bind bind]. intros Hout. exists pre.
  split; [apply Hctr; simpl; tauto|]. split; [reflexivity|].
  split; [exact Hout|].
  unfold drop_duplicates in Hout.
  destruct (filter _ _); [|discriminate].
  by injection Hout as <-.
Qed.

(** ** Key equality *)

Lemma cell_eqb_sym (a b : cell) : cell_eqb a b = cell_eqb b a.
Proof.
  destruct a, b; simpl; try reflexivity.
  - apply String.eqb_sym.
  - apply eq_true_iff_eq. rewrite !Qeq_bool_iff. split; intros H; by symmetry.
Qed.

Lemma key_eqb_sym (k1 k2 : list cell) : key_eqb k1 k2 = key_eqb k2 k1.
Proof.
  revert k2; induction k1 as [|a k1 IH]; intros [|b k2]; simpl; try reflexivity.
  by rewrite cell_eqb_sym, IH.
Qed.

(** ** De-duplication *)

Lemma keep_first_in ps earlier rs r :
  In r (keep_first ps earlier rs) ->
  In r rs /\ existsb (key_eqb (row_key ps r)) earlier = false.
Proof.
  revert earlier; induction rs as [|r0 t IH]; intros earlier; simpl; [tauto|].
  destruct (existsb (key_eqb (row_key ps r0)) earlier) eqn:He.
  - intros [Hin Hex]%IH. split; [by right|].
    simpl in Hex. by apply orb_false_elim in Hex as [_ ?].
  - intros [<-|[Hin Hex]%IH]; [by split; [left|]|].
    split; [by right|].
    simpl in Hex. by apply orb_false_elim in Hex as [_ ?].
Qed.

Lemma keep_first_distinct ps earlier rs :
  ForallOrdPairs
    (fun r1 r2 => key_eqb (row_key ps r2) (row_key ps r1) = false)
    (keep_first ps earlier rs).
Proof.
  revert earlier; induction rs as [|r0 t IH]; intros earlier; simpl;
    [constructor|].
  destruct (existsb (key_eqb (row_key ps r0)) earlier); [apply IH|].
  constructor; [|apply IH].
  apply List.Forall_forall. intros r [_ Hex]%keep_first_in.
  simpl in Hex. by apply orb_false_elim in Hex as [? _].
Qed.

Lemma keep_first_indices ps earlier rs :
  exists idx : list nat,
    keep_first ps earlier rs = map (fun i => nth i rs []) idx
    /\ StronglySorted lt idx
    /\ forall i,
         In i idx
         <-> (i < length rs)%nat
             /\ existsb (key_eqb (row_key ps (nth i rs []))) earlier = false
             /\ forall j, (j < i)%nat ->
                  key_eqb (row_key ps (nth i rs []))
                          (row_key ps (nth j rs [])) = false.
Proof.
  revert earlier; induction rs as [|r t IH]; intros earlier.
  - exists []. simpl. split; [reflexivity|]. split; [constructor|].
    intros i. split; [tauto|]. intros [H _]. lia.
  - destruct (IH (row_key ps r :: earlier)) as (idx & Heq & Hsort & Hidx).
    assert (Hshift :
      forall i,
        In (S i) (map S idx)
        <-> (S i < length (r :: t))%nat
            /\ existsb (key_eqb (row_key ps (nth (S i) (r :: t) []))) earlier
               = false
            /\ forall j, (j < S i)%nat ->
                 key_eqb (row_key ps (nth (S i) (r :: t) []))
                         (row_key ps (nth j (r :: t) [])) = false).
    { intros i. rewrite in_map_iff. split.
      - intros (i' & [= ->] & Hin). apply Hidx in Hin as (Hlt & Hex & Hj).
        simpl in Hex. apply orb_false_elim in Hex as [Hr Hex].
        split; [simpl; lia|]. split; [exact Hex|].
        intros [|j] Hjlt; [exact Hr|]. apply Hj. lia.
      - intros (Hlt & Hex & Hj). exists i. split; [reflexivity|].
        simpl in Hex, Hlt.
        apply Hidx. split; [lia|]. split.
        + simpl. rewrite Hex, orb_false_r. apply (Hj 0%nat). lia.
        + intros j Hjlt. apply (Hj (S j)). lia. }
    assert (Hsort' : StronglySorted lt (map S idx)).
    { clear -Hsort. induction Hsort as [|a l Hs IHs Hall]; simpl;
        constructor; [exact IHs|].
      rewrite List.Forall_forall in *. intros x (y & <- & Hy)%in_map_iff.
      apply Hall in Hy. lia. }
    simpl.
    destruct (existsb (key_eqb (row_key ps r)) earlier) eqn:He.
    + exists (map S idx). rewrite Heq, map_map. split; [reflexivity|].
      split; [exact Hsort'|].
      intros [|i]; [|apply Hshift].
      split.
      * intros (y & Hy & _)%in_map_iff. discriminate.
      * intros (_ & Hex & _). simpl in Hex. congruence.
    + exists (0%nat :: map S idx). simpl. rewrite Heq, map_map.
      split; [reflexivity|]. split.
      * constructor; [exact Hsort'|].
        apply List.Forall_forall. intros x (y & <- & _)%in_map_iff. lia.
      * intros [|i].
        -- split; [|by left]. intros _. split; [lia|]. split; [exact He|].
           intros j Hj. lia.
        -- rewrite <- Hshift. split; [|by right].
           intros [Hz|Hin]; [discriminate|exact Hin].
Qed.

Lemma subset_positions_from_spec (i j : nat) (subset cols : list string) :
  In j (subset_positions_from i subset cols)
  <-> (i <= j)%nat
      /\ exists l, cols !! (j - i)%nat = Some l
                   /\ existsb (String.eqb l) subset = true.
Proof.
  revert i; induction cols as [|c cols IH]; intros i; simpl.
  - split; [tauto|]. intros (_ & l & H & _). discriminate.
  - assert (Hstep : In j (subset_positions_from (S i) subset cols)
                    <-> (i < j)%nat
                        /\ exists l, (c :: cols) !! (j - i)%nat = Some l
                                     /\ existsb (String.eqb l) subset = true).
    { rewrite IH. split.
      - intros (Hle & l & Hl & Hs). split; [lia|]. exists l. split; [|done].
        destruct (j - i)%nat as [|k] eqn:Hk; [lia|].
        simpl. by replace k with (j - S i)%nat by lia.
      - intros (Hlt & l & Hl & Hs). split; [lia|]. exists l. split; [|done].
        destruct (j - i)%nat as [|k] eqn:Hk; [lia|].
        simpl in Hl. by replace (j - S i)%nat with k by lia. }
    destruct (existsb (String.eqb c) subset) eqn:Hc; simpl; rewrite Hstep.
    + split.
      * intros [<-|(Hlt & Hl)].
        -- split; [lia|]. exists c.
           by replace (i - i)%nat with 0%nat by lia.
        -- split; [lia|done].
      * intros (Hle & l & Hl & Hs).
        destruct (decide (i = j)) as [->|Hne]; [by left|right].
        split; [lia|]. by exists l.
    + split.
      * intros (Hlt & Hl). split; [lia|done].
      * intros (Hle & l & Hl & Hs).
        destruct (decide (i = j)) as [->|Hne].
        -- replace (j - j)%nat with 0%nat in Hl by lia.
           simpl in Hl. congruence.
        -- split; [lia|]. by exists l.
Qed.

Lemma key_position_label (cols : list string) (j : nat) :
  In j (key_positions cols) ->
  cols !! j = Some "query" \/ cols !! j = Some "page".
Proof.
  unfold key_positions. rewrite subset_positions_from_spec.
  replace (j - 0)%nat with j by lia.
  intros (_ & l & Hl & Hs). simpl in Hs. rewrite orb_false_r in Hs.
  apply orb_true_iff in Hs as [Hs|Hs]; apply String.eqb_eq in Hs; subst l; auto.
Qed.

Lemma not_key_position (cols : list string) (label : string) (i : nat) :
  label <> "query" -> label <> "page" ->
  positions label cols = [i] -> ~ In i (key_positions cols).
Proof.
  intros Hq Hp Hpos Hin.
  assert (Hi : cols !! i = Some label).
  { apply positions_spec. rewrite Hpos. by left. }
  apply key_position_label in Hin as [H|H]; congruence.
Qed.

Lemma row_key_set_nth ps i v r :
  ~ In i ps -> row_key ps (set_nth i v r) = row_key ps r.
Proof.
  intros Hni. unfold row_key. apply map_ext_in. intros j Hj.
  apply nth_set_nth_other. intros ->. by apply Hni.
Qed.

Lemma keys_set_column ps i vals rs :
  ~ In i ps -> length vals = length rs ->
  map (row_key ps) (set_column i vals rs) = map (row_key ps) rs.
Proof.
  intros Hni. unfold set_column.
  revert rs; induction vals as [|v vals IH]; intros [|r rs] Hlen;
    simpl in *; try discriminate; [reflexivity|].
  rewrite row_key_set_nth by done. f_equal. apply IH. lia.
Qed.

Lemma ForallOrdPairs_lookup {A} (R : A -> A -> Prop) (l : list A) :
  ForallOrdPairs R l ->
  forall i j x y, (i < j)%nat -> l !! i = Some x -> l !! j = Some y -> R x y.
Proof.
  induction 1 as [|a l Hall Hrest IH]; intros i j x y Hlt Hi Hj.
  - discriminate.
  - destruct j as [|j]; [lia|]. simpl in Hj. destruct i as [|i].
    + injection Hi as <-. rewrite List.Forall_forall in Hall.
      apply Hall. eapply list_elem_of_In, list_elem_of_lookup_2, Hj.
    + simpl in Hi. apply (IH i j); [lia|done|done].
Qed.

(** The typed frame has the input's keys, row by row. *)
Lemma typed_frame_keys parse df pre :
  has_column "ctr" (columns df) = true ->
  typed_frame parse df = Ok pre ->
  columns pre = columns df
  /\ map (row_key (key_positions (columns df))) (rows pre)
     = map (row_key (key_positions (columns df))) (rows df).
Proof.
  intros Hctr Hpre.
  destruct (typed_frame_inv _ _ _ Hctr Hpre)
    as (ic & ii & ip & it & Hic & Hii & Hip & Hit & Hcols & Hrows).
  split; [exact Hcols|]. rewrite Hrows. cbv zeta.
  set (rs := rows df).
  assert (HlC : length (map CNum (coerced parse (column ic rs))) = length rs)
    by by rewrite length_coerced, length_column.
  assert (HlI : length (map CNum (coerced parse (column ii rs))) = length rs)
    by by rewrite length_coerced, length_column.
  assert (HlP : length (map CNum (coerced parse (column ip rs))) = length rs)
    by by rewrite length_coerced, length_column.
  assert (Hl1 := length_set_column ic _ _ HlC).
  assert (Hl2 := length_set_column ii _ _ (eq_trans HlI (eq_sym Hl1))).
  rewrite Hl1 in Hl2.
  assert (Hl3 := length_set_column ip _ _ (eq_trans HlP (eq_sym Hl2))).
  rewrite Hl2 in Hl3.
  rewrite !keys_set_column; try reflexivity;
    try (eapply not_key_position; [| |eassumption]; discriminate);
    try congruence.
  rewrite Hl3, length_map.
  destruct (forallb isna (column it rs)).
  - rewrite length_zip_with. unfold coerced, fillna0.
    rewrite !length_map, !length_column. lia.
  - unfold rescale_pct.
    destruct (exceeds_one _); unfold coerced, fillna0;
      by rewrite ?length_map, ?length_column.
Qed.

(** C7: the normalised table holds no two records with the same
    (query, page) key; the records kept are, in input order, exactly the
    rows whose key does not occur in an earlier row.  Two identical rows
    normalise to one. *)
Theorem dedup_keeps_first_occurrence (parse : string -> option Q)
  (df out : DataFrame) :
  prepare_data parse df = Ok out ->
  let key := row_key (key_positions (renamed_columns (columns df))) in
  (forall i j ri rj,
      rows out !! i = Some ri -> rows out !! j = Some rj -> i <> j ->
      key_eqb (key ri) (key rj) = false)
  /\ (exists pre idx,
         typed_frame parse (renamed df) = Ok pre
         /\ map key (rows pre) = map key (rows df)
         /\ rows out = map (fun i => nth i (rows pre) []) idx
         /\ StronglySorted lt idx
         /\ forall i,
              In i idx
              <-> (i < length (rows df))%nat
                  /\ forall j, (j < i)%nat ->
                       key_eqb (key (nth i (rows df) []))
                               (key (nth j (rows df) [])) = false)
  /\ prepare_data parse scenario_a
     = Ok {| columns := columns scenario_a;
             rows := [ [CStr "shoe"; CStr "p1"; CNum 150; CNum 12500;
                        CNum (12 # 1000); CNum (32 # 10)] ] |}.
Proof.
  intros Hout key.
  destruct (prepare_data_inv _ _ _ Hout)
    as (pre & Hctr & Hpre & _ & Hcols & Hrows).
  destruct (typed_frame_keys parse (renamed df) pre Hctr Hpre) as [Hc Hkeys].
  cbn [renamed columns rows] in Hc, Hkeys. rewrite Hc in Hrows.
  fold key in Hkeys.
  split; [|split].
  - intros i j ri rj Hi Hj Hne.
    pose proof (keep_first_distinct
                  (key_positions (renamed_columns (columns df))) []
                  (rows pre)) as Hd.
    rewrite <- Hrows in Hd.
    destruct (decide (i < j)%nat) as [Hlt|Hge].
    + rewrite key_eqb_sym.
      apply (ForallOrdPairs_lookup _ _ Hd i j ri rj Hlt Hi Hj).
    + apply (ForallOrdPairs_lookup _ _ Hd j i rj ri); [lia|done|done].
  - destruct (keep_first_indices
                (key_positions (renamed_columns (columns df))) []
                (rows pre)) as (idx & Heq & Hsort & Hidx).
    exists pre, idx. split; [exact Hpre|]. split; [exact Hkeys|].
    split; [by rewrite Hrows|]. split; [exact Hsort|].
    assert (Hlen : length (rows pre) = length (rows df)).
    { rewrite <- (length_map key (rows pre)), Hkeys. apply length_map. }
    assert (Hnth : forall i, key (nth i (rows pre) []) = key (nth i (rows df) [])).
    { intros i.
      rewrite <- (map_nth key (rows pre)), <- (map_nth key (rows df)).
      by rewrite Hkeys. }
    intros i. rewrite Hidx, Hlen. fold key. simpl.
    split.
    + intros (Hlt & _ & Hj). split; [exact Hlt|].
      intros j Hjlt. rewrite <- !Hnth. by apply Hj.
    + intros (Hlt & Hj). split; [exact Hlt|]. split; [reflexivity|].
      intros j Hjlt. rewrite !Hnth. by apply Hj.
  - vm_compute. reflexivity.
Qed.

Lemma ex_frame_normalised : prepare_data no_parse ex_frame = Ok ex_norm.
Proof. vm_compute. reflexivity. Qed.

Lemma dedup_keeps_first_occurrence_witness :
  prepare_data no_parse ex_frame = Ok ex_norm
  /\ forall i j ri rj,
       rows ex_norm !! i = Some ri -> rows ex_norm !! j = Some rj -> i <> j ->
       key_eqb (row_key (key_positions (renamed_columns (columns ex_frame))) ri)
               (row_key (key_positions (renamed_columns (columns ex_frame))) rj)
       = false.
Proof.
  split; [exact ex_frame_normalised|].
  exact (proj1 (dedup_keeps_first_occurrence no_parse ex_frame ex_norm
                  ex_frame_normalised)).
Defined.

(** ** The four numeric columns of the typed frame *)

Lemma cells_of_unique df label i :
  positions label (columns df) = [i] ->
  cells_of df label = column i (rows df).
Proof. unfold cells_of, getitem. by intros ->. Qed.

Lemma typed_frame_columns parse df pre :
  has_column "ctr" (columns df) = true ->
  typed_frame parse df = Ok pre ->
  cells_of pre "clicks" = map CNum (coerced parse (cells_of df "clicks"))
  /\ cells_of pre "impressions"
     = map CNum (coerced parse (cells_of df "impressions"))
  /\ cells_of pre "position"
     = map CNum (coerced parse (cells_of df "position"))
  /\ cells_of pre "ctr"
     = map CNum
         (if forallb isna (cells_of df "ctr")
          then zip_with guarded_div
                 (coerced parse (cells_of df "clicks"))
                 (coerced parse (cells_of df "impressions"))
          else rescale_pct (coerced parse (cells_of df "ctr")))
  /\ length (cells_of df "ctr") = length (rows df).
Proof.
  intros Hctr Hpre.
  destruct (typed_frame_inv _ _ _ Hctr Hpre)
    as (ic & ii & ip & it & Hic & Hii & Hip & Hit & Hcols & Hrows).
  rewrite (cells_of_unique df _ ic), (cells_of_unique df _ ii),
    (cells_of_unique df _ ip), (cells_of_unique df _ it) by done.
  rewrite <- Hcols in Hic, Hii, Hip, Hit.
  rewrite (cells_of_unique pre _ ic), (cells_of_unique pre _ ii),
    (cells_of_unique pre _ ip), (cells_of_unique pre _ it) by done.
  rewrite Hcols in Hic, Hii, Hip, Hit.
  rewrite Hrows. cbv zeta. set (rs := rows df).
  assert (Hci : ic <> ii).
  { apply (positions_disjoint "clicks" "impressions" (columns df));
      [done | rewrite Hic | rewrite Hii]; by left. }
  assert (Hcp : ic <> ip).
  { apply (positions_disjoint "clicks" "position" (columns df));
      [done | rewrite Hic | rewrite Hip]; by left. }
  assert (Hct : ic <> it).
  { apply (positions_disjoint "clicks" "ctr" (columns df));
      [done | rewrite Hic | rewrite Hit]; by left. }
  assert (Hip' : ii <> ip).
  { apply (positions_disjoint "impressions" "position" (columns df));
      [done | rewrite Hii | rewrite Hip]; by left. }
  assert (Hit' : ii <> it).
  { apply (positions_disjoint "impressions" "ctr" (columns df));
      [done | rewrite Hii | rewrite Hit]; by left. }
  assert (Hpt : ip <> it).
  { apply (positions_disjoint "position" "ctr" (columns df));
      [done | rewrite Hip | rewrite Hit]; by left. }
  assert (HlC : length (map CNum (coerced parse (column ic rs))) = length rs)
    by by rewrite length_coerced, length_column.
  assert (HlI : length (map CNum (coerced parse (column ii rs))) = length rs)
    by by rewrite length_coerced, length_column.
  assert (HlP : length (map CNum (coerced parse (column ip rs))) = length rs)
    by by rewrite length_coerced, length_column.
  assert (Hl1 := length_set_column ic _ _ HlC).
  assert (Hl2 := length_set_column ii _ _ (eq_trans HlI (eq_sym Hl1))).
  rewrite Hl1 in Hl2.
  assert (Hl3 := length_set_column ip _ _ (eq_trans HlP (eq_sym Hl2))).
  rewrite Hl2 in Hl3.
  match goal with
  | |- context [set_column it (map CNum ?T) _] =>
      assert (HlT : length (map CNum T) = length rs)
  end.
  { rewrite length_map. destruct (forallb isna (column it rs)).
    - rewrite length_zip_with. unfold coerced, fillna0.
      rewrite !length_map, !length_column. lia.
    - unfold rescale_pct.
      destruct (exceeds_one _); unfold coerced, fillna0;
        by rewrite ?length_map, ?length_column. }
  repeat split.
  - rewrite (column_set_column_other it ic), (column_set_column_other ip ic),
      (column_set_column_other ii ic), (column_set_column_same ic)
      by (done || congruence). reflexivity.
  - rewrite (column_set_column_other it ii), (column_set_column_other ip ii),
      (column_set_column_same ii) by (done || congruence). reflexivity.
  - rewrite (column_set_column_other it ip), (column_set_column_same ip)
      by (done || congruence). reflexivity.
  - rewrite (column_set_column_same it) by congruence. reflexivity.
  - apply length_column.
Qed.

Lemma cells_of_keep_first (pre out : DataFrame) (label : string) :
  columns out = columns pre ->
  rows out = keep_first (key_positions (columns pre)) [] (rows pre) ->
  forall c, In c (cells_of out label) -> In c (cells_of pre label).
Proof.
  intros Hcols Hrows c. unfold cells_of, getitem. rewrite Hcols.
  destruct (positions label (columns pre)) as [|i [|j ps]];
    [tauto| |tauto].
  unfold column. rewrite !in_map_iff. intros (r & <- & Hr).
  exists r. split; [reflexivity|].
  rewrite Hrows in Hr. by apply keep_first_in in Hr as [? _].
Qed.

(** ** Maximum of a column *)

Lemma fold_left_Qmax_lt (t : list Q) (x b : Q) :
  (b < fold_left Qmax t x <-> b < x \/ exists y, In y t /\ b < y)%Q.
Proof.
  revert x; induction t as [|a t IH]; intros x; simpl.
  - split; [by left|]. intros [H|(y & [] & _)]. exact H.
  - rewrite IH, Q.max_lt_iff. split.
    + intros [[H|H]|(y & Hy & Hlt)]; [by left| |].
      * right. exists a. by split; [left|].
      * right. exists y. by split; [right|].
    + intros [H|(y & [<-|Hy] & Hlt)]; [by left; left|by left; right|].
      right. by exists y.
Qed.

Lemma exceeds_one_iff (xs : list Q) :
  exceeds_one (series_max xs) = true <-> exists x, In x xs /\ (1 < x)%Q.
Proof.
  destruct xs as [|x t]; simpl.
  - split; [discriminate|]. by intros (x & [] & _).
  - rewrite negb_true_iff, <- not_true_iff_false, Qle_bool_iff.
    assert (Hnle : forall a b : Q, ~ (a <= b)%Q <-> (b < a)%Q)
      by (intros a b; split; [apply Qnot_le_lt | apply Qlt_not_le]).
    rewrite Hnle, fold_left_Qmax_lt. split.
    + intros [H|(y & Hy & Hlt)]; [exists x; by split; [left|]|].
      exists y. by split; [right|].
    + intros (y & [<-|Hy] & Hlt); [by left|]. right. by exists y.
Qed.

Lemma prepare_data_cells_length parse df out label :
  prepare_data parse df = Ok out ->
  In label ["clicks"; "impressions"; "position"; "ctr"] ->
  length (cells_of out label) = length (rows out).
Proof.
  intros Hout Hl.
  destruct (prepare_data_inv _ _ _ Hout)
    as (pre & Hctr & Hpre & _ & Hcols & _).
  destruct (typed_frame_inv parse (renamed df) pre Hctr Hpre)
    as (ic & ii & ip & it & Hic & Hii & Hip & Hit & Hc & _).
  rewrite <- Hc, <- Hcols in Hic, Hii, Hip, Hit.
  simpl in Hl.
  destruct Hl as [<-|[<-|[<-|[<-|[]]]]];
    erewrite cells_of_unique by eassumption; apply length_column.
Qed.

(** C6: when the ctr column is mapped and not entirely missing, it is
    coerced numerically, unparseable cells becoming 0, and then either
    every value is divided by 100 (when some coerced value exceeds 1) or
    none is; the decision is taken once for the column.  The column
    [1.2, 3.4] becomes [0.012, 0.034]. *)
Theorem ctr_percent_rescaling (parse : string -> option Q)
  (df out : DataFrame) :
  prepare_data parse df = Ok out ->
  forallb isna (cells_of (renamed df) "ctr") = false ->
  let xs := coerced parse (cells_of (renamed df) "ctr") in
  let ys := if exceeds_one (series_max xs)
            then map (fun x => (x / 100)%Q) xs
            else xs in
  xs = map (fun c => match coerce parse c with
                     | Some x => x
                     | None => 0%Q
                     end) (cells_of (renamed df) "ctr")
  /\ (exceeds_one (series_max xs) = true <-> exists x, In x xs /\ (1 < x)%Q)
  /\ (exists pre,
         typed_frame parse (renamed df) = Ok pre
         /\ drop_duplicates ["query"; "page"] pre = Ok out
         /\ cells_of pre "ctr" = map CNum ys)
  /\ (forall c, In c (cells_of out "ctr") -> In c (map CNum ys))
  /\ length (cells_of out "ctr") = length (rows out)
  /\ prepare_data parse scenario_c = Ok scenario_c_norm
  /\ cells_of scenario_c_norm "ctr" = [CNum (12 # 1000); CNum (34 # 1000)].
Proof.
  intros Hout Hna xs ys.
  destruct (prepare_data_inv _ _ _ Hout)
    as (pre & Hctr & Hpre & Hdrop & Hcols & Hrows).
  destruct (typed_frame_columns parse (renamed df) pre Hctr Hpre)
    as (_ & _ & _ & Hc & _).
  rewrite Hna in Hc. fold xs in Hc. unfold rescale_pct in Hc. fold ys in Hc.
  split; [|split; [|split; [|split; [|split; [|split]]]]].
  - unfold xs, coerced, fillna0. rewrite map_map. apply map_ext.
    intros c. by destruct (coerce parse c).
  - apply exceeds_one_iff.
  - by exists pre.
  - intros c Hin. rewrite <- Hc.
    by apply (cells_of_keep_first pre out "ctr" Hcols Hrows).
  - apply (prepare_data_cells_length parse df out "ctr" Hout).
    simpl. tauto.
  - vm_compute. reflexivity.
  - reflexivity.
Qed.

Lemma ctr_percent_rescaling_witness :
  prepare_data no_parse scenario_c = Ok scenario_c_norm
  /\ forall c, In c (cells_of scenario_c_norm "ctr") ->
               In c [CNum (12 # 1000); CNum (34 # 1000)].
Proof.
  assert (H : prepare_data no_parse scenario_c = Ok scenario_c_norm)
    by (vm_compute; reflexivity).
  split; [exact H|].
  destruct (ctr_percent_rescaling no_parse scenario_c scenario_c_norm H eq_refl)
    as (_ & _ & _ & Hin & _).
  exact Hin.
Defined.

(** ** Ranges of the normalised fields *)

Lemma guarded_div_eq (a b : Q) :
  guarded_div a b = if Qeq_bool b 0 then 0%Q else (a / b)%Q.
Proof.
  unfold guarded_div, fdiv.
  destruct (Qeq_bool b 0); [|reflexivity]. by destruct (a ?= 0)%Q.
Qed.

Lemma guarded_div_range (a b : Q) :
  (0 <= a)%Q -> (0 <= b)%Q ->
  (0 <= guarded_div a b)%Q
  /\ ((guarded_div a b <= 1)%Q <-> (b == 0)%Q \/ (a <= b)%Q).
Proof.
  intros Ha Hb. rewrite guarded_div_eq.
  destruct (Qeq_bool b 0) eqn:Hz.
  - apply Qeq_bool_iff in Hz. split; [apply Qle_refl|].
    split; [by left|]. intros _. discriminate.
  - apply Qeq_bool_neq in Hz.
    assert (Hpos : (0 < b)%Q).
    { apply Qle_lteq in Hb as [H|H]; [exact H|]. destruct Hz. by symmetry. }
    split.
    + apply Qle_shift_div_l; [exact Hpos|]. by rewrite Qmult_0_l.
    + split.
      * intros Hle. right.
        apply (Qmult_le_r _ _ b Hpos) in Hle.
        rewrite Qmult_1_l in Hle.
        unfold Qdiv in Hle. rewrite <- Qmult_assoc in Hle.
        rewrite (Qmult_comm (/ b)), Qmult_inv_r, Qmult_1_r in Hle; done.
      * intros [H|H]; [by destruct Hz|].
        apply Qle_shift_div_r; [exact Hpos|]. by rewrite Qmult_1_l.
Qed.

Lemma coerced_map parse s : coerced parse s = map (cell_value parse) s.
Proof. unfold coerced, fillna0. by rewrite map_map. Qed.

Lemma Forall_coerced parse (P : Q -> Prop) (s : list cell) :
  Forall (fun c => P (cell_value parse c)) s -> Forall P (coerced parse s).
Proof. rewrite coerced_map. by rewrite Forall_fmap. Qed.

Lemma Forall_kept_cells (P : Q -> Prop) (pre out : DataFrame)
  (label : string) (ys : list Q) :
  columns out = columns pre ->
  rows out = keep_first (key_positions (columns pre)) [] (rows pre) ->
  cells_of pre label = map CNum ys ->
  Forall P ys ->
  Forall (fun c => exists x, c = CNum x /\ P x) (cells_of out label).
Proof.
  intros Hcols Hrows Hpre Hall. apply List.Forall_forall. intros c Hc.
  apply (cells_of_keep_first pre out label Hcols Hrows) in Hc.
  rewrite Hpre in Hc. apply in_map_iff in Hc as (x & <- & Hx).
  exists x. split; [reflexivity|].
  rewrite List.Forall_forall in Hall. by apply Hall.
Qed.

Lemma is_count_nonneg (x : Q) : is_count x = true -> (0 <= x)%Q.
Proof.
  unfold is_count. intros [H _]%andb_true_iff. by apply Qle_bool_iff.
Qed.

Lemma zip_guarded_div_unit (cs ims : list Q) :
  Forall (fun x => (0 <= x)%Q) cs ->
  Forall (fun x => (0 <= x)%Q) ims ->
  Forall2 Qle cs ims ->
  Forall (fun x => (0 <= x <= 1)%Q) (zip_with guarded_div cs ims).
Proof.
  intros Hc Hi H2. revert Hc Hi.
  induction H2 as [|c i cs ims Hle H2 IH]; intros Hc Hi; simpl;
    [constructor|].
  inversion_clear Hc as [|? ? Hc0 Hcs]. inversion_clear Hi as [|? ? Hi0 His].
  constructor; [|by apply IH].
  destruct (guarded_div_range c i Hc0 Hi0) as [Hlo Hhi].
  split; [exact Hlo|]. apply Hhi. by right.
Qed.

Lemma rescale_pct_unit (xs : list Q) :
  Forall (fun x => (0 <= x <= 100)%Q) xs ->
  Forall (fun x => (0 <= x <= 1)%Q) (rescale_pct xs).
Proof.
  intros Hall. unfold rescale_pct.
  destruct (exceeds_one (series_max xs)) eqn:He.
  - rewrite Forall_fmap. eapply Forall_impl; [exact Hall|].
    intros x [Hlo Hhi]. simpl. split.
    + apply Qle_shift_div_l; [reflexivity|]. by rewrite Qmult_0_l.
    + apply Qle_shift_div_r; [reflexivity|]. by rewrite Qmult_1_l.
  - apply List.Forall_forall. intros x Hx.
    rewrite List.Forall_forall in Hall. split; [by apply Hall|].
    destruct (Qlt_le_dec 1 x) as [Hlt|Hle]; [|exact Hle].
    assert (Ht : exceeds_one (series_max xs) = true)
      by (apply exceeds_one_iff; by exists x).
    congruence.
Qed.

(** C5, as stated, fails: negative clicks, a CTR above 1 and a negative
    position survive normalisation. *)
Lemma out_of_range_values_survive :
  prepare_data no_parse out_of_range_frame = Ok out_of_range_norm
  /\ cells_of out_of_range_norm "clicks" = [CNum (-5)]
  /\ cells_of out_of_range_norm "ctr" = [CNum (250 # 100)]
  /\ cells_of out_of_range_norm "position" = [CNum (-1)]
  /\ (-5 < 0)%Q /\ (1 < 250 # 100)%Q /\ (-1 < 0)%Q.
Proof.
  split; [vm_compute; reflexivity|]. repeat split.
Qed.

(** C5 (amended): if every clicks and impressions cell of an accepted
    table coerces to a non-negative integer, every position cell to a
    non-negative number, and either the ctr column is entirely missing
    and clicks never exceed impressions row by row, or every ctr cell
    coerces to a number between 0 and 100, then every normalised record
    has clicks and impressions that are non-negative integers, ctr in
    [0,1] and a non-negative position. *)
Theorem normalised_record_ranges (parse : string -> option Q)
  (df out : DataFrame) :
  prepare_data parse df = Ok out ->
  let r := renamed df in
  let v := cell_value parse in
  Forall (fun c => is_count (v c) = true) (cells_of r "clicks") ->
  Forall (fun c => is_count (v c) = true) (cells_of r "impressions") ->
  Forall (fun c => (0 <= v c)%Q) (cells_of r "position") ->
  (if forallb isna (cells_of r "ctr")
   then Forall2 (fun c i => (v c <= v i)%Q)
          (cells_of r "clicks") (cells_of r "impressions")
   else Forall (fun c => (0 <= v c <= 100)%Q) (cells_of r "ctr")) ->
  Forall (fun c => exists x, c = CNum x /\ is_count x = true)
         (cells_of out "clicks")
  /\ Forall (fun c => exists x, c = CNum x /\ is_count x = true)
            (cells_of out "impressions")
  /\ Forall (fun c => exists x, c = CNum x /\ (0 <= x <= 1)%Q)
            (cells_of out "ctr")
  /\ Forall (fun c => exists x, c = CNum x /\ (0 <= x)%Q)
            (cells_of out "position")
  /\ forall label, In label ["clicks"; "impressions"; "ctr"; "position"] ->
       length (cells_of out label) = length (rows out).
Proof.
  intros Hout r v Hclk Himp Hpos Hctr_in.
  destruct (prepare_data_inv _ _ _ Hout)
    as (pre & Hctr & Hpre & _ & Hcols & Hrows).
  destruct (typed_frame_columns parse r pre Hctr Hpre)
    as (Hc & Hi & Hp & Ht & _).
  split; [|split; [|split; [|split]]].
  - eapply Forall_kept_cells; [exact Hcols|exact Hrows|exact Hc|].
    by apply Forall_coerced.
  - eapply Forall_kept_cells; [exact Hcols|exact Hrows|exact Hi|].
    by apply Forall_coerced.
  - eapply Forall_kept_cells; [exact Hcols|exact Hrows|exact Ht|].
    destruct (forallb isna (cells_of r "ctr")).
    + apply zip_guarded_div_unit.
      * apply Forall_coerced. eapply Forall_impl; [exact Hclk|].
        intros c. apply is_count_nonneg.
      * apply Forall_coerced. eapply Forall_impl; [exact Himp|].
        intros c. apply is_count_nonneg.
      * rewrite !coerced_map. by apply Forall2_fmap.
    + apply rescale_pct_unit. by apply Forall_coerced.
  - eapply Forall_kept_cells; [exact Hcols|exact Hrows|exact Hp|].
    by apply Forall_coerced.
  - intros label Hl. apply (prepare_data_cells_length parse df out label Hout).
    simpl in *. tauto.
Qed.

Lemma normalised_record_ranges_witness :
  prepare_data no_parse ex_frame = Ok ex_norm
  /\ Forall (fun c => exists x, c = CNum x /\ (0 <= x <= 1)%Q)
            (cells_of ex_norm "ctr").
Proof.
  split; [exact ex_frame_normalised|].
  refine (proj1 (proj2 (proj2
    (normalised_record_ranges no_parse ex_frame ex_norm
       ex_frame_normalised _ _ _ _)))).
  - vm_compute. repeat constructor.
  - vm_compute. repeat constructor.
  - vm_compute. repeat constructor; discriminate.
  - vm_compute. repeat constructor; discriminate.
Defined.

(** ** Aggregation *)

Lemma Qsum_nonneg (xs : list Q) :
  Forall (fun x => (0 <= x)%Q) xs -> (0 <= Qsum xs)%Q.
Proof.
  induction 1 as [|x xs Hx Hxs IH]; simpl; [apply Qle_refl|].
  replace 0%Q with (0 + 0)%Q by reflexivity. by apply Qplus_le_compat.
Qed.

Lemma numeric_column_cells df label xs :
  numeric_column df label = Ok xs -> xs = map cell_num (cells_of df label).
Proof.
  unfold numeric_column, cells_of.
  destruct (getitem df label) as [[s|cs]|e]; simpl; congruence.
Qed.

Lemma entries_fields df label es :
  entries df label = Ok es ->
  Forall (fun e => In (e_clicks e) (map cell_num (cells_of df "clicks"))
                   /\ In (e_impressions e)
                         (map cell_num (cells_of df "impressions"))) es.
Proof.
  unfold entries.
  destruct (key_column df label) as [ks|]; [|discriminate].
  destruct (numeric_column df "clicks") as [cs|] eqn:Hc; [|discriminate].
  destruct (numeric_column df "impressions") as [ims|] eqn:Hi; [|discriminate].
  destruct (numeric_column df "position") as [ps|]; [|discriminate].
  cbn [mbind result_bind bind]. intros [= <-].
  apply numeric_column_cells in Hc as ->.
  apply numeric_column_cells in Hi as ->.
  apply List.Forall_forall. intros [k [c [i p]]] Hin.
  apply list_elem_of_In, elem_of_zip_r in Hin.
  pose proof (elem_of_zip_l _ _ _ _ Hin) as Hc.
  apply elem_of_zip_r, elem_of_zip_l in Hin.
  split; by apply list_elem_of_In.
Qed.

Lemma Ok_inj {A} (a b : A) : Ok a = Ok b -> a = b.
Proof. by intros [= ->]. Qed.

Lemma filter_cons_bool {A} (p : A -> bool) (x : A) (l : list A) :
  filter (fun y => p y) (x :: l)
  = if p x then x :: filter (fun y => p y) l else filter (fun y => p y) l.
Proof. rewrite filter_cons. destruct (p x); case_decide; simpl in *; tauto. Qed.

Lemma zip_map_same {A B C} (f : A -> B) (g : A -> C) (l : list A) :
  zip (map f l) (map g l) = map (fun x => (f x, g x)) l.
Proof. induction l as [|x l IH]; simpl; [reflexivity|]. by rewrite IH. Qed.

Lemma entries_rows df label es :
  entries df label = Ok es ->
  exists ik ic ii ip,
    positions label (columns df) = [ik]
    /\ positions "clicks" (columns df) = [ic]
    /\ positions "impressions" (columns df) = [ii]
    /\ positions "position" (columns df) = [ip]
    /\ es = map (row_entry ik ic ii ip) (rows df).
Proof.
  unfold entries, key_column, numeric_column, getitem.
  destruct (positions label (columns df)) as [|ik [|? ?]]; try discriminate.
  destruct (positions "clicks" (columns df)) as [|ic [|? ?]]; try discriminate.
  destruct (positions "impressions" (columns df)) as [|ii [|? ?]];
    try discriminate.
  destruct (positions "position" (columns df)) as [|ip [|? ?]];
    try discriminate.
  cbn [mbind result_bind bind]. intros [= <-].
  exists ik, ic, ii, ip. repeat (split; [reflexivity|]).
  unfold column. rewrite !map_map, !zip_map_same. reflexivity.
Qed.

(** *** Sums that do not wrap around *)

Lemma wrap_int64_small (z : Z) :
  (- 2 ^ 63 <= z < 2 ^ 63)%Z -> wrap_int64 z = z.
Proof.
  unfold wrap_int64.
  change (2 ^ 63)%Z with 9223372036854775808%Z.
  change (2 ^ 64)%Z with 18446744073709551616%Z.
  intros Hz. rewrite Z.mod_small; lia.
Qed.

Lemma Qabs_Qsum (xs : list Q) : (Qabs (Qsum xs) <= Qsum (map Qabs xs))%Q.
Proof.
  induction xs as [|x xs IH]; simpl; [discriminate|].
  eapply Qle_trans; [apply Qabs_triangle|].
  apply Qplus_le_compat; [apply Qle_refl|exact IH].
Qed.

Lemma Qsum_integral (xs : list Q) :
  Forall (fun x => (x == inject_Z (Qfloor x))%Q) xs ->
  (Qsum xs == inject_Z (Qfloor (Qsum xs)))%Q.
Proof.
  intros Hxs.
  assert (Hz : exists z, (Qsum xs == inject_Z z)%Q).
  { induction Hxs as [|x xs Hx _ [z IH]]; simpl; [by exists 0%Z|].
    exists (Qfloor x + z)%Z. rewrite inject_Z_plus, <- Hx, <- IH. reflexivity. }
  destruct Hz as [z Hz]. rewrite Hz at 2. rewrite Qfloor_Z. exact Hz.
Qed.

Lemma agg_sum_exact (b : bool) (xs : list Q) :
  (b = true -> Forall (fun x => (x == inject_Z (Qfloor x))%Q) xs) ->
  (Qabs (Qsum xs) < int64_bound)%Q ->
  (agg_sum b xs == Qsum xs)%Q.
Proof.
  intros Hint Hlt. destruct b; [|reflexivity]. unfold agg_sum.
  pose proof (Qsum_integral xs (Hint eq_refl)) as Hz.
  rewrite Hz in Hlt. apply Qabs_Qlt_condition in Hlt as [Hlo Hhi].
  unfold int64_bound in Hlo, Hhi.
  rewrite <- inject_Z_opp in Hlo.
  rewrite <- Zlt_Qlt in Hlo, Hhi.
  rewrite wrap_int64_small by lia. by symmetry.
Qed.

Lemma Qsum_abs_members (f : entry -> Q) (k : cell) (es : list entry) :
  (Qsum (map (fun e => Qabs (f e)) (members k es))
   <= Qsum (map (fun e => Qabs (f e)) es))%Q.
Proof.
  unfold members. induction es as [|e es IH]; [apply Qle_refl|].
  rewrite filter_cons_bool. destruct (cell_eqb k (e_key e)); simpl.
  - apply Qplus_le_compat; [apply Qle_refl|exact IH].
  - eapply Qle_trans; [exact IH|].
    rewrite <- (Qplus_0_l (Qsum _)) at 1.
    apply Qplus_le_compat; [apply Qabs_nonneg|apply Qle_refl].
Qed.

Lemma members_sum_exact (b : bool) (f : entry -> Q) (k : cell)
  (es : list entry) :
  (b = true -> Forall (fun e => (f e == inject_Z (Qfloor (f e)))%Q) es) ->
  (Qsum (map (fun e => Qabs (f e)) es) < int64_bound)%Q ->
  (agg_sum b (map f (members k es)) == Qsum (map f (members k es)))%Q.
Proof.
  intros Hint Hlt. apply agg_sum_exact.
  - intros Hb. specialize (Hint Hb). rewrite List.Forall_forall in Hint.
    apply List.Forall_forall. intros x (e & <- & He)%in_map_iff.
    apply Hint. unfold members in He.
    by apply list_elem_of_In, list_elem_of_filter in He as [_ He%list_elem_of_In].
  - eapply Qle_lt_trans; [apply Qabs_Qsum|]. rewrite map_map.
    eapply Qle_lt_trans; [apply Qsum_abs_members|exact Hlt].
Qed.

Lemma int64_cell_integral (c : cell) :
  int64_cell c = true -> (cell_num c == inject_Z (Qfloor (cell_num c)))%Q.
Proof.
  destruct c as [s|x|]; simpl; try discriminate.
  intros [[H _]%andb_true_iff _]%andb_true_iff. by apply Qeq_bool_iff.
Qed.

Lemma int64_dtype_integral df label i :
  positions label (columns df) = [i] ->
  int64_dtype df label = true ->
  Forall (fun r => (cell_num (nth i r CNaN)
                    == inject_Z (Qfloor (cell_num (nth i r CNaN))))%Q)
         (rows df).
Proof.
  unfold int64_dtype, getitem. intros -> Hall.
  apply List.Forall_forall. intros r Hr. apply int64_cell_integral.
  rewrite forallb_forall in Hall. apply Hall.
  exact (in_map (fun r => nth i r CNaN) _ _ Hr).
Qed.

Lemma magnitude_rows df label i :
  positions label (columns df) = [i] ->
  magnitude df label
  = Qsum (map (fun r => Qabs (cell_num (nth i r CNaN))) (rows df)).
Proof.
  intros Hp. unfold magnitude. rewrite (cells_of_unique df label i Hp).
  unfold column. by rewrite map_map.
Qed.

(** What [groupby] returns, and the two sums when the column totals stay
    below 2^63. *)
Lemma groupby_inv label df gs :
  groupby label df = Ok gs ->
  exists ik ic ii ip,
    positions label (columns df) = [ik]
    /\ positions "clicks" (columns df) = [ic]
    /\ positions "impressions" (columns df) = [ii]
    /\ positions "position" (columns df) = [ip]
    /\ let es := map (row_entry ik ic ii ip) (rows df) in
       gs = map (fun k => aggregate (int64_dtype df "clicks")
                            (int64_dtype df "impressions") k (members k es))
                (sort_keys (distinct_keys [] (map e_key es)))
       /\ ((magnitude df "clicks" < int64_bound)%Q ->
           forall k,
             (agg_sum (int64_dtype df "clicks") (map e_clicks (members k es))
              == Qsum (map e_clicks (members k es)))%Q)
       /\ ((magnitude df "impressions" < int64_bound)%Q ->
           forall k,
             (agg_sum (int64_dtype df "impressions")
                (map e_impressions (members k es))
              == Qsum (map e_impressions (members k es)))%Q).
Proof.
  unfold groupby.
  destruct (entries df label) as [es|] eqn:Hes; [|discriminate].
  cbn [mbind result_bind bind]. intros Hgs. apply Ok_inj in Hgs.
  destruct (entries_rows _ _ _ Hes)
    as (ik & ic & ii & ip & Hik & Hic & Hii & Hip & ->).
  exists ik, ic, ii, ip. repeat (split; [assumption|]).
  cbv zeta. split; [by symmetry|]. split.
  - intros Hm k. apply members_sum_exact.
    + intros Hb. rewrite Forall_fmap.
      exact (int64_dtype_integral df "clicks" ic Hic Hb).
    + rewrite (magnitude_rows df "clicks" ic Hic) in Hm.
      rewrite map_map. exact Hm.
  - intros Hm k. apply members_sum_exact.
    + intros Hb. rewrite Forall_fmap.
      exact (int64_dtype_integral df "impressions" ii Hii Hb).
    + rewrite (magnitude_rows df "impressions" ii Hii) in Hm.
      rewrite map_map. exact Hm.
Qed.

Lemma members_nonneg df label i (f : entry -> Q) (g : list cell -> entry)
  (k : cell) :
  positions label (columns df) = [i] ->
  (forall r, f (g r) = cell_num (nth i r CNaN)) ->
  Forall (fun c => (0 <= cell_num c)%Q) (cells_of df label) ->
  (0 <= Qsum (map f (members k (map g (rows df)))))%Q.
Proof.
  intros Hp Hf Hnn. rewrite (cells_of_unique df label i Hp) in Hnn.
  rewrite List.Forall_forall in Hnn.
  apply Qsum_nonneg, List.Forall_forall. intros x (e & <- & He)%in_map_iff.
  unfold members in He.
  apply list_elem_of_In, list_elem_of_filter in He as [_ He%list_elem_of_In].
  apply in_map_iff in He as (r & <- & Hr). rewrite Hf.
  apply Hnn. exact (in_map (fun r => nth i r CNaN) _ _ Hr).
Qed.






(** Without the bound on the totals the sign is lost: two records of
    2^62 clicks on one page add up, in 64 bits, to -2^63 clicks, and the
    page's CTR is negative. *)
Lemma group_sum_wraps :
  prepare_data no_parse overflow_table = Ok overflow_table
  /\ Forall (fun c => (0 <= cell_num c)%Q) (cells_of overflow_table "clicks")
  /\ Forall (fun c => (0 <= cell_num c)%Q)
            (cells_of overflow_table "impressions")
  /\ exists s,
       url_stats overflow_table = Ok [s]
       /\ (s_clicks s == inject_Z (- 2 ^ 63))%Q
       /\ (s_ctr s < 0)%Q.
Proof.
  split; [vm_compute; reflexivity|].
  split; [vm_compute; repeat constructor; discriminate|].
  split; [vm_compute; repeat constructor; discriminate|].
  eexists. split; [vm_compute; reflexivity|].
  split; vm_compute; reflexivity.
Qed.

(** ** Performance buckets *)

Lemma Qltb_lt (x y : Q) : Qltb x y = true <-> (x < y)%Q.
Proof.
  unfold Qltb. rewrite negb_true_iff, <- not_true_iff_false, Qle_bool_iff.
  split; [apply Qnot_le_lt | apply Qlt_not_le].
Qed.

Lemma url_performance_analysis_inv t oth results :
  url_performance_analysis t oth = Ok results ->
  exists stats,
    groupby "page" t = Ok stats
    /\ stats <> []
    /\ results !! "total_urls" = Some (VNum (NInt (Z.of_nat (length stats))))
    /\ forall name gs,
         In (name, gs) (buckets (default default_thresholds oth) stats) ->
         results !! (name +:+ "_urls") = Some (VFrame gs)
         /\ results !! (name +:+ "_urls_count")
            = Some (VNum (NInt (Z.of_nat (length gs))))
         /\ results !! ("pct_" +:+ name +:+ "_urls")
            = Some (VNum (NFloat
                 (inject_Z (Z.of_nat (length gs))
                  / inject_Z (Z.of_nat (length stats)) * 100)%Q)).
Proof.
  unfold url_performance_analysis.
  destruct (groupby "page" t) as [stats|] eqn:Hg; [|discriminate].
  cbn [mbind result_bind bind].
  set (th := default default_thresholds oth).
  unfold buckets. cbn [map_result map app fst snd mbind result_bind bind].
  unfold pct, py_truediv.
  destruct (Z.of_nat (length stats) =? 0)%Z eqn:Hz; [discriminate|].
  cbn [mbind result_bind bind num_Q]. intros [= <-].
  exists stats. split; [reflexivity|]. split.
  { intros ->. discriminate. }
  split; [vm_compute; reflexivity|].
  intros name gs Hin. simpl in Hin.
  destruct Hin as [[= <- <-]|[[= <- <-]|[[= <- <-]|[[= <- <-]|[[= <- <-]|[]]]]]];
    (split; [|split]); vm_compute; reflexivity.
Qed.

(** C3, as stated, fails: with the default thresholds a page with 5
    clicks is in none of top, good, weak and dead. *)
Lemma page_in_no_bucket :
  (weak default_thresholds <= good default_thresholds)%Q
  /\ (good default_thresholds <= top default_thresholds)%Q
  /\ match url_performance_analysis low_traffic_table None with
     | Ok results =>
         results !! "total_urls" = Some (VNum (NInt 1))
         /\ frame_at results "top_urls" = Some []
         /\ frame_at results "good_urls" = Some []
         /\ frame_at results "weak_urls" = Some []
         /\ frame_at results "dead_urls" = Some []
     | Err _ => False
     end.
Proof.
  split; [discriminate|]. split; [discriminate|].
  vm_compute. repeat split.
Qed.

(** C3 (amended): for thresholds with weak <= good <= top, the buckets
    are the pages selected by their click conditions; top, good and weak
    are pairwise disjoint; opportunity is a subset of dead; a page is in
    the union of top, good, weak and dead exactly when its clicks are 0
    or at least weak; and, when weak > 0, dead is disjoint from top, good
    and weak.  A page with clicks = 0 is dead, and is also an opportunity
    exactly when its impressions are positive. *)
Theorem bucket_partition (t : DataFrame) (th : Thresholds)
  (results : gmap string value) :
  url_performance_analysis t (Some th) = Ok results ->
  (weak th <= good th)%Q -> (good th <= top th)%Q ->
  exists stats tops goods weaks deads opps,
    groupby "page" t = Ok stats
    /\ frame_at results "top_urls" = Some tops
    /\ frame_at results "good_urls" = Some goods
    /\ frame_at results "weak_urls" = Some weaks
    /\ frame_at results "dead_urls" = Some deads
    /\ frame_at results "opportunity_urls" = Some opps
    /\ forall g,
         (In g tops <-> In g stats /\ (top th <= g_clicks g)%Q)
         /\ (In g goods
             <-> In g stats /\ (good th <= g_clicks g)%Q
                 /\ (g_clicks g < top th)%Q)
         /\ (In g weaks
             <-> In g stats /\ (weak th <= g_clicks g)%Q
                 /\ (g_clicks g < good th)%Q)
         /\ (In g deads <-> In g stats /\ (g_clicks g == 0)%Q)
         /\ (In g opps
             <-> In g stats /\ (g_clicks g == 0)%Q
                 /\ (0 < g_impressions g)%Q)
         /\ ~ (In g tops /\ In g goods)
         /\ ~ (In g tops /\ In g weaks)
         /\ ~ (In g goods /\ In g weaks)
         /\ (In g opps -> In g deads)
         /\ (In g tops \/ In g goods \/ In g weaks \/ In g deads
             <-> In g stats
                 /\ ((g_clicks g == 0)%Q \/ (weak th <= g_clicks g)%Q))
         /\ ((0 < weak th)%Q ->
             In g deads -> ~ (In g tops \/ In g goods \/ In g weaks)).
Proof.
  intros Hres Hwg Hgt.
  destruct (url_performance_analysis_inv _ _ _ Hres)
    as (stats & Hg & _ & _ & Hb).
  cbn [default] in Hb.
  exists stats, (filter (is_top th) stats), (filter (is_good th) stats),
    (filter (is_weak th) stats), (filter is_dead stats),
    (filter is_opportunity stats).
  split; [exact Hg|].
  assert (Hf : forall name gs, In (name, gs) (buckets th stats) ->
                 frame_at results (name +:+ "_urls") = Some gs).
  { intros name gs Hin. unfold frame_at.
    by destruct (Hb name gs Hin) as [-> _]. }
  split; [apply (Hf "top"); simpl; tauto|].
  split; [apply (Hf "good"); simpl; tauto|].
  split; [apply (Hf "weak"); simpl; tauto|].
  split; [apply (Hf "dead"); simpl; tauto|].
  split; [apply (Hf "opportunity"); simpl; tauto|].
  intros g.
  assert (Ht : In g (filter (is_top th) stats)
               <-> In g stats /\ (top th <= g_clicks g)%Q).
  { rewrite <- list_elem_of_In, list_elem_of_filter, list_elem_of_In.
    unfold is_top. rewrite Is_true_true, Qle_bool_iff. tauto. }
  assert (Hgood : In g (filter (is_good th) stats)
                  <-> In g stats /\ (good th <= g_clicks g)%Q
                      /\ (g_clicks g < top th)%Q).
  { rewrite <- list_elem_of_In, list_elem_of_filter, list_elem_of_In.
    unfold is_good.
    rewrite Is_true_true, andb_true_iff, Qle_bool_iff, Qltb_lt. tauto. }
  assert (Hweak : In g (filter (is_weak th) stats)
                  <-> In g stats /\ (weak th <= g_clicks g)%Q
                      /\ (g_clicks g < good th)%Q).
  { rewrite <- list_elem_of_In, list_elem_of_filter, list_elem_of_In.
    unfold is_weak.
    rewrite Is_true_true, andb_true_iff, Qle_bool_iff, Qltb_lt. tauto. }
  assert (Hdead : In g (filter is_dead stats)
                  <-> In g stats /\ (g_clicks g == 0)%Q).
  { rewrite <- list_elem_of_In, list_elem_of_filter, list_elem_of_In.
    unfold is_dead. rewrite Is_true_true, Qeq_bool_iff. tauto. }
  assert (Hopp : In g (filter is_opportunity stats)
                 <-> In g stats /\ (g_clicks g == 0)%Q
                     /\ (0 < g_impressions g)%Q).
  { rewrite <- list_elem_of_In, list_elem_of_filter, list_elem_of_In.
    unfold is_opportunity.
    rewrite Is_true_true, andb_true_iff, Qeq_bool_iff, Qltb_lt. tauto. }
  rewrite Ht, Hgood, Hweak, Hdead, Hopp.
  repeat (split; [tauto|]).
  split; [|split; [|split; [|split; [|split]]]].
  - intros [[_ H1] (_ & _ & H2)]. by apply Qlt_not_le in H2.
  - intros [[_ H1] (_ & _ & H2)].
    apply Qlt_not_le in H2. apply H2. by apply Qle_trans with (top th).
  - intros [(_ & H1 & _) (_ & _ & H2)]. by apply Qlt_not_le in H2.
  - tauto.
  - split.
    + intros [[Hin H]|[(Hin & H & _)|[(Hin & H & _)|[Hin H]]]];
        (split; [exact Hin|]); [right|right|by right|by left].
      * apply Qle_trans with (good th); [exact Hwg|].
        by apply Qle_trans with (top th).
      * by apply Qle_trans with (good th).
    + intros [Hin [Hz|Hw]]; [tauto|].
      destruct (Qlt_le_dec (g_clicks g) (good th)) as [Hlt|Hle]; [tauto|].
      destruct (Qlt_le_dec (g_clicks g) (top th)) as [Hlt'|Hle']; tauto.
  - intros Hpos [_ Hz] Hany.
    assert (Hw : (weak th <= g_clicks g)%Q).
    { destruct Hany as [[_ H]|[(_ & H & _)|(_ & H & _)]].
      - apply Qle_trans with (good th); [exact Hwg|].
        by apply Qle_trans with (top th).
      - by apply Qle_trans with (good th).
      - exact H. }
    rewrite Hz in Hw. by apply Qlt_not_le in Hpos.
Qed.

(** The analysis returns on every table with at least one page. *)
Lemma url_performance_analysis_total t oth stats :
  groupby "page" t = Ok stats -> stats <> [] ->
  exists results, url_performance_analysis t oth = Ok results.
Proof.
  intros Hg Hne. unfold url_performance_analysis. rewrite Hg.
  cbn [mbind result_bind bind].
  unfold buckets. cbn [map_result map app fst snd mbind result_bind bind].
  unfold pct, py_truediv.
  destruct (Z.of_nat (length stats) =? 0)%Z eqn:Hz.
  - apply Z.eqb_eq in Hz. destruct stats; [done|simpl in Hz; lia].
  - cbn [mbind result_bind bind]. eexists. reflexivity.
Qed.

Lemma ex_pages_ok : groupby "page" ex_norm = Ok ex_pages.
Proof. vm_compute. reflexivity. Qed.

Lemma bucket_partition_witness :
  exists results deads opps,
    url_performance_analysis ex_norm (Some default_thresholds) = Ok results
    /\ frame_at results "dead_urls" = Some deads
    /\ frame_at results "opportunity_urls" = Some opps
    /\ forall g, In g opps -> In g deads.
Proof.
  destruct (url_performance_analysis_total ex_norm (Some default_thresholds)
              ex_pages ex_pages_ok) as [results Hres]; [discriminate|].
  destruct (bucket_partition ex_norm default_thresholds results Hres)
    as (stats & tops & goods & weaks & deads & opps & Hg & _ & _ & _
        & Hd & Ho & Hall); [discriminate|discriminate|].
  exists results, deads, opps. repeat (split; [assumption|]).
  intros g. apply (Hall g).
Defined.

(** ** Result dictionaries *)

Lemma lookup_assign_all_congr {V} (d d' : gmap string V)
  (kvs : list (string * V)) (k : string) :
  d !! k = d' !! k -> assign_all d kvs !! k = assign_all d' kvs !! k.
Proof.
  unfold assign_all. revert d d'.
  induction kvs as [|[k' v] kvs IH]; intros d d' Heq; simpl; [exact Heq|].
  apply IH. destruct (decide (k' = k)) as [->|Hne].
  - by rewrite !lookup_insert_eq.
  - by rewrite !lookup_insert_ne.
Qed.

Lemma lookup_assign_all_notin {V} (d : gmap string V)
  (kvs : list (string * V)) (k : string) :
  (forall kv, In kv kvs -> fst kv <> k) ->
  assign_all d kvs !! k = d !! k.
Proof.
  unfold assign_all. revert d.
  induction kvs as [|[k' v] kvs IH]; intros d Hnot; simpl; [reflexivity|].
  rewrite IH by (intros kv Hkv; apply Hnot; by right).
  apply lookup_insert_ne. apply (Hnot (k', v)). by left.
Qed.

Lemma map_result_pct_entry (total : Z) (kvs : list (string * num)) :
  total <> 0%Z ->
  map_result (pct_entry total) kvs = Ok (map (pct_of total) kvs).
Proof.
  intros Hne. induction kvs as [|kv kvs IH]; simpl; [reflexivity|].
  rewrite IH. unfold pct_entry, pct, py_truediv.
  destruct (total =? 0)%Z eqn:Hz; [apply Z.eqb_eq in Hz; done|].
  reflexivity.
Qed.

Lemma map_result_pct_entry_zero (kv : string * num) (kvs : list (string * num)) :
  map_result (pct_entry 0) (kv :: kvs) = Err ZeroDivisionError.
Proof. reflexivity. Qed.

Lemma pct_key_fresh (total : Z) (kvs : list (string * num)) (k : string) :
  (forall s, k <> "pct_" +:+ s) ->
  forall kv, In kv (map (pct_of total) kvs) -> fst kv <> k.
Proof.
  intros Hk kv (kv' & <- & _)%in_map_iff Heq. simpl in Heq.
  by apply (Hk (fst kv')).
Qed.

(** On a table with at least one group the classification returns, and
    every count key holds the value assigned to it in lines 85-193. *)
Lemma dimension_analysis_ok label plural t gs :
  groupby label t = Ok gs -> gs <> [] ->
  exists results,
    dimension_analysis label plural t = Ok results
    /\ forall k, (forall s, k <> "pct_" +:+ s) ->
         results !! k
         = assign_all
             (assign_all ∅
                (("total_" +:+ plural, NInt (Z.of_nat (length gs)))
                 :: presence_counts plural (with_ctr gs)))
             (threshold_counts plural (with_ctr gs)) !! k.
Proof.
  intros Hg Hne. unfold dimension_analysis, pct_loop. rewrite Hg.
  cbn [mbind result_bind bind].
  assert (Hlen : length (with_ctr gs) = length gs) by apply length_map.
  assert (Htot : Z.of_nat (length (with_ctr gs)) <> 0%Z).
  { rewrite Hlen. destruct gs; [done|simpl; lia]. }
  rewrite map_result_pct_entry by exact Htot.
  cbn [mbind result_bind bind].
  rewrite map_result_pct_entry by exact Htot.
  cbn [mbind result_bind bind]. eexists. split; [reflexivity|].
  intros k Hk.
  rewrite lookup_assign_all_notin by (by apply pct_key_fresh).
  rewrite Hlen. apply lookup_assign_all_congr.
  apply lookup_assign_all_notin. by apply pct_key_fresh.
Qed.

(** Without any group the first percentage divides by zero. *)
Lemma dimension_analysis_empty label plural t :
  groupby label t = Ok [] ->
  dimension_analysis label plural t = Err ZeroDivisionError.
Proof.
  intros Hg. unfold dimension_analysis. rewrite Hg. reflexivity.
Qed.

Lemma url_performance_analysis_empty t oth :
  groupby "page" t = Ok [] ->
  url_performance_analysis t oth = Err ZeroDivisionError.
Proof.
  intros Hg. unfold url_performance_analysis. rewrite Hg. reflexivity.
Qed.

(** C2: on the header-only table, which normalisation accepts, every
    analysis divides a count by [total = 0] and raises
    [ZeroDivisionError] instead of returning percentages equal to 0. *)
Theorem empty_table_raises (parse : string -> option Q)
  (thresholds : option Thresholds) :
  prepare_data parse empty_table = Ok empty_table
  /\ query_analysis empty_table = Err ZeroDivisionError
  /\ url_analysis empty_table = Err ZeroDivisionError
  /\ url_performance_analysis empty_table thresholds = Err ZeroDivisionError.
Proof.
  assert (Hq : groupby "query" empty_table = Ok []) by reflexivity.
  assert (Hp : groupby "page" empty_table = Ok []) by reflexivity.
  split; [vm_compute; reflexivity|].
  split; [by apply dimension_analysis_empty|].
  split; [by apply dimension_analysis_empty|].
  by apply url_performance_analysis_empty.
Qed.

(** ** Insights *)

(** On a table with at least one query group and one page group,
    [generate_insights] returns, and its recommendation list is made of
    the three rules, each contributing its sentence when its test holds,
    in the order opportunity, low CTR, dead. *)
Lemma generate_insights_rules (fmt strf : Q -> string) (t : DataFrame)
  (gq gp : list Group) :
  groupby "query" t = Ok gq -> gq <> [] ->
  groupby "page" t = Ok gp -> gp <> [] ->
  let opp := share (length (filter is_opportunity gp)) (length gp) in
  let dead := share (length (filter is_dead gp)) (length gp) in
  let low := Z.of_nat (length (filter (low_ctr s_clicks 100) (with_ctr gq))) in
  exists ins,
    generate_insights fmt strf t = Ok ins
    /\ recommendations ins
       = (if Qltb 10 opp then [opportunity_message (fmt opp)] else [])
         ++ (if Qltb 0 (inject_Z low) then [low_ctr_message (str_int low)]
             else [])
         ++ (if Qltb 20 dead then [dead_message (fmt dead)] else [])
    /\ (length (recommendations ins) <= 3)%nat.
Proof.
  intros Hq Hneq Hp Hnep opp dead low.
  destruct (dimension_analysis_ok "query" "queries" t gq Hq Hneq)
    as (qr & Hqr & Hlook).
  destruct (dimension_analysis_ok "page" "urls" t gp Hp Hnep)
    as (ur & Hur & _).
  destruct (url_performance_analysis_total t None gp Hp Hnep) as (pr & Hpr).
  destruct (url_performance_analysis_inv _ _ _ Hpr)
    as (stats & Hg' & _ & _ & Hb).
  rewrite Hp in Hg'. injection Hg' as <-. cbn [default] in Hb.
  destruct (Hb "opportunity" (filter is_opportunity gp)) as (_ & _ & Ho);
    [simpl; tauto|].
  destruct (Hb "dead" (filter is_dead gp)) as (_ & _ & Hd);
    [simpl; tauto|].
  change ("pct_" +:+ "opportunity" +:+ "_urls") with "pct_opportunity_urls" in Ho.
  change ("pct_" +:+ "dead" +:+ "_urls") with "pct_dead_urls" in Hd.
  fold (share (length (filter is_opportunity gp)) (length gp)) in Ho.
  fold (share (length (filter is_dead gp)) (length gp)) in Hd.
  fold opp in Ho. fold dead in Hd.
  assert (Hl : qr !! "queries_100clicks_1pct_ctr" = Some (NInt low)).
  { rewrite Hlook by (intros s; discriminate).
    vm_compute. reflexivity. }
  unfold generate_insights, query_analysis, url_analysis.
  rewrite Hqr, Hur, Hpr. cbn [mbind result_bind bind].
  unfold get_value, get_num. rewrite Ho, Hd, Hl.
  cbn [default from_option id value_gt fmt_1f num_Q mbind result_bind bind
       str_num].
  destruct (Qltb 10 opp), (Qltb 0 (inject_Z low)), (Qltb 20 dead);
    cbn [mbind result_bind bind fmt_1f num_Q];
    (eexists; split; [reflexivity|split; [reflexivity|simpl; lia]]).
Qed.

(** C9: on the header-only table [generate_insights] evaluates none of
    its rules: the query classification it starts with raises. *)
Theorem insights_raise_on_empty_table (parse : string -> option Q)
  (fmt strf : Q -> string) :
  prepare_data parse empty_table = Ok empty_table
  /\ generate_insights fmt strf empty_table = Err ZeroDivisionError.
Proof.
  split; [vm_compute; reflexivity|].
  unfold generate_insights, query_analysis.
  by rewrite (dimension_analysis_empty "query" "queries" empty_table).
Qed.

(** * Further properties of [prepare_data] *)

(** ** Renaming is stable *)

Lemma lower_ascii_idem (c : ascii) : lower_ascii (lower_ascii c) = lower_ascii c.
Proof. by destruct c as [[] [] [] [] [] [] [] []]. Qed.

Lemma lower_idem (s : string) : lower (lower s) = lower s.
Proof.
  induction s as [|c s IH]; simpl; [reflexivity|].
  by rewrite lower_ascii_idem, IH.
Qed.

Lemma map_column_canonical (col v : string) :
  map_column col = Some v -> In v required_cols.
Proof.
  unfold map_column, first_match. cbv -[contains In].
  repeat (match goal with
          | |- context [contains ?k col] => destruct (contains k col)
          end; try (intros [= <-]; simpl; tauto)).
Qed.

Lemma map_column_fixed (col v : string) :
  map_column col = Some v -> lower v = v /\ map_column v = Some v.
Proof.
  intros Hin%map_column_canonical. simpl in Hin.
  repeat (destruct Hin as [<-|Hin]; [by vm_compute|]). destruct Hin.
Qed.

(** Renaming the labels of an already renamed table changes nothing, and
    the outcome depends on the labels only up to letter case. *)
Theorem renamed_columns_stable (cols : list string) :
  renamed_columns (renamed_columns cols) = renamed_columns cols
  /\ renamed_columns (map lower cols) = renamed_columns cols.
Proof.
  rewrite !renamed_columns_map. split.
  - rewrite map_map. apply map_ext. intros n.
    destruct (map_column (lower n)) as [v|] eqn:Hv; simpl.
    + destruct (map_column_fixed _ _ Hv) as [-> ->]. reflexivity.
    + by rewrite lower_idem, Hv.
  - rewrite map_map. apply map_ext. intros n. by rewrite lower_idem.
Qed.

(** ** Which tables are accepted *)

Lemma convert_ok parse label df i :
  positions label (columns df) = [i] ->
  convert parse label df
  = Ok {| columns := columns df;
          rows := set_column i
                    (map CNum (coerced parse (column i (rows df))))
                    (rows df) |}.
Proof.
  intros Hp. unfold convert, getitem. rewrite Hp.
  cbn [mbind result_bind bind to_numeric].
  by rewrite (setitem_unique _ _ _ i).
Qed.

Lemma convert_duplicated parse label df i j ps :
  positions label (columns df) = i :: j :: ps ->
  convert parse label df = Err TypeError_frame.
Proof. intros Hp. unfold convert, getitem. by rewrite Hp. Qed.

Lemma fill_ctr_ok parse df ic ii it :
  positions "clicks" (columns df) = [ic] ->
  positions "impressions" (columns df) = [ii] ->
  positions "ctr" (columns df) = [it] ->
  exists pre, fill_ctr parse df = Ok pre.
Proof.
  intros Hc Hi Ht. unfold fill_ctr, ctr_not_provided.
  destruct (has_column "ctr" (columns df)) eqn:Hhas.
  - cbn [negb]. unfold getitem at 1. rewrite Ht.
    cbn [mbind result_bind bind].
    destruct (forallb isna (column it (rows df))).
    + unfold derived_ctr, numeric_column, getitem. rewrite Hc, Hi.
      cbn [mbind result_bind bind]. eexists. reflexivity.
    + unfold supplied_ctr, getitem. rewrite Ht.
      cbn [mbind result_bind bind to_numeric]. eexists. reflexivity.
  - apply has_column_positions in Hhas. congruence.
Qed.

Lemma fill_ctr_duplicated parse df i j ps :
  positions "ctr" (columns df) = i :: j :: ps ->
  fill_ctr parse df = Err ValueError_ambiguous.
Proof.
  intros Ht. unfold fill_ctr, ctr_not_provided.
  destruct (has_column "ctr" (columns df)) eqn:Hhas.
  - cbn [negb]. unfold getitem. by rewrite Ht.
  - apply has_column_positions in Hhas. congruence.
Qed.

Lemma drop_duplicates_ok df :
  has_column "query" (columns df) = true ->
  has_column "page" (columns df) = true ->
  exists out, drop_duplicates ["query"; "page"] df = Ok out.
Proof.
  intros Hq Hp. unfold drop_duplicates.
  cbn [filter list_filter]. rewrite Hq, Hp. simpl.
  eexists. reflexivity.
Qed.

Lemma positions_cases (label : string) (cols : list string) :
  has_column label cols = true ->
  (exists i, positions label cols = [i] /\ label_count label cols = 1%nat)
  \/ (exists i j ps, positions label cols = i :: j :: ps
                     /\ (1 < label_count label cols)%nat).
Proof.
  intros Hhas. unfold label_count.
  destruct (positions label cols) as [|i [|j ps]] eqn:Hp.
  - apply has_column_positions in Hp. congruence.
  - left. by exists i.
  - right. exists i, j, ps. split; [reflexivity|simpl; lia].
Qed.

Lemma typed_frame_outcome parse df :
  has_column "clicks" (columns df) = true ->
  has_column "impressions" (columns df) = true ->
  has_column "position" (columns df) = true ->
  has_column "ctr" (columns df) = true ->
  match typed_frame parse df with
  | Ok pre =>
      columns pre = columns df
      /\ Forall (fun l => label_count l (columns df) = 1%nat)
           ["clicks"; "impressions"; "position"; "ctr"]
  | Err TypeError_frame =>
      Exists (fun l => (1 < label_count l (columns df))%nat)
        ["clicks"; "impressions"; "position"]
  | Err ValueError_ambiguous =>
      Forall (fun l => label_count l (columns df) = 1%nat)
        ["clicks"; "impressions"; "position"]
      /\ (1 < label_count "ctr" (columns df))%nat
  | Err _ => False
  end.
Proof.
  intros Hc Hi Hp Ht. unfold typed_frame.
  destruct (positions_cases _ _ Hc) as [(ic & Hic & Hnc)|(i & j & ps & Hic & Hnc)].
  2: { rewrite (convert_duplicated _ _ _ _ _ _ Hic). cbn [mbind result_bind bind].
       by apply Exists_cons_hd. }
  rewrite (convert_ok _ _ _ _ Hic). cbn [mbind result_bind bind].
  destruct (positions_cases _ _ Hi) as [(ii & Hii & Hni)|(i & j & ps & Hii & Hni)].
  2: { rewrite (convert_duplicated _ _ _ i j ps) by exact Hii.
       cbn [mbind result_bind bind].
       by apply Exists_cons_tl, Exists_cons_hd. }
  rewrite (convert_ok _ _ _ ii) by exact Hii. cbn [mbind result_bind bind].
  destruct (positions_cases _ _ Hp) as [(ip & Hip & Hnp)|(i & j & ps & Hip & Hnp)].
  2: { rewrite (convert_duplicated _ _ _ i j ps) by exact Hip.
       cbn [mbind result_bind bind].
       by apply Exists_cons_tl, Exists_cons_tl, Exists_cons_hd. }
  rewrite (convert_ok _ _ _ ip) by exact Hip. cbn [mbind result_bind bind].
  destruct (positions_cases _ _ Ht) as [(it & Hit & Hnt)|(i & j & ps & Hit & Hnt)].
  2: { rewrite (fill_ctr_duplicated _ _ i j ps) by exact Hit.
       split; [|exact Hnt]. by repeat constructor. }
  match goal with
  | |- context [fill_ctr parse ?d] =>
      destruct (fill_ctr_ok parse d ic ii it Hic Hii Hit) as [pre Hpre];
      pose proof Hpre as Hpre'; rewrite Hpre
  end.
  split; [|by repeat constructor].
  unfold fill_ctr in Hpre'.
  destruct (ctr_not_provided _) as [absent|]; [|discriminate].
  cbn [mbind result_bind bind] in Hpre'.
  match type of Hpre' with
  | context [if absent then ?a else ?b] =>
      destruct (if absent then a else b) as [ctr|]; [|discriminate]
  end.
  cbn [mbind result_bind bind] in Hpre'. injection Hpre' as <-.
  by rewrite (setitem_unique _ _ _ it).
Qed.

Lemma prepare_data_ok_header parse df out :
  prepare_data parse df = Ok out ->
  columns out = renamed_columns (columns df)
  /\ missing_cols (renamed_columns (columns df)) = []
  /\ Forall (fun l => label_count l (renamed_columns (columns df)) = 1%nat)
       ["clicks"; "impressions"; "position"; "ctr"].
Proof.
  intros Hout.
  assert (Hm : missing_cols (renamed_columns (columns df)) = []).
  { unfold prepare_data in Hout. cbn [renamed columns] in Hout.
    destruct (missing_cols _); [reflexivity|discriminate]. }
  pose proof (proj1 (missing_cols_nil _) Hm) as Hall.
  assert (Hhas : forall l, In l required_cols ->
            has_column l (columns (renamed df)) = true) by exact Hall.
  destruct (prepare_data_inv _ _ _ Hout) as (pre & _ & Hpre & _ & Hcols & _).
  pose proof (typed_frame_outcome parse (renamed df)
                (Hhas "clicks" ltac:(simpl; tauto))
                (Hhas "impressions" ltac:(simpl; tauto))
                (Hhas "position" ltac:(simpl; tauto))
                (Hhas "ctr" ltac:(simpl; tauto))) as Ht.
  rewrite Hpre in Ht. destruct Ht as [Hc Hu].
  split; [by rewrite Hcols, Hc|]. split; [exact Hm|exact Hu].
Qed.

Lemma prepare_data_accepts parse df :
  missing_cols (renamed_columns (columns df)) = [] ->
  Forall (fun l => label_count l (renamed_columns (columns df)) = 1%nat)
         ["clicks"; "impressions"; "position"; "ctr"] ->
  exists out,
    prepare_data parse df = Ok out
    /\ columns out = renamed_columns (columns df).
Proof.
  intros Hm Hu.
  assert (Hex : exists out, prepare_data parse df = Ok out).
  { unfold prepare_data. cbn [renamed columns]. rewrite Hm.
    pose proof (proj1 (missing_cols_nil _) Hm) as Hall.
    assert (Hhas : forall l, In l required_cols ->
              has_column l (columns (renamed df)) = true) by exact Hall.
    pose proof (typed_frame_outcome parse (renamed df)
                  (Hhas "clicks" ltac:(simpl; tauto))
                  (Hhas "impressions" ltac:(simpl; tauto))
                  (Hhas "position" ltac:(simpl; tauto))
                  (Hhas "ctr" ltac:(simpl; tauto))) as Ht.
    change (columns (renamed df)) with (renamed_columns (columns df)) in Ht.
    inversion_clear Hu as [|? ? Hc Hu1]. inversion_clear Hu1 as [|? ? Hi Hu2].
    inversion_clear Hu2 as [|? ? Hp Hu3]. inversion_clear Hu3 as [|? ? Hct _].
    destruct (typed_frame parse (renamed df)) as [pre|e].
    - destruct Ht as [Hcols _]. cbn [mbind result_bind bind].
      apply drop_duplicates_ok; rewrite Hcols; apply Hhas; simpl; tauto.
    - exfalso. destruct e; try done.
      + apply Exists_cons in Ht as [H|Ht]; [lia|].
        apply Exists_cons in Ht as [H|Ht]; [lia|].
        apply Exists_cons in Ht as [H|Ht]; [lia|].
        by apply Exists_nil in Ht.
      + destruct Ht as [_ H]. lia. }
  destruct Hex as [out Hout]. exists out. split; [exact Hout|].
  by destruct (prepare_data_ok_header _ _ _ Hout) as [? _].
Qed.

(** [prepare_data] has four outcomes, decided by the renamed header alone:
    the missing-columns error when a canonical column is absent; a
    [TypeError] when none is absent but clicks, impressions or position is
    carried by several columns; a [ValueError] when only ctr is carried by
    several columns; and a normalised table otherwise. *)
Theorem prepare_data_outcome (parse : string -> option Q) (df : DataFrame) :
  let cols := renamed_columns (columns df) in
  match prepare_data parse df with
  | Ok out =>
      missing_cols cols = []
      /\ Forall (fun l => label_count l cols = 1%nat)
           ["clicks"; "impressions"; "position"; "ctr"]
  | Err (MissingColumns m) => m = missing_cols cols /\ m <> []
  | Err TypeError_frame =>
      missing_cols cols = []
      /\ Exists (fun l => (1 < label_count l cols)%nat)
           ["clicks"; "impressions"; "position"]
  | Err ValueError_ambiguous =>
      missing_cols cols = []
      /\ Forall (fun l => label_count l cols = 1%nat)
           ["clicks"; "impressions"; "position"]
      /\ (1 < label_count "ctr" cols)%nat
  | Err _ => False
  end.
Proof.
  intros cols. unfold prepare_data. cbn [renamed columns]. fold cols.
  destruct (missing_cols cols) as [|m ms] eqn:Hm; [|by split].
  pose proof (proj1 (missing_cols_nil cols) Hm) as Hall.
  assert (Hhas : forall l, In l required_cols -> has_column l (columns (renamed df)) = true)
    by exact Hall.
  pose proof (typed_frame_outcome parse (renamed df)
                (Hhas "clicks" ltac:(simpl; tauto))
                (Hhas "impressions" ltac:(simpl; tauto))
                (Hhas "position" ltac:(simpl; tauto))
                (Hhas "ctr" ltac:(simpl; tauto))) as Hout.
  destruct (typed_frame parse (renamed df)) as [pre|e].
  - destruct Hout as [Hcols Huniq]. cbn [mbind result_bind bind].
    destruct (drop_duplicates_ok pre) as [out ->].
    + rewrite Hcols. apply Hhas. simpl; tauto.
    + rewrite Hcols. apply Hhas. simpl; tauto.
    + by split.
  - cbn [mbind result_bind bind]. destruct e; try done.
Qed.

(** ** Shape of the normalised table *)

Lemma length_keep_first ps earlier rs :
  (length (keep_first ps earlier rs) <= length rs)%nat.
Proof.
  revert earlier; induction rs as [|r t IH]; intros earlier; simpl; [lia|].
  destruct (existsb _ earlier); simpl; specialize (IH (row_key ps r :: earlier)); lia.
Qed.

Lemma keep_first_nil ps rs : keep_first ps [] rs = [] <-> rs = [].
Proof. destruct rs; simpl; split; congruence. Qed.

Lemma typed_frame_other_columns parse df pre j label :
  has_column "ctr" (columns df) = true ->
  typed_frame parse df = Ok pre ->
  columns df !! j = Some label -> ~ In label numeric_labels ->
  length (rows pre) = length (rows df)
  /\ column j (rows pre) = column j (rows df).
Proof.
  intros Hctr Hpre Hj Hl.
  destruct (typed_frame_inv _ _ _ Hctr Hpre)
    as (ic & ii & ip & it & Hic & Hii & Hip & Hit & Hcols & Hrows).
  assert (Hne : forall l i, In l numeric_labels ->
                  positions l (columns df) = [i] -> i <> j).
  { intros l i Hin Hp ->.
    assert (Hi : columns df !! j = Some l)
      by (apply positions_spec; rewrite Hp; by left).
    congruence. }
  assert (Hcj := Hne "clicks" ic ltac:(simpl; tauto) Hic).
  assert (Hij := Hne "impressions" ii ltac:(simpl; tauto) Hii).
  assert (Hpj := Hne "position" ip ltac:(simpl; tauto) Hip).
  assert (Htj := Hne "ctr" it ltac:(simpl; tauto) Hit).
  rewrite Hrows. cbv zeta. set (rs := rows df).
  assert (HlC : length (map CNum (coerced parse (column ic rs))) = length rs)
    by by rewrite length_coerced, length_column.
  assert (HlI : length (map CNum (coerced parse (column ii rs))) = length rs)
    by by rewrite length_coerced, length_column.
  assert (HlP : length (map CNum (coerced parse (column ip rs))) = length rs)
    by by rewrite length_coerced, length_column.
  assert (Hl1 := length_set_column ic _ _ HlC).
  assert (Hl2 := length_set_column ii _ _ (eq_trans HlI (eq_sym Hl1))).
  rewrite Hl1 in Hl2.
  assert (Hl3 := length_set_column ip _ _ (eq_trans HlP (eq_sym Hl2))).
  rewrite Hl2 in Hl3.
  match goal with
  | |- context [set_column it (map CNum ?T) _] =>
      assert (HlT : length (map CNum T) = length rs)
  end.
  { rewrite length_map. destruct (forallb isna (column it rs)).
    - rewrite length_zip_with. unfold coerced, fillna0.
      rewrite !length_map, !length_column. lia.
    - unfold rescale_pct.
      destruct (exceeds_one _); unfold coerced, fillna0;
        by rewrite ?length_map, ?length_column. }
  split.
  - rewrite length_set_column; congruence.
  - rewrite (column_set_column_other it j), (column_set_column_other ip j),
      (column_set_column_other ii j), (column_set_column_other ic j)
      by (done || congruence). reflexivity.
Qed.

(** Normalisation keeps every column in place and only renames the
    header; it never adds a row and returns no row only for a table
    without rows; and the cells of every column other than clicks,
    impressions, position and ctr are copied unchanged. *)
Theorem normalisation_shape (parse : string -> option Q)
  (df out : DataFrame) :
  prepare_data parse df = Ok out ->
  columns out = renamed_columns (columns df)
  /\ (length (rows out) <= length (rows df))%nat
  /\ (rows out = [] <-> rows df = [])
  /\ forall j label,
       columns out !! j = Some label -> ~ In label numeric_labels ->
       forall c, In c (column j (rows out)) -> In c (column j (rows df)).
Proof.
  intros Hout.
  destruct (prepare_data_inv _ _ _ Hout)
    as (pre & Hctr & Hpre & _ & Hcols & Hrows).
  destruct (typed_frame_keys parse (renamed df) pre Hctr Hpre) as [Hc Hkeys].
  cbn [renamed columns rows] in Hc, Hkeys.
  assert (Hlen : length (rows pre) = length (rows df)).
  { rewrite <- (length_map (row_key (key_positions (renamed_columns (columns df))))
                  (rows pre)), Hkeys.
    apply length_map. }
  split; [congruence|]. split; [|split].
  - rewrite Hrows, <- Hlen. apply length_keep_first.
  - rewrite Hrows, keep_first_nil.
    split; intros H; apply length_zero_iff_nil; apply length_zero_iff_nil in H;
      congruence.
  - intros j label Hj Hl c Hin.
    rewrite Hcols, Hc in Hj.
    destruct (typed_frame_other_columns parse (renamed df) pre j label
                Hctr Hpre Hj Hl) as [_ Hcol].
    cbn [renamed rows] in Hcol. rewrite <- Hcol.
    unfold column in *. apply in_map_iff in Hin as (r & <- & Hr).
    apply in_map_iff. exists r. split; [reflexivity|].
    rewrite Hrows in Hr. by apply keep_first_in in Hr as [? _].
Qed.

Lemma normalisation_shape_witness :
  columns ex_norm = renamed_columns (columns ex_frame)
  /\ (length (rows ex_norm) <= length (rows ex_frame))%nat.
Proof.
  destruct (normalisation_shape no_parse ex_frame ex_norm ex_frame_normalised)
    as (H1 & H2 & _).
  by split.
Defined.

(** ** Edge cases of the CTR column *)

(** A ctr column that is present but holds only cells that do not parse
    (text such as "1.2%", possibly with blanks) is not treated as missing:
    every normalised ctr is 0, whatever clicks and impressions are. *)
Theorem unparseable_ctr_is_zero (parse : string -> option Q)
  (df out : DataFrame) :
  prepare_data parse df = Ok out ->
  forallb isna (cells_of (renamed df) "ctr") = false ->
  Forall (fun c => coerce parse c = None) (cells_of (renamed df) "ctr") ->
  Forall (fun c => c = CNum 0) (cells_of out "ctr")
  /\ length (cells_of out "ctr") = length (rows out).
Proof.
  intros Hout Hna Hnone.
  destruct (prepare_data_inv _ _ _ Hout)
    as (pre & Hctr & Hpre & _ & Hcols & Hrows).
  destruct (typed_frame_columns parse (renamed df) pre Hctr Hpre)
    as (_ & _ & _ & Hc & _).
  rewrite Hna in Hc.
  split; [|apply (prepare_data_cells_length parse df out "ctr" Hout);
           simpl; tauto].
  assert (Hz : Forall (fun x => x = 0%Q)
                 (coerced parse (cells_of (renamed df) "ctr"))).
  { apply Forall_coerced. eapply Forall_impl; [exact Hnone|].
    intros c Hcn. unfold cell_value. by rewrite Hcn. }
  assert (Hr : rescale_pct (coerced parse (cells_of (renamed df) "ctr"))
               = coerced parse (cells_of (renamed df) "ctr")).
  { unfold rescale_pct.
    destruct (exceeds_one _) eqn:He; [|reflexivity].
    apply exceeds_one_iff in He as (x & Hx & Hlt).
    rewrite List.Forall_forall in Hz. rewrite (Hz x Hx) in Hlt. discriminate. }
  rewrite Hr in Hc.
  eapply Forall_impl.
  - eapply (Forall_kept_cells (fun x => x = 0%Q) pre out "ctr");
      [exact Hcols|exact Hrows|exact Hc|exact Hz].
  - intros c (x & -> & ->). reflexivity.
Qed.

Lemma unparseable_ctr_is_zero_witness :
  exists out,
    prepare_data no_parse text_ctr_frame = Ok out
    /\ Forall (fun c => c = CNum 0) (cells_of out "ctr")
    /\ length (cells_of out "ctr") = 2%nat.
Proof.
  assert (H : exists out, prepare_data no_parse text_ctr_frame = Ok out
                          /\ length (rows out) = 2%nat).
  { eexists. split; vm_compute; reflexivity. }
  destruct H as (out & Hout & Hlen). exists out. split; [exact Hout|].
  destruct (unparseable_ctr_is_zero no_parse text_ctr_frame out Hout)
    as [Hz Hl].
  - vm_compute. reflexivity.
  - vm_compute. repeat constructor.
  - split; [exact Hz|congruence].
Defined.

(** When the ctr column is entirely missing, every normalised record
    carries the guarded quotient of its own clicks and impressions: their
    ratio, and 0 when its impressions are 0. *)
Theorem derived_ctr_per_record (parse : string -> option Q)
  (df out : DataFrame) :
  prepare_data parse df = Ok out ->
  forallb isna (cells_of (renamed df) "ctr") = true ->
  exists ic ii it,
    positions "clicks" (columns out) = [ic]
    /\ positions "impressions" (columns out) = [ii]
    /\ positions "ctr" (columns out) = [it]
    /\ Forall (fun r =>
                 exists c i,
                   nth ic r CNaN = CNum c /\ nth ii r CNaN = CNum i
                   /\ nth it r CNaN = CNum (guarded_div c i)
                   /\ ((i == 0)%Q -> guarded_div c i = 0%Q)
                   /\ (~ (i == 0)%Q -> guarded_div c i = (c / i)%Q))
         (rows out).
Proof.
  intros Hout Hna.
  destruct (prepare_data_inv _ _ _ Hout)
    as (pre & Hctr & Hpre & _ & Hcols & Hrows).
  destruct (typed_frame_columns parse (renamed df) pre Hctr Hpre)
    as (Hc & Hi & _ & Ht & _).
  rewrite Hna in Ht.
  destruct (typed_frame_inv parse (renamed df) pre Hctr Hpre)
    as (ic & ii & ip & it & Hic & Hii & Hip & Hit & Hcp & _).
  rewrite <- Hcp in Hic, Hii, Hit.
  rewrite (cells_of_unique pre _ ic) in Hc by done.
  rewrite (cells_of_unique pre _ ii) in Hi by done.
  rewrite (cells_of_unique pre _ it) in Ht by done.
  exists ic, ii, it. rewrite Hcols. repeat (split; [assumption|]).
  apply List.Forall_forall. intros r Hr.
  rewrite Hrows in Hr. apply keep_first_in in Hr as [Hr _].
  apply list_elem_of_In, list_elem_of_lookup in Hr as [k Hk].
  assert (Hcol : forall j, column j (rows pre) !! k = Some (nth j r CNaN)).
  { intros j. unfold column.
    change (map ?f ?l) with (f <$> l). by rewrite list_lookup_fmap, Hk. }
  pose proof (Hcol ic) as Hkc. rewrite Hc in Hkc.
  pose proof (Hcol ii) as Hki. rewrite Hi in Hki.
  pose proof (Hcol it) as Hkt. rewrite Ht in Hkt.
  change (map ?f ?l) with (f <$> l) in Hkc, Hki, Hkt.
  apply list_lookup_fmap_Some in Hkc as (c & Hc1 & Hc2).
  apply list_lookup_fmap_Some in Hki as (i & Hi1 & Hi2).
  apply list_lookup_fmap_Some in Hkt as (t & Ht1 & Ht2).
  apply lookup_zip_with_Some in Ht2 as (c' & i' & -> & Hc3 & Hi3).
  assert (c' = c) as -> by congruence.
  assert (i' = i) as -> by congruence.
  exists c, i. repeat (split; [assumption|]).
  rewrite guarded_div_eq. split.
  - intros Hz. apply Qeq_bool_iff in Hz. by rewrite Hz.
  - intros Hz. destruct (Qeq_bool i 0) eqn:He; [|reflexivity].
    apply Qeq_bool_iff in He. by destruct Hz.
Qed.

Lemma derived_ctr_per_record_witness :
  exists out ic ii it,
    prepare_data no_parse blank_ctr_frame = Ok out
    /\ Forall (fun r =>
                 exists c i,
                   nth ic r CNaN = CNum c /\ nth ii r CNaN = CNum i
                   /\ nth it r CNaN = CNum (guarded_div c i))
         (rows out).
Proof.
  assert (H : exists out, prepare_data no_parse blank_ctr_frame = Ok out).
  { eexists. vm_compute. reflexivity. }
  destruct H as (out & Hout).
  destruct (derived_ctr_per_record no_parse blank_ctr_frame out Hout)
    as (ic & ii & it & _ & _ & _ & Hall).
  - vm_compute. reflexivity.
  - exists out, ic, ii, it. split; [exact Hout|].
    eapply Forall_impl; [exact Hall|].
    intros r (c & i & H1 & H2 & H3 & _). exists c, i.
    split; [exact H1|]. split; [exact H2|exact H3].
Defined.

(** * Further properties of the aggregation *)

(** ** Key equality is an equivalence *)

Lemma cell_eqb_refl (a : cell) : cell_eqb a a = true.
Proof.
  destruct a; simpl; [apply String.eqb_refl|apply Qeq_bool_refl|reflexivity].
Qed.


(** ** Sums over groups *)







(** ** The group keys *)

Lemma distinct_keys_in (seen ks : list cell) (k : cell) :
  In k (distinct_keys seen ks) ->
  In k ks /\ isna k = false /\ existsb (cell_eqb k) seen = false.
Proof.
  revert seen; induction ks as [|a ks IH]; intros seen; simpl; [tauto|].
  destruct (isna a) eqn:Hna; simpl.
  - intros (? & ? & ?)%IH. tauto.
  - destruct (existsb (cell_eqb a) seen) eqn:Hex.
    + intros (? & ? & ?)%IH. tauto.
    + intros [<-|(? & ? & Hs)%IH]; [tauto|].
      simpl in Hs. apply orb_false_elim in Hs as [_ ?]. tauto.
Qed.


Lemma distinct_keys_cover (seen ks : list cell) (k : cell) :
  In k ks -> isna k = false ->
  existsb (cell_eqb k) seen = true
  \/ exists k', In k' (distinct_keys seen ks) /\ cell_eqb k' k = true.
Proof.
  revert seen; induction ks as [|a ks IH]; intros seen; simpl; [tauto|].
  intros [->|Hin] Hna.
  - rewrite Hna. simpl.
    destruct (existsb (cell_eqb k) seen) eqn:Hex; [by left|right].
    exists k. split; [by left|apply cell_eqb_refl].
  - destruct (isna a || existsb (cell_eqb a) seen) eqn:Hskip.
    + by apply IH.
    + destruct (IH (a :: seen) Hin Hna) as [Hex|(k' & Hk' & Heq)].
      * simpl in Hex. apply orb_true_iff in Hex as [Hka|Hex]; [right|by left].
        exists a. split; [by left|]. by rewrite cell_eqb_sym.
      * right. exists k'. split; [by right|exact Heq].
Qed.

Lemma insert_key_in (k x : cell) (ks : list cell) :
  In x (insert_key k ks) <-> x = k \/ In x ks.
Proof.
  induction ks as [|a ks IH]; simpl; [intuition|].
  destruct (cell_leb k a); simpl; rewrite ?IH; intuition.
Qed.

Lemma sort_keys_in (x : cell) (ks : list cell) :
  In x (sort_keys ks) <-> In x ks.
Proof.
  induction ks as [|a ks IH]; simpl; [tauto|].
  rewrite insert_key_in, IH. intuition.
Qed.







Lemma group_keys_cover (es : list entry) (e : entry) :
  In e es ->
  existsb (fun k => cell_eqb k (e_key e))
          (sort_keys (distinct_keys [] (map e_key es)))
  = negb (isna (e_key e)).
Proof.
  intros Hin. destruct (isna (e_key e)) eqn:Hna; simpl.
  - apply not_true_is_false. intros (k & Hk & Heq)%existsb_exists.
    apply (proj1 (sort_keys_in _ _)) in Hk.
    apply distinct_keys_in in Hk as (_ & Hkna & _).
    destruct (e_key e); try discriminate. by destruct k.
  - apply existsb_exists.
    destruct (distinct_keys_cover [] (map e_key es) (e_key e))
      as [Hex|(k & Hk & Heq)]; [by apply in_map|exact Hna|discriminate|].
    exists k. split; [by apply sort_keys_in|exact Heq].
Qed.

Lemma groupby_nonempty label df gs ik r :
  groupby label df = Ok gs ->
  positions label (columns df) = [ik] ->
  In r (rows df) -> isna (nth ik r CNaN) = false ->
  gs <> [].
Proof.
  unfold groupby.
  destruct (entries df label) as [es|] eqn:Hes; [|discriminate].
  cbn [mbind result_bind bind]. intros [= <-] Hk Hr Hna.
  destruct (entries_rows _ _ _ Hes)
    as (ik' & ic & ii & ip & Hik & _ & _ & _ & ->).
  rewrite Hk in Hik. injection Hik as <-.
  pose proof (group_keys_cover (map (row_entry ik ic ii ip) (rows df))
                (row_entry ik ic ii ip r) (in_map _ _ _ Hr)) as Hc.
  cbn [row_entry e_key fst] in Hc. rewrite Hna in Hc.
  apply existsb_exists in Hc as (k & Hin & _).
  intros Hnil. apply map_eq_nil in Hnil. rewrite Hnil in Hin. destruct Hin.
Qed.



(** * Further properties of the result dictionaries *)

Lemma lookup_assign_all_Some {V} (d : gmap string V)
  (kvs : list (string * V)) (k : string) (v : V) :
  assign_all d kvs !! k = Some v -> d !! k = Some v \/ In (k, v) kvs.
Proof.
  unfold assign_all. revert d.
  induction kvs as [|[k' v'] kvs IH]; intros d; simpl; [by left|].
  intros [H|H]%IH; [|by right; right].
  destruct (decide (k' = k)) as [->|Hne].
  - rewrite lookup_insert_eq in H. injection H as ->. right. by left.
  - rewrite lookup_insert_ne in H by done. by left.
Qed.

Lemma lookup_assign_all_in {V} (d : gmap string V)
  (kvs : list (string * V)) (k : string) (v : V) :
  NoDup (kvs.*1) -> In (k, v) kvs -> assign_all d kvs !! k = Some v.
Proof.
  revert d. induction kvs as [|[k' v'] kvs IH]; intros d Hnd Hin;
    [destruct Hin|].
  rewrite fmap_cons in Hnd. apply NoDup_cons in Hnd as [Hk' Hnd].
  destruct Hin as [[= -> ->]|Hin].
  - change (assign_all d ((k, v) :: kvs))
      with (assign_all (<[k := v]> d) kvs).
    rewrite lookup_assign_all_notin; [apply lookup_insert_eq|].
    intros kv Hkv <-. apply Hk'. simpl.
    apply list_elem_of_fmap. exists kv. split; [reflexivity|].
    by apply list_elem_of_In.
  - change (assign_all d ((k', v') :: kvs))
      with (assign_all (<[k' := v']> d) kvs).
    by apply IH.
Qed.

Lemma NoDup_fst_filter {A B} (P : A * B -> Prop) `{forall x, Decision (P x)}
  (l : list (A * B)) :
  NoDup (l.*1) -> NoDup ((filter P l).*1).
Proof.
  induction l as [|x l IH]; [done|].
  rewrite fmap_cons, NoDup_cons. intros [Hx Hnd].
  rewrite filter_cons. case_decide; [|by apply IH].
  rewrite fmap_cons, NoDup_cons. split; [|by apply IH].
  intros (y & Hy & Hin)%list_elem_of_fmap. apply Hx.
  apply list_elem_of_fmap. exists y. split; [exact Hy|].
  by apply list_elem_of_filter in Hin as [_ ?].
Qed.

#[local] Instance pct_prefix_inj : Inj (=) (=) (String.append "pct_").
Proof. intros a b H. simpl in H. by injection H. Qed.

Lemma count_le_total {A} (p : A -> bool) (xs : list A) :
  exists n, count (fun x => p x) xs = NInt n
            /\ (0 <= n <= Z.of_nat (length xs))%Z.
Proof.
  unfold count. eexists. split; [reflexivity|].
  pose proof (length_filter (fun x => p x) xs). lia.
Qed.

Lemma count_entries_counts (plural : string) (stats : list stat) :
  Forall (fun kv => exists n, snd kv = NInt n
                              /\ (0 <= n <= Z.of_nat (length stats))%Z)
         (count_entries plural stats).
Proof.
  unfold count_entries, presence_counts, threshold_counts.
  repeat (apply Forall_cons; split; [apply count_le_total|]).
  cbn [app].
  repeat (apply Forall_cons; split; [apply count_le_total|]).
  apply Forall_nil. done.
Qed.

Lemma count_entries_keys (plural : string) (stats : list stat) :
  (count_entries plural stats).*1 = (count_entries plural []).*1.
Proof. reflexivity. Qed.

(** What a classification that returns has computed. *)
Lemma dimension_analysis_inv label plural t results :
  dimension_analysis label plural t = Ok results ->
  exists gs,
    groupby label t = Ok gs /\ gs <> []
    /\ let stats := with_ctr gs in
       let total := Z.of_nat (length gs) in
       let base :=
         assign_all
           (assign_all
              (assign_all ∅
                 (("total_" +:+ plural, NInt total)
                  :: presence_counts plural stats))
              (map (pct_of total) (presence_counts plural stats)))
           (threshold_counts plural stats) in
       results
       = assign_all base
           (map (pct_of total)
              (filter (fun kv =>
                         startswith (plural +:+ "_") (fst kv)
                         && negb (String.eqb (fst kv) ("total_" +:+ plural)))
                      (map_to_list base))).
Proof.
  unfold dimension_analysis, pct_loop.
  destruct (groupby label t) as [gs|] eqn:Hg; [|discriminate].
  cbn [mbind result_bind bind].
  assert (Hlen : length (with_ctr gs) = length gs) by apply length_map.
  destruct gs as [|g gs']; [discriminate|].
  set (gs := g :: gs') in *.
  assert (Htot : Z.of_nat (length (with_ctr gs)) <> 0%Z)
    by (rewrite Hlen; simpl; lia).
  rewrite map_result_pct_entry by exact Htot.
  cbn [mbind result_bind bind].
  rewrite map_result_pct_entry by exact Htot.
  cbn [mbind result_bind bind]. rewrite Hlen. intros Hres%Ok_inj.
  exists gs. split; [reflexivity|]. split; [discriminate|].
  symmetry. exact Hres.
Qed.

Lemma plural_keys (plural : string) :
  plural = "queries" \/ plural = "urls" ->
  NoDup (("total_" +:+ plural) :: (count_entries plural []).*1)
  /\ Forall (fun k => startswith (plural +:+ "_") k = true
                      /\ forall s, k <> "pct_" +:+ s)
       ((count_entries plural []).*1)
  /\ (forall s, startswith (plural +:+ "_") ("pct_" +:+ s) = false)
  /\ (forall s, "total_" +:+ plural <> "pct_" +:+ s).
Proof.
  intros [->| ->].
  - split; [apply (bool_decide_unpack _); by vm_compute|].
    split; [|split; [reflexivity|discriminate]].
    repeat (apply Forall_cons; split;
            [split; [reflexivity|intros s; discriminate]|]).
    apply Forall_nil. done.
  - split; [apply (bool_decide_unpack _); by vm_compute|].
    split; [|split; [reflexivity|discriminate]].
    repeat (apply Forall_cons; split;
            [split; [reflexivity|intros s; discriminate]|]).
    apply Forall_nil. done.
Qed.

Lemma assign_all_app {V} (d : gmap string V) (l1 l2 : list (string * V)) :
  assign_all (assign_all d l1) l2 = assign_all d (l1 ++ l2).
Proof. unfold assign_all. by rewrite foldl_app. Qed.

(** The entries of a classification that returns: the total, the twenty
    counts, and one percentage per count. *)
Lemma dimension_analysis_entries label plural t results :
  plural = "queries" \/ plural = "urls" ->
  dimension_analysis label plural t = Ok results ->
  exists gs,
    groupby label t = Ok gs /\ gs <> []
    /\ results !! ("total_" +:+ plural) = Some (NInt (Z.of_nat (length gs)))
    /\ (forall k v,
          In (k, v) (count_entries plural (with_ctr gs)) ->
          results !! k = Some v
          /\ results !! ("pct_" +:+ k)
             = Some (snd (pct_of (Z.of_nat (length gs)) (k, v))))
    /\ (forall k v,
          results !! k = Some v ->
          (k, v) = ("total_" +:+ plural, NInt (Z.of_nat (length gs)))
          \/ In (k, v) (count_entries plural (with_ctr gs))
          \/ exists k' v',
               In (k', v') (count_entries plural (with_ctr gs))
               /\ (k, v) = pct_of (Z.of_nat (length gs)) (k', v')).
Proof.
  intros Hpl Hres.
  destruct (dimension_analysis_inv _ _ _ _ Hres) as (gs & Hg & Hne & Heq).
  cbv zeta in Heq.
  destruct (plural_keys plural Hpl) as (Hnd & Hkeys & Hpct & Htk).
  exists gs. split; [exact Hg|]. split; [exact Hne|].
  set (stats := with_ctr gs) in *.
  set (total := Z.of_nat (length gs)) in *.
  set (tk := "total_" +:+ plural) in *.
  set (C := count_entries plural stats).
  set (P1 := map (pct_of total) (presence_counts plural stats)) in *.
  set (L := (tk, NInt total) :: C).
  rewrite <- (count_entries_keys plural stats) in Hnd, Hkeys. fold C in Hnd, Hkeys.
  revert Heq.
  set (base := assign_all (assign_all (assign_all ∅ _) P1) _).
  set (sel := filter _ (map_to_list base)).
  intros Heq.
  assert (HL : forall k, (forall s, k <> "pct_" +:+ s) ->
                 base !! k = assign_all ∅ L !! k).
  { intros k Hk. unfold base, L, C, count_entries.
    rewrite app_comm_cons, <- assign_all_app.
    apply lookup_assign_all_congr.
    apply lookup_assign_all_notin. by apply pct_key_fresh. }
  assert (HinL : forall k v, In (k, v) L -> base !! k = Some v).
  { intros k v Hin. rewrite HL.
    - by apply lookup_assign_all_in.
    - destruct Hin as [[= <- <-]|Hin]; [exact Htk|].
      rewrite Forall_forall in Hkeys.
      apply (Hkeys k).
      apply list_elem_of_fmap. exists (k, v). split; [reflexivity|].
      by apply list_elem_of_In. }
  assert (Hbase : forall k v, base !! k = Some v ->
                    In (k, v) L
                    \/ exists k' v', In (k', v') C
                                     /\ (k, v) = pct_of total (k', v')).
  { intros k v Hb. unfold base in Hb.
    apply lookup_assign_all_Some in Hb as [Hb|Hb].
    - apply lookup_assign_all_Some in Hb as [Hb|Hb].
      + apply lookup_assign_all_Some in Hb as [Hb|Hb]; [done|].
        left. destruct Hb as [<-|Hb]; [by left|right].
        unfold C, count_entries. apply in_or_app. by left.
      + right. apply in_map_iff in Hb as ([k' v'] & Hkv & Hin).
        exists k', v'. split; [|by symmetry].
        unfold C, count_entries. apply in_or_app. by left.
    - left. right. unfold C, count_entries. apply in_or_app. by right. }
  assert (Hsel : forall k v, In (k, v) sel <-> In (k, v) C /\ base !! k = Some v).
  { intros k v. unfold sel.
    rewrite <- list_elem_of_In, list_elem_of_filter, elem_of_map_to_list.
    cbn [fst]. split.
    - intros [Hphi Hb]. split; [|exact Hb].
      apply Is_true_true, andb_true_iff in Hphi as [Hst Hn].
      apply negb_true_iff, String.eqb_neq in Hn.
      destruct (Hbase k v Hb) as [[[= -> _]|Hin]|(k' & v' & _ & [= -> _])];
        [done|exact Hin|].
      by rewrite Hpct in Hst.
    - intros [Hin Hb]. split; [|exact Hb].
      apply Is_true_true, andb_true_iff.
      rewrite Forall_forall in Hkeys.
      assert (HkC : k ∈ C.*1).
      { apply list_elem_of_fmap. exists (k, v). split; [reflexivity|].
        by apply list_elem_of_In. }
      split; [by apply (Hkeys k)|].
      apply negb_true_iff, String.eqb_neq. intros ->.
      by apply NoDup_cons in Hnd as [Hnot _]. }
  assert (HndP2 : NoDup ((map (pct_of total) sel).*1)).
  { assert (Hfst : (map (pct_of total) sel).*1
                   = String.append "pct_" <$> sel.*1).
    { change (map ?f ?l) with (f <$> l).
      rewrite <- !list_fmap_compose. reflexivity. }
    rewrite Hfst. apply NoDup_fmap_2; [apply _|].
    unfold sel. apply NoDup_fst_filter, NoDup_fst_map_to_list. }
  assert (Hfinal : forall k, (forall s, k <> "pct_" +:+ s) ->
                     results !! k = base !! k).
  { intros k Hk. rewrite Heq.
    apply lookup_assign_all_notin. by apply pct_key_fresh. }
  split; [|split].
  - rewrite Hfinal by exact Htk. apply HinL. by left.
  - intros k v Hin.
    assert (Hk : forall s, k <> "pct_" +:+ s).
    { rewrite Forall_forall in Hkeys. apply (Hkeys k).
      apply list_elem_of_fmap. exists (k, v). split; [reflexivity|].
      by apply list_elem_of_In. }
    assert (Hb : base !! k = Some v) by (apply HinL; by right).
    split; [by rewrite Hfinal|].
    rewrite Heq. apply lookup_assign_all_in; [exact HndP2|].
    apply (in_map (pct_of total) sel (k, v)). by apply Hsel.
  - intros k v Hr. rewrite Heq in Hr.
    apply lookup_assign_all_Some in Hr as [Hb|Hin].
    + destruct (Hbase k v Hb) as [[Ht|Hin]|Hp]; auto.
    + apply in_map_iff in Hin as ([k' v'] & Hkv & Hin).
      apply (proj1 (Hsel k' v')) in Hin. destruct Hin as [Hin _].
      right. right. exists k', v'. split; [exact Hin|]. symmetry. exact Hkv.
Qed.

Lemma pct_range (n total : Z) :
  (0 <= n <= total)%Z -> (0 < total)%Z ->
  (0 <= inject_Z n / inject_Z total * 100 <= 100)%Q.
Proof.
  intros [Hn Hle] Hpos.
  assert (Ht : (0 < inject_Z total)%Q) by (unfold Qlt; simpl; lia).
  assert (H0 : (0 <= inject_Z n / inject_Z total)%Q).
  { apply Qle_shift_div_l; [exact Ht|]. rewrite Qmult_0_l.
    unfold Qle; simpl; lia. }
  assert (H1 : (inject_Z n / inject_Z total <= 1)%Q).
  { apply Qle_shift_div_r; [exact Ht|]. rewrite Qmult_1_l.
    unfold Qle; simpl; lia. }
  split.
  - apply Qmult_le_0_compat; [exact H0|discriminate].
  - apply Qle_trans with (1 * 100)%Q; [|discriminate].
    apply Qmult_le_compat_r; [exact H1|discriminate].
Qed.

(** Every entry returned by [query_analysis] or [url_analysis] is either
    a count between 0 and the number of groups, stored with its
    percentage twin ["pct_" + key] equal to 100 * count / total, or such a
    twin, which lies between 0 and 100. *)
Theorem classification_entries (label plural : string) (t : DataFrame)
  (results : gmap string num) :
  plural = "queries" \/ plural = "urls" ->
  dimension_analysis label plural t = Ok results ->
  exists total : Z,
    (0 < total)%Z
    /\ results !! ("total_" +:+ plural) = Some (NInt total)
    /\ forall k v,
         results !! k = Some v ->
         (exists n, v = NInt n /\ (0 <= n <= total)%Z
                    /\ (k <> "total_" +:+ plural ->
                        results !! ("pct_" +:+ k)
                        = Some (NFloat (inject_Z n / inject_Z total * 100)%Q)))
         \/ (exists k' n,
               k = "pct_" +:+ k' /\ results !! k' = Some (NInt n)
               /\ v = NFloat (inject_Z n / inject_Z total * 100)%Q
               /\ (0 <= inject_Z n / inject_Z total * 100 <= 100)%Q).
Proof.
  intros Hpl Hres.
  destruct (dimension_analysis_entries _ _ _ _ Hpl Hres)
    as (gs & Hg & Hne & Htot & Hin & Hall).
  assert (Hpos : (0 < Z.of_nat (length gs))%Z)
    by (destruct gs; [done|simpl; lia]).
  assert (Hcnt : forall k v, In (k, v) (count_entries plural (with_ctr gs)) ->
                   exists n, v = NInt n /\ (0 <= n <= Z.of_nat (length gs))%Z).
  { intros k v Hkv.
    pose proof (count_entries_counts plural (with_ctr gs)) as Hc.
    rewrite List.Forall_forall in Hc. destruct (Hc _ Hkv) as (n & Hn & Hr).
    exists n. split; [exact Hn|].
    unfold with_ctr in Hr. by rewrite length_map in Hr. }
  exists (Z.of_nat (length gs)). split; [exact Hpos|]. split; [exact Htot|].
  intros k v Hkv.
  destruct (Hall k v Hkv) as [[= -> ->]|[Hc|(k' & v' & Hc & Heq)]].
  - left. eexists. split; [reflexivity|]. split; [lia|done].
  - left. destruct (Hcnt k v Hc) as (n & -> & Hr).
    exists n. split; [reflexivity|]. split; [exact Hr|]. intros _.
    by destruct (Hin k _ Hc) as [_ ->].
  - right. destruct (Hcnt k' v' Hc) as (n & -> & Hr).
    injection Heq as -> ->. exists k', n.
    split; [reflexivity|]. split; [by destruct (Hin k' _ Hc) as [-> _]|].
    split; [reflexivity|]. by apply pct_range.
Qed.

Lemma ex_queries_ok : groupby "query" ex_norm = Ok ex_queries.
Proof. vm_compute. reflexivity. Qed.

Lemma classification_entries_witness :
  exists results total,
    query_analysis ex_norm = Ok results
    /\ (0 < total)%Z
    /\ results !! "total_queries" = Some (NInt total).
Proof.
  destruct (dimension_analysis_ok "query" "queries" ex_norm ex_queries
              ex_queries_ok) as (results & Hres & _); [discriminate|].
  destruct (classification_entries "query" "queries" ex_norm results)
    as (total & Hpos & Htot & _); [by left|exact Hres|].
  exists results, total. split; [exact Hres|]. split; [exact Hpos|exact Htot].
Defined.

(** ** Relations between the counts *)

Lemma length_filter_le {A} (p q : A -> bool) (l : list A) :
  (forall x, p x = true -> q x = true) ->
  (length (filter (fun x => p x) l) <= length (filter (fun x => q x) l))%nat.
Proof.
  intros Hpq. induction l as [|x l IH]; [done|].
  rewrite !filter_cons_bool. specialize (Hpq x).
  destruct (p x), (q x); simpl; try lia;
    try (specialize (Hpq eq_refl); discriminate).
Qed.

Lemma length_filter_exclusive2 {A} (p q : A -> bool) (l : list A) :
  (forall x, p x && q x = false) ->
  (length (filter (fun x => p x) l) + length (filter (fun x => q x) l)
   <= length l)%nat.
Proof.
  intros Hex. induction l as [|x l IH]; [done|].
  rewrite !filter_cons_bool. specialize (Hex x).
  destruct (p x), (q x); simpl in *; try lia; try discriminate.
Qed.

Lemma length_filter_cover2 {A} (p q : A -> bool) (l : list A) :
  (forall x, p x && q x = false) ->
  Forall (fun x => p x || q x = true) l ->
  (length (filter (fun x => p x) l) + length (filter (fun x => q x) l)
   = length l)%nat.
Proof.
  intros Hex. induction 1 as [|x l Hx Hl IH]; [done|].
  rewrite !filter_cons_bool. specialize (Hex x).
  destruct (p x), (q x); simpl in *; try lia; try discriminate.
Qed.

Lemma length_filter_exclusive3 {A} (p q r : A -> bool) (l : list A) :
  (forall x, p x && q x = false /\ p x && r x = false /\ q x && r x = false) ->
  (length (filter (fun x => p x) l) + length (filter (fun x => q x) l)
   + length (filter (fun x => r x) l) <= length l)%nat.
Proof.
  intros Hex. induction l as [|x l IH]; [done|].
  rewrite !filter_cons_bool. destruct (Hex x) as (H1 & H2 & H3).
  destruct (p x), (q x), (r x); simpl in *; try lia; try discriminate.
Qed.

Lemma presence_exclusive (x : Q) : Qltb 0 x && Qeq_bool x 0 = false.
Proof.
  destruct (Qltb 0 x) eqn:Hlt; [|reflexivity]. simpl.
  apply not_true_is_false. intros Heq%Qeq_bool_iff.
  apply Qltb_lt in Hlt. rewrite Heq in Hlt. discriminate.
Qed.

Lemma presence_cover (x : Q) : (0 <= x)%Q -> Qltb 0 x || Qeq_bool x 0 = true.
Proof.
  intros Hx. destruct (Qeq_bool x 0) eqn:Heq; [apply orb_true_r|].
  rewrite orb_false_r. apply Qltb_lt.
  apply Qeq_bool_neq in Heq.
  apply Qle_lteq in Hx as [H|H]; [exact H|]. destruct Heq. by symmetry.
Qed.

Lemma groupby_clicks_nonneg df label gs :
  Forall (fun c => (0 <= cell_num c)%Q) (cells_of df "clicks") ->
  (magnitude df "clicks" < int64_bound)%Q ->
  groupby label df = Ok gs ->
  Forall (fun g => (0 <= g_clicks g)%Q) gs.
Proof.
  intros Hc Hmc Hgs.
  destruct (groupby_inv _ _ _ Hgs)
    as (ik & ic & ii & ip & _ & Hic & _ & _ & -> & Hec & _).
  rewrite Forall_fmap. apply List.Forall_forall. intros k _.
  cbn [compose g_clicks aggregate]. rewrite (Hec Hmc k).
  by apply (members_nonneg df "clicks" ic e_clicks).
Qed.

Lemma groupby_impressions_nonneg df label gs :
  Forall (fun c => (0 <= cell_num c)%Q) (cells_of df "impressions") ->
  (magnitude df "impressions" < int64_bound)%Q ->
  groupby label df = Ok gs ->
  Forall (fun g => (0 <= g_impressions g)%Q) gs.
Proof.
  intros Hi Hmi Hgs.
  destruct (groupby_inv _ _ _ Hgs)
    as (ik & ic & ii & ip & _ & _ & Hii & _ & -> & _ & Hei).
  rewrite Forall_fmap. apply List.Forall_forall. intros k _.
  cbn [compose g_impressions aggregate]. rewrite (Hei Hmi k).
  by apply (members_nonneg df "impressions" ii e_impressions).
Qed.

(** The groups with clicks and the groups without clicks never number
    more than the groups, and they partition them when no click count is
    negative and the clicks total less than 2^63, so that no group sum
    wraps around to a negative value; the same holds for impressions. *)
Theorem presence_partition (label plural : string) (t : DataFrame)
  (results : gmap string num) :
  plural = "queries" \/ plural = "urls" ->
  dimension_analysis label plural t = Ok results ->
  exists total wc woc wi woi : Z,
    results !! ("total_" +:+ plural) = Some (NInt total)
    /\ results !! (plural +:+ "_with_clicks") = Some (NInt wc)
    /\ results !! (plural +:+ "_without_clicks") = Some (NInt woc)
    /\ results !! (plural +:+ "_with_impressions") = Some (NInt wi)
    /\ results !! (plural +:+ "_without_impressions") = Some (NInt woi)
    /\ (wc + woc <= total)%Z /\ (wi + woi <= total)%Z
    /\ (Forall (fun c => (0 <= cell_num c)%Q) (cells_of t "clicks") ->
        (magnitude t "clicks" < int64_bound)%Q ->
        (wc + woc = total)%Z)
    /\ (Forall (fun c => (0 <= cell_num c)%Q) (cells_of t "impressions") ->
        (magnitude t "impressions" < int64_bound)%Q ->
        (wi + woi = total)%Z).
Proof.
  intros Hpl Hres.
  destruct (dimension_analysis_entries _ _ _ _ Hpl Hres)
    as (gs & Hg & Hne & Htot & Hin & _).
  set (stats := with_ctr gs) in *.
  assert (Hlen : length stats = length gs) by apply length_map.
  destruct (Hin (plural +:+ "_with_clicks")
              (count (fun s => Qltb 0 (s_clicks s)) stats)) as [H1 _];
    [by left|].
  destruct (Hin (plural +:+ "_with_impressions")
              (count (fun s => Qltb 0 (s_impressions s)) stats)) as [H2 _];
    [right; by left|].
  destruct (Hin (plural +:+ "_without_clicks")
              (count (fun s => Qeq_bool (s_clicks s) 0) stats)) as [H3 _];
    [right; right; by left|].
  destruct (Hin (plural +:+ "_without_impressions")
              (count (fun s => Qeq_bool (s_impressions s) 0) stats)) as [H4 _];
    [right; right; right; by left|].
  unfold count in H1, H2, H3, H4.
  eexists _, _, _, _, _.
  split; [exact Htot|]. split; [exact H1|]. split; [exact H3|].
  split; [exact H2|]. split; [exact H4|].
  pose proof (length_filter_exclusive2
                (fun s => Qltb 0 (s_clicks s))
                (fun s => Qeq_bool (s_clicks s) 0) stats
                (fun s => presence_exclusive (s_clicks s))) as Hc.
  pose proof (length_filter_exclusive2
                (fun s => Qltb 0 (s_impressions s))
                (fun s => Qeq_bool (s_impressions s) 0) stats
                (fun s => presence_exclusive (s_impressions s))) as Hi.
  split; [lia|]. split; [lia|]. split.
  - intros Hnn Hm.
    assert (Hall : Forall (fun s => Qltb 0 (s_clicks s)
                                    || Qeq_bool (s_clicks s) 0 = true) stats).
    { unfold stats, with_ctr. rewrite Forall_fmap.
      eapply Forall_impl; [exact (groupby_clicks_nonneg _ _ _ Hnn Hm Hg)|].
      intros g Hge. by apply presence_cover. }
    pose proof (length_filter_cover2 _ _ stats
                  (fun s => presence_exclusive (s_clicks s)) Hall). lia.
  - intros Hnn Hm.
    assert (Hall : Forall (fun s => Qltb 0 (s_impressions s)
                                    || Qeq_bool (s_impressions s) 0 = true)
                     stats).
    { unfold stats, with_ctr. rewrite Forall_fmap.
      eapply Forall_impl;
        [exact (groupby_impressions_nonneg _ _ _ Hnn Hm Hg)|].
      intros g Hge. by apply presence_cover. }
    pose proof (length_filter_cover2 _ _ stats
                  (fun s => presence_exclusive (s_impressions s)) Hall). lia.
Qed.

Lemma presence_partition_witness :
  exists (results : gmap string num) (total wc woc : Z),
    query_analysis ex_norm = Ok results
    /\ results !! "queries_with_clicks" = Some (NInt wc)
    /\ results !! "queries_without_clicks" = Some (NInt woc)
    /\ results !! "total_queries" = Some (NInt total)
    /\ (wc + woc = total)%Z.
Proof.
  destruct (dimension_analysis_ok "query" "queries" ex_norm ex_queries
              ex_queries_ok) as (results & Hres & _); [discriminate|].
  destruct (presence_partition "query" "queries" ex_norm results)
    as (total & wc & woc & wi & woi & Ht & H1 & H2 & _ & _ & _ & _ & Hc & _);
    [by left|exact Hres|].
  exists results, total, wc, woc.
  split; [exact Hres|]. split; [exact H1|]. split; [exact H2|].
  split; [exact Ht|]. apply Hc.
  - vm_compute. repeat constructor; discriminate.
  - vm_compute. reflexivity.
Defined.

Lemma Qle_bool_trans (a b x : Q) :
  (a <= b)%Q -> Qle_bool b x = true -> Qle_bool a x = true.
Proof. rewrite !Qle_bool_iff. apply Qle_trans. Qed.

Lemma low_ctr_mono (m : metric) (a b : Q) (s : stat) :
  (a <= b)%Q -> low_ctr m b s = true -> low_ctr m a s = true.
Proof.
  unfold low_ctr. intros Hab [H1 H2]%andb_true_iff.
  by rewrite (Qle_bool_trans a b _ Hab H1), H2.
Qed.

Lemma in_band_mono (m : metric) (a b lo hi : Q) (s : stat) :
  (a <= b)%Q -> in_band m b lo hi s = true -> in_band m a lo hi s = true.
Proof.
  unfold in_band. intros Hab [[H1 H2]%andb_true_iff H3]%andb_true_iff.
  by rewrite (Qle_bool_trans a b _ Hab H1), H2, H3.
Qed.

Lemma from_band_mono (m : metric) (a b lo : Q) (s : stat) :
  (a <= b)%Q -> from_band m b lo s = true -> from_band m a lo s = true.
Proof.
  unfold from_band. intros Hab [H1 H2]%andb_true_iff.
  by rewrite (Qle_bool_trans a b _ Hab H1), H2.
Qed.

Lemma bands_exclusive (m : metric) (th : Q) (s : stat) :
  in_band m th 4 10 s && in_band m th 11 20 s = false
  /\ in_band m th 4 10 s && from_band m th 21 s = false
  /\ in_band m th 11 20 s && from_band m th 21 s = false.
Proof.
  unfold in_band, from_band.
  destruct (Qle_bool th (m s)); simpl; [|done].
  assert (Hex : forall lo hi : Q, (hi < lo)%Q ->
            Qle_bool (s_position s) hi && Qle_bool lo (s_position s) = false).
  { intros lo hi Hlt. apply not_true_is_false.
    intros [H1 H2]%andb_true_iff. apply Qle_bool_iff in H1, H2.
    apply (Qlt_not_le _ _ Hlt). by apply Qle_trans with (s_position s). }
  pose proof (Hex 11%Q 10%Q eq_refl) as E1.
  pose proof (Hex 21%Q 10%Q eq_refl) as E2.
  pose proof (Hex 21%Q 20%Q eq_refl) as E3.
  destruct (Qle_bool 4 (s_position s)), (Qle_bool (s_position s) 10),
    (Qle_bool 11 (s_position s)), (Qle_bool (s_position s) 20),
    (Qle_bool 21 (s_position s)); simpl in *; repeat split; congruence.
Qed.

Lemma ordered_counts {A} (p q : A -> bool) (l : list A) (n : nat) :
  (forall x, p x = true -> q x = true) -> length l = n ->
  (0 <= Z.of_nat (length (filter (fun x => p x) l))
   <= Z.of_nat (length (filter (fun x => q x) l)))%Z
  /\ (Z.of_nat (length (filter (fun x => q x) l)) <= Z.of_nat n)%Z.
Proof.
  intros Hpq <-. pose proof (length_filter_le p q l Hpq).
  pose proof (length_filter (fun x => q x) l). lia.
Qed.

Ltac find_entry :=
  unfold count_entries, presence_counts, threshold_counts; cbn [app];
  repeat (first [left; reflexivity | right]).

(** For every metric and every test, the count at the 1000 threshold
    never exceeds the count at the 100 threshold, which never exceeds the
    number of groups; and the three position bands of one metric and
    threshold never hold more groups together than there are groups. *)
Theorem threshold_counts_ordered (label plural : string) (t : DataFrame)
  (results : gmap string num) :
  plural = "queries" \/ plural = "urls" ->
  dimension_analysis label plural t = Ok results ->
  exists total : Z,
    results !! ("total_" +:+ plural) = Some (NInt total)
    /\ (forall m suffix,
          In m ["clicks"; "impr"] ->
          In suffix ["_1pct_ctr"; "_pos_4_10"; "_pos_11_20"; "_pos_21_plus"] ->
          exists a b : Z,
            results !! (plural +:+ "_1000" +:+ m +:+ suffix) = Some (NInt a)
            /\ results !! (plural +:+ "_100" +:+ m +:+ suffix) = Some (NInt b)
            /\ (0 <= a <= b)%Z /\ (b <= total)%Z)
    /\ (forall m th,
          In m ["clicks"; "impr"] -> In th ["100"; "1000"] ->
          exists a b c : Z,
            results !! (plural +:+ "_" +:+ th +:+ m +:+ "_pos_4_10")
            = Some (NInt a)
            /\ results !! (plural +:+ "_" +:+ th +:+ m +:+ "_pos_11_20")
               = Some (NInt b)
            /\ results !! (plural +:+ "_" +:+ th +:+ m +:+ "_pos_21_plus")
               = Some (NInt c)
            /\ (a + b + c <= total)%Z).
Proof.
  intros Hpl Hres.
  destruct (dimension_analysis_entries _ _ _ _ Hpl Hres)
    as (gs & Hg & Hne & Htot & Hin & _).
  set (stats := with_ctr gs) in *.
  assert (Hlen : length stats = length gs) by apply length_map.
  exists (Z.of_nat (length gs)). split; [exact Htot|]. split.
  - intros m suffix Hm Hs. simpl in Hm, Hs.
    destruct Hm as [<-|[<-|[]]];
      destruct Hs as [<-|[<-|[<-|[<-|[]]]]];
      match goal with
      | |- exists a b, _ !! ?k1 = _ /\ _ !! ?k2 = _ /\ _ =>
          (edestruct (Hin k1) as [H1 _]; [find_entry|]);
          (edestruct (Hin k2) as [H2 _]; [find_entry|])
      end;
      unfold count in H1, H2;
      (eexists _, _; split; [exact H1|]; split; [exact H2|]);
      (apply ordered_counts; [|exact Hlen]); intros s;
      first [apply low_ctr_mono | apply in_band_mono | apply from_band_mono];
      discriminate.
  - intros m th Hm Ht. simpl in Hm, Ht.
    destruct Hm as [<-|[<-|[]]]; destruct Ht as [<-|[<-|[]]];
      match goal with
      | |- exists a b c, _ !! ?k1 = _ /\ _ !! ?k2 = _ /\ _ !! ?k3 = _ /\ _ =>
          (edestruct (Hin k1) as [H1 _]; [find_entry|]);
          (edestruct (Hin k2) as [H2 _]; [find_entry|]);
          (edestruct (Hin k3) as [H3 _]; [find_entry|])
      end;
      unfold count in H1, H2, H3;
      (eexists _, _, _; split; [exact H1|]; split; [exact H2|];
       split; [exact H3|]);
      match goal with
      | |- context [filter (fun s => Is_true (in_band ?mm ?tt 4 10 s)) _] =>
          pose proof (length_filter_exclusive3
                        (in_band mm tt 4 10) (in_band mm tt 11 20)
                        (from_band mm tt 21) stats
                        (bands_exclusive mm tt)) as Hex
      end; lia.
Qed.

Lemma threshold_counts_ordered_witness :
  exists (results : gmap string num) (a b : Z),
    url_analysis ex_norm = Ok results
    /\ results !! "urls_1000impr_pos_4_10" = Some (NInt a)
    /\ results !! "urls_100impr_pos_4_10" = Some (NInt b)
    /\ (0 <= a <= b)%Z.
Proof.
  destruct (dimension_analysis_ok "page" "urls" ex_norm ex_pages
              ex_pages_ok) as (results & Hres & _); [discriminate|].
  destruct (threshold_counts_ordered "page" "urls" ex_norm results)
    as (total & _ & Hord & _); [by right|exact Hres|].
  destruct (Hord "impr" "_pos_4_10") as (a & b & H1 & H2 & H3 & _);
    [simpl; tauto|simpl; tauto|].
  exists results, a, b. split; [exact Hres|]. split; [exact H1|].
  split; [exact H2|exact H3].
Defined.

(** * Further properties of the analyses *)

(** ** When the analyses return *)

(** Each analysis propagates the error of its grouping, raises
    [ZeroDivisionError] when the grouping yields no group, and otherwise
    returns a report whose total is the number of groups. *)
Theorem analyses_outcome (t : DataFrame) (thresholds : option Thresholds) :
  match groupby "query" t with
  | Ok [] => query_analysis t = Err ZeroDivisionError
  | Ok gs =>
      exists results,
        query_analysis t = Ok results
        /\ results !! "total_queries" = Some (NInt (Z.of_nat (length gs)))
  | Err e => query_analysis t = Err e
  end
  /\ match groupby "page" t with
     | Ok [] =>
         url_analysis t = Err ZeroDivisionError
         /\ url_performance_analysis t thresholds = Err ZeroDivisionError
     | Ok gs =>
         (exists results,
             url_analysis t = Ok results
             /\ results !! "total_urls" = Some (NInt (Z.of_nat (length gs))))
         /\ (exists results,
                url_performance_analysis t thresholds = Ok results
                /\ results !! "total_urls"
                   = Some (VNum (NInt (Z.of_nat (length gs)))))
     | Err e =>
         url_analysis t = Err e
         /\ url_performance_analysis t thresholds = Err e
     end.
Proof.
  split.
  - destruct (groupby "query" t) as [[|g gs]|e] eqn:Hg.
    + by apply dimension_analysis_empty.
    + destruct (dimension_analysis_ok "query" "queries" t _ Hg)
        as (results & Hres & _); [discriminate|].
      exists results. split; [exact Hres|].
      destruct (dimension_analysis_entries "query" "queries" t results)
        as (gs' & Hg' & _ & Htot & _); [by left|exact Hres|].
      rewrite Hg in Hg'. apply Ok_inj in Hg'. by subst gs'.
    + unfold query_analysis, dimension_analysis. by rewrite Hg.
  - destruct (groupby "page" t) as [[|g gs]|e] eqn:Hg.
    + split; [by apply dimension_analysis_empty|].
      by apply url_performance_analysis_empty.
    + split.
      * destruct (dimension_analysis_ok "page" "urls" t _ Hg)
          as (results & Hres & _); [discriminate|].
        exists results. split; [exact Hres|].
        destruct (dimension_analysis_entries "page" "urls" t results)
          as (gs' & Hg' & _ & Htot & _); [by right|exact Hres|].
        rewrite Hg in Hg'. apply Ok_inj in Hg'. by subst gs'.
      * destruct (url_performance_analysis_total t thresholds _ Hg)
          as (results & Hres); [discriminate|].
        exists results. split; [exact Hres|].
        destruct (url_performance_analysis_inv _ _ _ Hres)
          as (stats & Hg' & _ & Htot & _).
        rewrite Hg in Hg'. apply Ok_inj in Hg'. by subst stats.
    + split.
      * unfold url_analysis, dimension_analysis. by rewrite Hg.
      * unfold url_performance_analysis. by rewrite Hg.
Qed.

Lemma groupby_duplicated label df i j ps :
  positions label (columns df) = i :: j :: ps ->
  groupby label df = Err (ValueError_grouper label).
Proof.
  intros Hp. unfold groupby, entries, key_column. by rewrite Hp.
Qed.

Lemma groupby_ok label df ik :
  positions label (columns df) = [ik] ->
  label_count "clicks" (columns df) = 1%nat ->
  label_count "impressions" (columns df) = 1%nat ->
  label_count "position" (columns df) = 1%nat ->
  exists gs, groupby label df = Ok gs.
Proof.
  unfold label_count. intros Hk Hc Hi Hp.
  unfold groupby, entries, key_column, numeric_column, getitem.
  rewrite Hk.
  destruct (positions "clicks" (columns df)) as [|ic [|? ?]]; try discriminate.
  destruct (positions "impressions" (columns df)) as [|ii [|? ?]];
    try discriminate.
  destruct (positions "position" (columns df)) as [|ip [|? ?]];
    try discriminate.
  cbn [mbind result_bind bind]. eexists. reflexivity.
Qed.

(** A header with every canonical column, exactly one column each for
    clicks, impressions, position and ctr, but two query columns or two
    page columns is accepted by [prepare_data]; the table is rejected
    only later, when an analysis groups by the duplicated column and
    raises "Grouper ... not 1-dimensional". *)
Theorem duplicated_key_column_fails_late (parse : string -> option Q)
  (df : DataFrame) (thresholds : option Thresholds) :
  let cols := renamed_columns (columns df) in
  missing_cols cols = [] ->
  Forall (fun l => label_count l cols = 1%nat)
         ["clicks"; "impressions"; "position"; "ctr"] ->
  exists out,
    prepare_data parse df = Ok out
    /\ ((1 < label_count "query" cols)%nat ->
        query_analysis out = Err (ValueError_grouper "query"))
    /\ ((1 < label_count "page" cols)%nat ->
        url_analysis out = Err (ValueError_grouper "page")
        /\ url_performance_analysis out thresholds
           = Err (ValueError_grouper "page")).
Proof.
  intros cols Hm Hu.
  destruct (prepare_data_accepts parse df Hm Hu) as (out & Hout & Hcols).
  exists out. split; [exact Hout|]. fold cols in Hcols. rewrite <- Hcols.
  unfold label_count. split.
  - intros Hq.
    destruct (positions "query" (columns out)) as [|i [|j ps]] eqn:Hp;
      [simpl in Hq; lia|simpl in Hq; lia|].
    unfold query_analysis, dimension_analysis.
    by rewrite (groupby_duplicated _ _ _ _ _ Hp).
  - intros Hq.
    destruct (positions "page" (columns out)) as [|i [|j ps]] eqn:Hp;
      [simpl in Hq; lia|simpl in Hq; lia|].
    split.
    + unfold url_analysis, dimension_analysis.
      by rewrite (groupby_duplicated _ _ _ _ _ Hp).
    + unfold url_performance_analysis.
      by rewrite (groupby_duplicated _ _ _ _ _ Hp).
Qed.

Lemma duplicated_key_column_fails_late_witness :
  exists out,
    prepare_data no_parse two_page_frame = Ok out
    /\ url_analysis out = Err (ValueError_grouper "page").
Proof.
  destruct (duplicated_key_column_fails_late no_parse two_page_frame None)
    as (out & Hout & _ & Hp).
  - vm_compute. reflexivity.
  - vm_compute. repeat constructor.
  - exists out. split; [exact Hout|].
    destruct Hp as [Hp _]; [vm_compute; lia|exact Hp].
Defined.

(** A normalised table with exactly one query column and one page
    column, each holding at least one value that is not missing, is
    analysed without error: the two classifications, the bucketing under
    any thresholds and the insights all return, with at most three
    recommendations. *)
Theorem accepted_table_is_analysed (parse : string -> option Q)
  (fmt strf : Q -> string) (df out : DataFrame) :
  prepare_data parse df = Ok out ->
  label_count "query" (columns out) = 1%nat ->
  label_count "page" (columns out) = 1%nat ->
  Exists (fun c => isna c = false) (cells_of out "query") ->
  Exists (fun c => isna c = false) (cells_of out "page") ->
  (exists q, query_analysis out = Ok q)
  /\ (exists u, url_analysis out = Ok u)
  /\ (forall thresholds,
        exists p, url_performance_analysis out thresholds = Ok p)
  /\ (exists ins,
        generate_insights fmt strf out = Ok ins
        /\ (length (recommendations ins) <= 3)%nat).
Proof.
  intros Hout Hq Hp Hqc Hpc.
  destruct (prepare_data_ok_header _ _ _ Hout) as (Hcols & _ & Hu).
  rewrite <- Hcols in Hu.
  inversion_clear Hu as [|? ? Hc Hu1]. inversion_clear Hu1 as [|? ? Hi Hu2].
  inversion_clear Hu2 as [|? ? Hpo _].
  assert (Hgroups : forall label,
            label_count label (columns out) = 1%nat ->
            Exists (fun c => isna c = false) (cells_of out label) ->
            exists gs, groupby label out = Ok gs /\ gs <> []).
  { intros label Hl Hex. unfold label_count in Hl.
    destruct (positions label (columns out)) as [|ik [|? ?]] eqn:Hk;
      try discriminate.
    destruct (groupby_ok label out ik Hk Hc Hi Hpo) as [gs Hg].
    exists gs. split; [exact Hg|].
    rewrite (cells_of_unique out label ik Hk) in Hex.
    apply List.Exists_exists in Hex as (c & Hc' & Hna).
    unfold column in Hc'. apply in_map_iff in Hc' as (r & <- & Hr).
    exact (groupby_nonempty label out gs ik r Hg Hk Hr Hna). }
  destruct (Hgroups "query" Hq Hqc) as (gq & Hgq & Hnq).
  destruct (Hgroups "page" Hp Hpc) as (gp & Hgp & Hnp).
  split; [|split; [|split]].
  - destruct (dimension_analysis_ok "query" "queries" out gq Hgq Hnq)
      as (q & Hres & _). by exists q.
  - destruct (dimension_analysis_ok "page" "urls" out gp Hgp Hnp)
      as (u & Hres & _). by exists u.
  - intros thresholds.
    apply (url_performance_analysis_total out thresholds gp Hgp Hnp).
  - destruct (generate_insights_rules fmt strf out gq gp Hgq Hnq Hgp Hnp)
      as (ins & Hins & _ & Hlen).
    exists ins. by split.
Qed.

Lemma accepted_table_is_analysed_witness :
  exists q, query_analysis ex_norm = Ok q.
Proof.
  destruct (accepted_table_is_analysed no_parse (fun _ => "") (fun _ => "")
              ex_frame ex_norm ex_frame_normalised) as [Hq _].
  - vm_compute. reflexivity.
  - vm_compute. reflexivity.
  - vm_compute. apply Exists_cons_hd. reflexivity.
  - vm_compute. apply Exists_cons_hd. reflexivity.
  - exact Hq.
Defined.

(** On a table with at least one query group and one page group the
    insights are returned, and the recommendation list holds, in this
    order, the opportunity sentence exactly when the opportunity
    percentage exceeds 10, the low-CTR sentence exactly when some query
    has 100 or more clicks and a CTR below 1%, and the dead-URL sentence
    exactly when the dead percentage exceeds 20. *)
Theorem insight_rules (fmt strf : Q -> string) (t : DataFrame)
  (gq gp : list Group) :
  groupby "query" t = Ok gq -> gq <> [] ->
  groupby "page" t = Ok gp -> gp <> [] ->
  let opp := share (length (filter is_opportunity gp)) (length gp) in
  let dead := share (length (filter is_dead gp)) (length gp) in
  let low := Z.of_nat (length (filter (low_ctr s_clicks 100) (with_ctr gq))) in
  exists ins,
    generate_insights fmt strf t = Ok ins
    /\ recommendations ins
       = (if Qltb 10 opp then [opportunity_message (fmt opp)] else [])
         ++ (if Qltb 0 (inject_Z low) then [low_ctr_message (str_int low)]
             else [])
         ++ (if Qltb 20 dead then [dead_message (fmt dead)] else [])
    /\ low_ctr_high_click_queries ins = NInt low
    /\ (length (recommendations ins) <= 3)%nat.
Proof.
  intros Hq Hneq Hp Hnep opp dead low.
  destruct (generate_insights_rules fmt strf t gq gp Hq Hneq Hp Hnep)
    as (ins & Hins & Hrecs & Hlen).
  exists ins. split; [exact Hins|]. split; [exact Hrecs|].
  split; [|exact Hlen].
  destruct (dimension_analysis_ok "query" "queries" t gq Hq Hneq)
    as (qr & Hqr & Hlook).
  assert (Hl : qr !! "queries_100clicks_1pct_ctr" = Some (NInt low)).
  { rewrite Hlook by (intros s; discriminate). vm_compute. reflexivity. }
  unfold generate_insights, query_analysis in Hins. rewrite Hqr in Hins.
  cbn [mbind result_bind bind] in Hins.
  destruct (url_analysis t) as [ur|]; [|discriminate].
  cbn [mbind result_bind bind] in Hins.
  destruct (url_performance_analysis t None) as [pr|]; [|discriminate].
  cbn [mbind result_bind bind] in Hins.
  destruct (value_gt _ 10) as [c1|]; [|discriminate].
  cbn [mbind result_bind bind] in Hins.
  match type of Hins with
  | (mbind _ ?r) = _ => destruct r as [recs1|]; [|discriminate]
  end.
  cbn [mbind result_bind bind] in Hins.
  destruct (value_gt _ 20) as [c3|]; [|discriminate].
  cbn [mbind result_bind bind] in Hins.
  match type of Hins with
  | (mbind _ ?r) = _ => destruct r as [recs3|]; [|discriminate]
  end.
  cbn [mbind result_bind bind] in Hins. apply Ok_inj in Hins. subst ins.
  cbn [low_ctr_high_click_queries]. unfold get_num. by rewrite Hl.
Qed.

Lemma insight_rules_witness :
  exists ins,
    generate_insights (fun _ => "33.3") (fun _ => "") ex_norm = Ok ins
    /\ length (recommendations ins) = 2%nat.
Proof.
  destruct (insight_rules (fun _ => "33.3") (fun _ => "") ex_norm
              ex_queries ex_pages ex_queries_ok)
    as (ins & Hins & Hrecs & _ & _);
    [discriminate|exact ex_pages_ok|discriminate|].
  exists ins. split; [exact Hins|]. rewrite Hrecs. reflexivity.
Defined.

(** ** The bucket report *)

Lemma bucket_flags (th : Thresholds) (g : Group) :
  (0 < weak th)%Q -> (weak th <= good th)%Q -> (good th <= top th)%Q ->
  (Nat.b2n (is_top th g) + Nat.b2n (is_good th g) + Nat.b2n (is_weak th g)
   + Nat.b2n (is_dead g) <= 1)%nat
  /\ ((g_clicks g == 0)%Q \/ (weak th <= g_clicks g)%Q ->
      (Nat.b2n (is_top th g) + Nat.b2n (is_good th g)
       + Nat.b2n (is_weak th g) + Nat.b2n (is_dead g) = 1)%nat).
Proof.
  intros Hw Hwg Hgt. unfold is_top, is_good, is_weak, is_dead.
  set (c := g_clicks g).
  destruct (Qle_bool (top th) c) eqn:H1;
    [apply Qle_bool_iff in H1
    |apply not_true_iff_false in H1; rewrite Qle_bool_iff in H1];
  (destruct (Qle_bool (good th) c) eqn:H2;
    [apply Qle_bool_iff in H2
    |apply not_true_iff_false in H2; rewrite Qle_bool_iff in H2]);
  (destruct (Qle_bool (weak th) c) eqn:H3;
    [apply Qle_bool_iff in H3
    |apply not_true_iff_false in H3; rewrite Qle_bool_iff in H3]);
  (destruct (Qltb c (top th)) eqn:H4;
    [apply Qltb_lt in H4
    |apply not_true_iff_false in H4; rewrite Qltb_lt in H4]);
  (destruct (Qltb c (good th)) eqn:H5;
    [apply Qltb_lt in H5
    |apply not_true_iff_false in H5; rewrite Qltb_lt in H5]);
  (destruct (Qeq_bool c 0) eqn:H6;
    [apply Qeq_bool_iff in H6
    |apply not_true_iff_false in H6; rewrite Qeq_bool_iff in H6]);
  simpl; try (exfalso; lra);
    (split; [lia|intros [H|H]; try lia; exfalso; lra]).
Qed.

Lemma length_filter_exclusive4 {A} (p q r s : A -> bool) (l : list A) :
  Forall (fun x => (Nat.b2n (p x) + Nat.b2n (q x) + Nat.b2n (r x)
                    + Nat.b2n (s x) <= 1)%nat) l ->
  (length (filter (fun x => p x) l) + length (filter (fun x => q x) l)
   + length (filter (fun x => r x) l) + length (filter (fun x => s x) l)
   <= length l)%nat.
Proof.
  induction 1 as [|x l Hx Hl IH]; [done|].
  rewrite !filter_cons_bool.
  destruct (p x), (q x), (r x), (s x); simpl in *; lia.
Qed.

Lemma length_filter_cover4 {A} (p q r s : A -> bool) (l : list A) :
  Forall (fun x => (Nat.b2n (p x) + Nat.b2n (q x) + Nat.b2n (r x)
                    + Nat.b2n (s x) = 1)%nat) l ->
  (length (filter (fun x => p x) l) + length (filter (fun x => q x) l)
   + length (filter (fun x => r x) l) + length (filter (fun x => s x) l)
   = length l)%nat.
Proof.
  induction 1 as [|x l Hx Hl IH]; [done|].
  rewrite !filter_cons_bool.
  destruct (p x), (q x), (r x), (s x); simpl in *; lia.
Qed.

(** With thresholds 0 < weak <= good <= top, the report of
    [url_performance_analysis] is consistent: the top, good, weak and
    dead counts add up to at most the number of pages, and to exactly
    that number when every page has 0 clicks or at least [weak] clicks;
    the opportunity count is at most the dead count; and each percentage
    is 100 * count / total, between 0 and 100. *)
Theorem bucket_report_accounting (t : DataFrame) (th : Thresholds)
  (results : gmap string value) :
  url_performance_analysis t (Some th) = Ok results ->
  (0 < weak th)%Q -> (weak th <= good th)%Q -> (good th <= top th)%Q ->
  exists stats total nt ng nw nd no,
    groupby "page" t = Ok stats
    /\ total = Z.of_nat (length stats)
    /\ count_at results "total_urls" = Some total
    /\ count_at results "top_urls_count" = Some nt
    /\ count_at results "good_urls_count" = Some ng
    /\ count_at results "weak_urls_count" = Some nw
    /\ count_at results "dead_urls_count" = Some nd
    /\ count_at results "opportunity_urls_count" = Some no
    /\ (0 < total /\ 0 <= nt /\ 0 <= ng /\ 0 <= nw /\ 0 <= no <= nd)%Z
    /\ (nt + ng + nw + nd <= total)%Z
    /\ (Forall (fun g => (g_clicks g == 0)%Q \/ (weak th <= g_clicks g)%Q)
               stats ->
        (nt + ng + nw + nd = total)%Z)
    /\ Forall (fun kn =>
                 exists p,
                   float_at results ("pct_" +:+ fst kn +:+ "_urls") = Some p
                   /\ (p == inject_Z (snd kn) / inject_Z total * 100)%Q
                   /\ (0 <= p <= 100)%Q)
              [("top", nt); ("good", ng); ("weak", nw); ("dead", nd);
               ("opportunity", no)].
Proof.
  intros Hres Hw Hwg Hgt.
  destruct (url_performance_analysis_inv _ _ _ Hres)
    as (stats & Hg & Hne & Htot & Hb).
  change (default default_thresholds (Some th)) with th in Hb.
  exists stats, (Z.of_nat (length stats)),
    (Z.of_nat (length (filter (is_top th) stats))),
    (Z.of_nat (length (filter (is_good th) stats))),
    (Z.of_nat (length (filter (is_weak th) stats))),
    (Z.of_nat (length (filter is_dead stats))),
    (Z.of_nat (length (filter is_opportunity stats))).
  assert (Hpos : (0 < Z.of_nat (length stats))%Z)
    by (destruct stats; [done|simpl; lia]).
  assert (Hle' : forall p : Group -> bool,
            (length (filter (fun g => p g) stats) <= length stats)%nat).
  { intros p. apply length_filter. }
  assert (Hbucket : forall name (p : Group -> bool),
            In (name, filter (fun g => p g) stats) (buckets th stats) ->
            count_at results (name +:+ "_urls_count")
            = Some (Z.of_nat (length (filter (fun g => p g) stats)))
            /\ exists q,
                 float_at results ("pct_" +:+ name +:+ "_urls") = Some q
                 /\ (q == inject_Z (Z.of_nat (length (filter (fun g => p g) stats)))
                          / inject_Z (Z.of_nat (length stats)) * 100)%Q
                 /\ (0 <= q <= 100)%Q).
  { intros name p Hin. destruct (Hb _ _ Hin) as (_ & Hc & Hp).
    unfold count_at, float_at. rewrite Hc, Hp. split; [reflexivity|].
    eexists. split; [reflexivity|]. split; [reflexivity|].
    apply pct_range; [|exact Hpos]. specialize (Hle' p). lia. }
  destruct (Hbucket "top" (is_top th)) as [Ht Hpt]; [simpl; tauto|].
  destruct (Hbucket "good" (is_good th)) as [Hgd Hpg]; [simpl; tauto|].
  destruct (Hbucket "weak" (is_weak th)) as [Hwk Hpw]; [simpl; tauto|].
  destruct (Hbucket "dead" is_dead) as [Hd Hpd]; [simpl; tauto|].
  destruct (Hbucket "opportunity" is_opportunity) as [Ho Hpo]; [simpl; tauto|].
  split; [exact Hg|]. split; [reflexivity|].
  split; [unfold count_at; by rewrite Htot|].
  split; [exact Ht|]. split; [exact Hgd|]. split; [exact Hwk|].
  split; [exact Hd|]. split; [exact Ho|].
  split.
  { repeat split; try lia.
    apply inj_le.
    apply (length_filter_le is_opportunity is_dead).
    unfold is_opportunity, is_dead. by intros x [? _]%andb_true_iff. }
  split.
  { pose proof (length_filter_exclusive4 (is_top th) (is_good th)
                  (is_weak th) is_dead stats) as H.
    assert (Hall : Forall (fun x => (Nat.b2n (is_top th x)
                     + Nat.b2n (is_good th x) + Nat.b2n (is_weak th x)
                     + Nat.b2n (is_dead x) <= 1)%nat) stats).
    { apply List.Forall_forall. intros g _.
      by destruct (bucket_flags th g Hw Hwg Hgt) as [? _]. }
    specialize (H Hall). lia. }
  split.
  { intros Hcov.
    pose proof (length_filter_cover4 (is_top th) (is_good th)
                  (is_weak th) is_dead stats) as H.
    assert (Hall : Forall (fun x => (Nat.b2n (is_top th x)
                     + Nat.b2n (is_good th x) + Nat.b2n (is_weak th x)
                     + Nat.b2n (is_dead x) = 1)%nat) stats).
    { apply List.Forall_forall. intros g Hin.
      destruct (bucket_flags th g Hw Hwg Hgt) as [_ Heq]. apply Heq.
      by apply (proj1 (List.Forall_forall _ _) Hcov). }
    specialize (H Hall). lia. }
  repeat (apply Forall_cons; split; [assumption|]). apply Forall_nil_2.
Qed.

Lemma bucket_report_accounting_witness :
  exists results,
    url_performance_analysis ex_norm (Some default_thresholds) = Ok results
    /\ count_at results "total_urls" = Some 3%Z.
Proof.
  destruct (url_performance_analysis_total ex_norm (Some default_thresholds)
              ex_pages ex_pages_ok) as [results Hres]; [discriminate|].
  exists results. split; [exact Hres|].
  destruct (bucket_report_accounting ex_norm default_thresholds results Hres)
    as (stats & total & nt & ng & nw & nd & no & Hg & Ht & Hc & _);
    [reflexivity|discriminate|discriminate|].
  rewrite Hc, Ht. rewrite ex_pages_ok in Hg. apply Ok_inj in Hg.
  by rewrite <- Hg.
Defined.

(** ** The overview of the page script *)

(** When the analyzer accepts the upload and finds at least one query
    and one page, the overview shows the numbers of query and page groups
    of the normalised table, but takes the click and impression totals
    from the uploaded frame itself, under the literal labels ["clicks"]
    and ["impressions"]: an upload whose header has no column spelled
    exactly ["clicks"] (for instance ["Clicks"]) ends in
    [KeyError "clicks"] although every analysis has succeeded. *)
Theorem overview_reads_raw_upload (parse : string -> option Q)
  (fmt strf : Q -> string) (fcount : num -> string)
  (fsum : selected -> result string) (th : Thresholds)
  (df out : DataFrame) (gq gp : list Group) :
  prepare_data parse df = Ok out ->
  groupby "query" out = Ok gq -> gq <> [] ->
  groupby "page" out = Ok gp -> gp <> [] ->
  overview parse fmt strf fcount fsum th df
  = (clicks ← getitem df "clicks";
     total_clicks ← fsum clicks;
     impressions ← getitem df "impressions";
     total_impressions ← fsum impressions;
     Ok {| total_queries_metric := fcount (NInt (Z.of_nat (length gq)));
           total_urls_metric := fcount (NInt (Z.of_nat (length gp)));
           total_clicks_metric := total_clicks;
           total_impressions_metric := total_impressions |})
  /\ (has_column "clicks" (columns df) = false ->
      overview parse fmt strf fcount fsum th df = Err (KeyError "clicks")).
Proof.
  intros Hout Hq Hnq Hp Hnp.
  destruct (dimension_analysis_ok "query" "queries" out gq Hq Hnq)
    as (qr & Hqr & Hql).
  destruct (dimension_analysis_ok "page" "urls" out gp Hp Hnp)
    as (ur & Hur & Hul).
  destruct (url_performance_analysis_total out (Some th) gp Hp Hnp)
    as (pr & Hpr).
  destruct (generate_insights_rules fmt strf out gq gp Hq Hnq Hp Hnp)
    as (ins & Hins & _).
  assert (Htq : qr !! "total_queries" = Some (NInt (Z.of_nat (length gq)))).
  { rewrite Hql by (intros s; discriminate). vm_compute. reflexivity. }
  assert (Htu : ur !! "total_urls" = Some (NInt (Z.of_nat (length gp)))).
  { rewrite Hul by (intros s; discriminate). vm_compute. reflexivity. }
  assert (Heq : overview parse fmt strf fcount fsum th df
    = (clicks ← getitem df "clicks";
       total_clicks ← fsum clicks;
       impressions ← getitem df "impressions";
       total_impressions ← fsum impressions;
       Ok {| total_queries_metric := fcount (NInt (Z.of_nat (length gq)));
             total_urls_metric := fcount (NInt (Z.of_nat (length gp)));
             total_clicks_metric := total_clicks;
             total_impressions_metric := total_impressions |})).
  { unfold overview. rewrite Hout. cbn [mbind result_bind bind].
    unfold query_analysis, url_analysis. rewrite Hqr, Hur.
    cbn [mbind result_bind bind]. rewrite Hpr, Hins.
    cbn [mbind result_bind bind]. unfold dict_getitem. rewrite Htq, Htu.
    reflexivity. }
  split; [exact Heq|].
  intros Hc. rewrite Heq. unfold getitem.
  by rewrite (proj1 (has_column_positions "clicks" (columns df)) Hc).
Qed.

Lemma overview_reads_raw_upload_witness :
  overview no_parse (fun _ => "") (fun _ => "") (fun _ => "")
    (fun _ => Ok "") default_thresholds ex_frame
  = Err (KeyError "clicks").
Proof.
  apply (overview_reads_raw_upload no_parse (fun _ => "") (fun _ => "")
           (fun _ => "") (fun _ => Ok "") default_thresholds ex_frame ex_norm
           ex_queries ex_pages ex_frame_normalised ex_queries_ok).
  - discriminate.
  - exact ex_pages_ok.
  - discriminate.
  - reflexivity.
Defined.
